(** * The ingestion pipeline of nazimhikmet_llmtwin, embedded in Rocq

    The development follows the layout of the Python sources:

    - [Py]          the fragment of the Python runtime the pipeline relies on
                    (strings as sequences of code points, truthiness, dict
                    access, exceptions);
    - [Text]        [src/crawler/utils/text.py];
    - [Dedup]       [src/etl/steps/dedup.py];
    - [Base]        [src/crawler/base.py];
    - [Dispatcher]  [src/crawler/dispatcher.py];
    - [PdfPoems]    [src/crawler/crawlers/pdf_poems.py];
    - [Normalize]   [src/etl/steps/normalize.py];
    - [Documents]   [src/domain/documents.py];
    - [Store]       [src/etl/steps/store.py];
    - [Sources]     [src/config/sources.py];
    - [Pipeline]    normalization followed by validation, as [run_once]
                    of [src/crawler/main.py] chains them.

    The parts of [run_once] in [src/crawler/main.py] that combine them are
    stated with the module of the function they call.

    Each module first gives the definitions translated from the source and
    then the statements proved about them. *)

From Stdlib Require Import String Ascii QArith_base.
From stdpp Require Import base numbers option list strings countable gmap fin_maps.

#[local] Set Warnings "-clear-no-such-hyp".

Local Open Scope string_scope.
Local Open Scope list_scope.
Local Open Scope nat_scope.

(* ===================================================================== *)
(** * Python runtime model *)
(* ===================================================================== *)

Module Py.

(** A Python [str] is a sequence of Unicode code points. *)
Definition char := N.
Definition str := list char.

(** ** Literals

    String literals of this file are UTF-8 byte strings; [pystr] decodes
    them into code points so that the tables of the sources can be written
    as they appear there. *)

Fixpoint utf8_decode (bs : list N) : str :=
  match bs with
  | [] => []
  | b0 :: r0 =>
    if (b0 <? 128)%N then b0 :: utf8_decode r0
    else
      match r0 with
      | [] => []
      | b1 :: r1 =>
        if (b0 <? 224)%N then
          ((b0 - 192) * 64 + (b1 - 128))%N :: utf8_decode r1
        else
          match r1 with
          | [] => []
          | b2 :: r2 =>
            if (b0 <? 240)%N then
              ((b0 - 224) * 4096 + (b1 - 128) * 64 + (b2 - 128))%N
                :: utf8_decode r2
            else
              match r2 with
              | [] => []
              | b3 :: r3 =>
                ((b0 - 240) * 262144 + (b1 - 128) * 4096
                 + (b2 - 128) * 64 + (b3 - 128))%N :: utf8_decode r3
              end
          end
      end
  end.

Definition bytes_of_string (s : string) : list N :=
  map N_of_ascii (list_ascii_of_string s).

Definition pystr (s : string) : str := utf8_decode (bytes_of_string s).

(** [s.encode("utf-8")] *)
Definition utf8_encode_char (c : char) : list N :=
  if (c <? 128)%N then [c]
  else if (c <? 2048)%N then [192 + c / 64; 128 + c mod 64]%N
  else if (c <? 65536)%N then
    [224 + c / 4096; 128 + (c / 64) mod 64; 128 + c mod 64]%N
  else
    [240 + c / 262144; 128 + (c / 4096) mod 64;
     128 + (c / 64) mod 64; 128 + c mod 64]%N.

Definition utf8_encode (s : str) : list N := flat_map utf8_encode_char s.

(** ** Character classes

    On the ASCII range the classification of CPython is written out.  For
    the other code points it is read from the Unicode character database
    the interpreter ships with, which the development keeps abstract. *)

Record unicode_db := UnicodeDb {
  (* [Py_UNICODE_ISSPACE] *)
  u_space : char → bool;
  (* [Py_UNICODE_ISALPHA] *)
  u_alpha : char → bool;
  (* [Py_UNICODE_ISUPPER] *)
  u_upper : char → bool;
  (* [Py_UNICODE_ISLOWER] *)
  u_lower : char → bool;
  (* [Py_UNICODE_ISTITLE] *)
  u_title : char → bool;
  (* [Py_UNICODE_ISDECIMAL], the class [\d] of [re] on [str] patterns *)
  u_decimal : char → bool;
  (* [Py_UNICODE_ISDIGIT] *)
  u_digit : char → bool;
  (* [Py_UNICODE_TODECIMAL], the value [int] gives a decimal digit *)
  u_decimal_value : char → N;
  (* [str.lower] on a string that is not pure ASCII *)
  u_lower_str : str → str
}.

Definition is_ascii (c : char) : bool := (c <? 128)%N.

Definition between (lo hi c : N) : bool := ((lo <=? c) && (c <=? hi))%N.

Section Classes.
Context (U : unicode_db).

Definition isspace (c : char) : bool :=
  if is_ascii c then between 9 13 c || between 28 32 c else u_space U c.

Definition ch_isupper (c : char) : bool :=
  if is_ascii c then between 65 90 c else u_upper U c.

Definition ch_islower (c : char) : bool :=
  if is_ascii c then between 97 122 c else u_lower U c.

Definition ch_istitle (c : char) : bool :=
  if is_ascii c then false else u_title U c.

Definition ch_isalpha (c : char) : bool :=
  if is_ascii c then between 65 90 c || between 97 122 c else u_alpha U c.

Definition ch_isdecimal (c : char) : bool :=
  if is_ascii c then between 48 57 c else u_decimal U c.

Definition ch_isdigit (c : char) : bool :=
  if is_ascii c then between 48 57 c else u_digit U c.

Definition ch_decimal_value (c : char) : N :=
  if is_ascii c then (c - 48)%N else u_decimal_value U c.

(** ** String methods *)

(** [s.lstrip()], [s.rstrip()], [s.strip()] *)
Fixpoint lstrip (s : str) : str :=
  match s with
  | c :: s' => if isspace c then lstrip s' else s
  | [] => []
  end.

Definition rstrip (s : str) : str := reverse (lstrip (reverse s)).

Definition strip (s : str) : str := rstrip (lstrip s).

(** [s.split()]: the maximal runs of non-space characters.  [word] holds
    the characters of the run being read. *)
Fixpoint split_from (word : str) (s : str) : list str :=
  match s with
  | [] => match word with [] => [] | _ => [word] end
  | c :: s' =>
    if isspace c then
      match word with
      | [] => split_from [] s'
      | _ => word :: split_from [] s'
      end
    else split_from (word ++ [c]) s'
  end.

Definition split (s : str) : list str := split_from [] s.

(** [s.isupper()] (CPython, [unicode_isupper_impl]) *)
Fixpoint isupper_loop (cased : bool) (s : str) : bool :=
  match s with
  | [] => cased
  | c :: s' =>
    if ch_islower c || ch_istitle c then false
    else if negb cased && ch_isupper c then isupper_loop true s'
    else isupper_loop cased s'
  end.

Definition isupper (s : str) : bool :=
  match s with
  | [c] => ch_isupper c
  | [] => false
  | _ => isupper_loop false s
  end.

(** [s.istitle()] (CPython, [unicode_istitle_impl]) *)
Fixpoint istitle_loop (cased previous_is_cased : bool) (s : str) : bool :=
  match s with
  | [] => cased
  | c :: s' =>
    if ch_isupper c || ch_istitle c then
      if previous_is_cased then false else istitle_loop true true s'
    else if ch_islower c then
      if negb previous_is_cased then false else istitle_loop true true s'
    else istitle_loop cased false s'
  end.

Definition istitle (s : str) : bool :=
  match s with
  | [c] => ch_istitle c || ch_isupper c
  | [] => false
  | _ => istitle_loop false false s
  end.

(** [s.isalpha()], [s.isdigit()] *)
Definition isalpha (s : str) : bool :=
  match s with [] => false | _ => forallb ch_isalpha s end.

Definition isdigit (s : str) : bool :=
  match s with [] => false | _ => forallb ch_isdigit s end.

(** [s.lower()] *)
Definition ascii_lower (c : char) : char :=
  if between 65 90 c then (c + 32)%N else c.

Definition lower (s : str) : str :=
  if forallb is_ascii s then map ascii_lower s else u_lower_str U s.

End Classes.

(** The entries of the database for the letters of the Turkish alphabet
    outside ASCII and for the no-break space, enough to run the pipeline
    on the texts of the corpus. *)
Definition tr_upper : list char := [199; 286; 304; 214; 350; 220]%N.
Definition tr_lower : list char := [231; 287; 305; 246; 351; 252]%N.

Definition mem (c : char) (l : list char) : bool := existsb (N.eqb c) l.

Definition tr_lower_char (c : char) : str :=
  if (c =? 199)%N then [231%N]
  else if (c =? 286)%N then [287%N]
  else if (c =? 304)%N then [105%N; 775%N]
  else if (c =? 214)%N then [246%N]
  else if (c =? 350)%N then [351%N]
  else if (c =? 220)%N then [252%N]
  else [ascii_lower c].

Definition corpus_db : unicode_db := {|
  u_space := λ c, mem c [133; 160]%N;
  u_alpha := λ c, mem c tr_upper || mem c tr_lower;
  u_upper := λ c, mem c tr_upper;
  u_lower := λ c, mem c tr_lower;
  u_title := λ _, false;
  u_decimal := λ _, false;
  u_digit := λ _, false;
  u_decimal_value := λ _, 0%N;
  u_lower_str := flat_map tr_lower_char
|}.

(** [sep.join(parts)] *)
Fixpoint join (sep : str) (parts : list str) : str :=
  match parts with
  | [] => []
  | [p] => p
  | p :: ps => p ++ sep ++ join sep ps
  end.

(** [needle in s] *)
Fixpoint starts_with (p s : str) : bool :=
  match p, s with
  | [], _ => true
  | a :: p', b :: s' => (a =? b)%N && starts_with p' s'
  | _ :: _, [] => false
  end.

Fixpoint contains (needle s : str) : bool :=
  starts_with needle s ||
  match s with
  | [] => false
  | _ :: s' => contains needle s'
  end.

(** ** Values

    The fields of a raw record are scalars: [None], booleans, integers and
    strings. *)
Inductive value :=
| VNone
| VBool (b : bool)
| VInt (n : Z)
| VStr (s : str).

#[global] Instance value_eq_dec : EqDecision value.
Proof. solve_decision. Defined.

(** [bool(v)] *)
Definition truthy (v : value) : bool :=
  match v with
  | VNone => false
  | VBool b => b
  | VInt n => negb (n =? 0)%Z
  | VStr s => match s with [] => false | _ => true end
  end.

(** [a or b] *)
Definition por (a b : value) : value := if truthy a then a else b.

(** Keys of sets and dicts are compared with [==] after hashing, under
    which [True == 1] and [False == 0]; [hkey] is the representative of a
    scalar for that comparison. *)
Inductive hkey :=
| KNone
| KNum (n : Z)
| KStr (s : str).

#[global] Instance hkey_eq_dec : EqDecision hkey.
Proof. solve_decision. Defined.

Definition hkey_enc (k : hkey) : unit + Z + str :=
  match k with
  | KNone => inl (inl tt)
  | KNum n => inl (inr n)
  | KStr s => inr s
  end.

Definition hkey_dec (x : unit + Z + str) : hkey :=
  match x with
  | inl (inl _) => KNone
  | inl (inr n) => KNum n
  | inr s => KStr s
  end.

#[global] Instance hkey_countable : Countable hkey.
Proof. apply (inj_countable' hkey_enc hkey_dec). by intros []. Defined.

Definition key_of (v : value) : hkey :=
  match v with
  | VNone => KNone
  | VBool b => KNum (Z.b2z b)
  | VInt n => KNum n
  | VStr s => KStr s
  end.

(** A raw record is a [dict] from field names to scalars. *)
Abbreviation raw_record := (gmap string value).

(** [d.get(k)] *)
Definition get (d : raw_record) (k : string) : value := default VNone (d !! k).

(** [d.setdefault(k, v)] *)
Definition setdefault (k : string) (v : value) (d : raw_record) : raw_record :=
  match d !! k with
  | Some _ => d
  | None => <[k := v]> d
  end.

(** ** Exceptions *)
Inductive exn :=
| TypeError
| KeyError
| ValueError
| AssertionError
| ValidationError
| ModuleNotFoundError
| PyMongoError.

Inductive result (A : Type) :=
| Ok (a : A)
| Raise (e : exn).
Arguments Ok {A} a.
Arguments Raise {A} e.

End Py.

Import Py.

(* ===================================================================== *)
(** * [src/crawler/utils/text.py] *)
(* ===================================================================== *)

Module Text.

Section Hash.
(** [hashlib.sha256(b).hexdigest()] *)
Variable sha256_hexdigest : list N → str.

(** [part or ""]: a part is a string or [None]. *)
Definition part_or_empty (part : option str) : str := default [] part.

Definition mkhash (parts : list (option str)) : str :=
  let joined := join (pystr "|") (map part_or_empty parts) in
  let digest := sha256_hexdigest (utf8_encode joined) in
  digest.

(** [s.split("|")]: the reading back of the parts of a joined string. *)
Fixpoint split_bar (s : str) : list str :=
  match s with
  | [] => [[]]
  | c :: s =>
    if (c =? 124)%N then [] :: split_bar s
    else
      match split_bar s with
      | part :: parts => (c :: part) :: parts
      | [] => [[c]]
      end
  end.

Lemma split_bar_app (part rest : str) :
  (124%N : char) ∉ part →
  split_bar (part ++ pystr "|" ++ rest) = part :: split_bar rest.
Proof.
  induction part as [|c part IH]; intros Hfree; [done|].
  apply not_elem_of_cons in Hfree as [Hc Hfree].
  cbn [app split_bar]. rewrite (proj2 (N.eqb_neq c 124)) by done.
  by rewrite IH.
Qed.

Lemma split_bar_free (part : str) :
  (124%N : char) ∉ part → split_bar part = [part].
Proof.
  induction part as [|c part IH]; intros Hfree; [done|].
  apply not_elem_of_cons in Hfree as [Hc Hfree].
  cbn [split_bar]. rewrite (proj2 (N.eqb_neq c 124)) by done.
  by rewrite IH.
Qed.

(** Joining and splitting: parts without the separator are read back. *)
Lemma split_bar_join (parts : list str) :
  parts ≠ [] →
  Forall (λ part, (124%N : char) ∉ part) parts →
  split_bar (join (pystr "|") parts) = parts.
Proof.
  induction parts as [|part parts IH]; [done|]. intros _ Hfree.
  apply Forall_cons in Hfree as [Hpart Hfree].
  destruct parts as [|part' parts]; [by apply split_bar_free|].
  change (join (pystr "|") (part :: part' :: parts))
    with (part ++ pystr "|" ++ join (pystr "|") (part' :: parts)).
  rewrite split_bar_app by done. by rewrite IH.
Qed.

Lemma join_merge (sep p q : str) (rest : list str) :
  join sep (p :: q :: rest) = join sep ((p ++ sep ++ q) :: rest).
Proof.
  destruct rest as [|r rest]; [done|].
  cbn [join]. by rewrite <- !app_assoc.
Qed.

(** C8.  What is digested is the parts joined with the separator "|", a
    missing part counting as the empty string: parts without the
    separator can be read back from the digested string by splitting it
    at "|".  The digest of the two parts (a, b) is therefore the digest of
    the single part a + "|" + b, and more generally two adjacent parts can
    be merged into one around a "|": the hash is not injective over part
    lists, for the lists differ. *)
Theorem mkhash_separator_collision (a b : str) :
  mkhash [Some a; Some b] = mkhash [Some (a ++ pystr "|" ++ b)]
  ∧ [Some a; Some b] ≠ [Some (a ++ pystr "|" ++ b)]
  ∧ (∀ parts, ∃ joined,
       mkhash parts = sha256_hexdigest (utf8_encode joined)
       ∧ (parts ≠ [] →
          Forall (λ part, (124%N : char) ∉ part_or_empty part) parts →
          split_bar joined = map part_or_empty parts)
       ∧ (parts = [] → joined = []))
  ∧ (∀ p q rest,
       mkhash (p :: q :: rest)
       = mkhash (Some (part_or_empty p ++ pystr "|" ++ part_or_empty q)
                   :: rest))
  ∧ (∀ parts,
       mkhash parts = mkhash (map (λ part, Some (part_or_empty part)) parts))
  ∧ mkhash [None; Some b] = mkhash [Some []; Some b]
  ∧ mkhash [Some a; None] = mkhash [Some a; Some []].
Proof.
  split; [reflexivity|]. split; [intros Heq; discriminate Heq|].
  split_and!; try reflexivity.
  - intros parts. exists (join (pystr "|") (map part_or_empty parts)).
    split; [reflexivity|]. split.
    + intros Hne Hfree. apply split_bar_join.
      * by destruct parts.
      * by apply Forall_fmap.
    + by intros ->.
  - intros p q rest. unfold mkhash. cbn [map]. by rewrite join_merge.
  - intros parts. unfold mkhash. do 3 f_equal.
    rewrite map_map. apply map_ext. by intros [part|].
Qed.

End Hash.

(** The digested bytes, seen through a digest that returns them. *)
Example mkhash_joined :
  mkhash (λ bytes, bytes) [Some (pystr "Davet"); None; Some (pystr "1938")]
  = pystr "Davet||1938".
Proof. vm_compute. reflexivity. Qed.

(** ** [year_from_text] *)

Section Year.
Context (U : unicode_db).

(** [YEAR_RE.match] at the head of [s]: "18", "19" or "20" and two
    decimal digits *)
Definition match_year (s : str) : option str :=
  match s with
  | a :: b :: c :: d :: _ =>
    if (((a =? 49) && (b =? 56)) || ((a =? 49) && (b =? 57))
        || ((a =? 50) && (b =? 48)))%N
       && ch_isdecimal U c && ch_isdecimal U d
    then Some [a; b; c; d]
    else None
  | _ => None
  end.

(** [YEAR_RE.search]: the match at the first position that has one *)
Fixpoint search_year (s : str) : option str :=
  match match_year s with
  | Some m => Some m
  | None =>
    match s with
    | [] => None
    | _ :: s' => search_year s'
    end
  end.

(** [int] on a string of decimal digits *)
Definition int_of_decimal (s : str) : N :=
  fold_left (λ acc c, (10 * acc + ch_decimal_value U c)%N) s 0%N.

Definition year_from_text (text : str) : option N :=
  match text with
  | [] => None
  | _ =>
    match search_year text with
    | Some m => Some (int_of_decimal m)
    | None => None
    end
  end.

Lemma search_year_Some s m :
  search_year s = Some m →
  ∃ before after,
    s = before ++ m ++ after
    ∧ match_year (m ++ after) = Some m
    ∧ ∀ i, i < length before → match_year (drop i s) = None.
Proof.
  induction s as [|c s IH].
  - cbn. done.
  - cbn [search_year].
    destruct (match_year (c :: s)) as [m'|] eqn:Hm.
    + intros [= ->]. exists [].
      assert (∃ after, c :: s = m ++ after) as [after Hafter].
      { unfold match_year in Hm.
        destruct s as [|b [|c' [|d s]]]; try done.
        destruct (_ && _); [|done]. injection Hm as <-. by exists s. }
      exists after. split; [done|]. rewrite <- Hafter. split; [done|].
      intros i Hi. cbn in Hi. lia.
    + intros Hs. destruct (IH Hs) as (before & after & -> & Hmatch & Hnone).
      exists (c :: before), after. split; [done|]. split; [done|].
      intros [|i] Hi; [done|]. cbn [drop]. apply Hnone. cbn in Hi. lia.
Qed.

Lemma search_year_None s :
  search_year s = None → ∀ i, match_year (drop i s) = None.
Proof.
  induction s as [|c s IH]; intros Hs i.
  - by destruct i.
  - cbn [search_year] in Hs.
    destruct (match_year (c :: s)) eqn:Hm; [done|].
    destruct i as [|i]; [done|]. cbn [drop]. by apply IH.
Qed.

Lemma decimal_value_bound (c : char) :
  (∀ c, u_decimal U c = true → (u_decimal_value U c ≤ 9)%N) →
  ch_isdecimal U c = true → (ch_decimal_value U c ≤ 9)%N.
Proof.
  intros Hdb. unfold ch_isdecimal, ch_decimal_value, between.
  destruct (is_ascii c); [|apply Hdb].
  intros [H1 H2]%andb_true_iff.
  apply N.leb_le in H1, H2. lia.
Qed.

(** X14.  [year_from_text] returns the number read from the leftmost
    place of the text where "18", "19" or "20" is followed by two decimal
    digits, wherever that place is: inside a word or a longer number as
    well.  The result, when there is one, lies between 1800 and 2099; there
    is none exactly when the text has no such place. *)
Theorem year_from_text_spec (text : str) :
  (∀ c, u_decimal U c = true → (u_decimal_value U c ≤ 9)%N) →
  match year_from_text text with
  | Some year =>
    (1800 ≤ year ≤ 2099)%N
    ∧ ∃ before m after,
        text = before ++ m ++ after
        ∧ length m = 4
        ∧ match_year (m ++ after) = Some m
        ∧ year = int_of_decimal m
        ∧ ∀ i, i < length before → match_year (drop i text) = None
  | None => ∀ i, match_year (drop i text) = None
  end.
Proof.
  intros Hdb. unfold year_from_text.
  destruct text as [|c0 text]; [by intros [|i]|].
  destruct (search_year (c0 :: text)) as [m|] eqn:Hs;
    [|by apply search_year_None].
  destruct (search_year_Some _ _ Hs) as (before & after & Heq & Hm & Hnone).
  assert (length m = 4 ∧ (1800 ≤ int_of_decimal m ≤ 2099)%N) as [Hlen Hrange].
  { unfold match_year in Hm.
    destruct (m ++ after) as [|a [|b [|c [|d s]]]]; try done.
    destruct (_ && _) eqn:Hcond; [|done]. injection Hm as <-.
    split; [done|].
    apply andb_true_iff in Hcond as [[Hab Hc]%andb_true_iff Hd].
    apply (decimal_value_bound _ Hdb) in Hc, Hd.
    unfold int_of_decimal. cbn [fold_left].
    assert (ch_decimal_value U a = 1 ∧ ch_decimal_value U b = 8
            ∨ ch_decimal_value U a = 1 ∧ ch_decimal_value U b = 9
            ∨ ch_decimal_value U a = 2 ∧ ch_decimal_value U b = 0)%N
      as Hprefix.
    { apply orb_true_iff in Hab as [[Hab|Hab]%orb_true_iff|Hab];
        apply andb_true_iff in Hab as [->%N.eqb_eq ->%N.eqb_eq];
        vm_compute; tauto. }
    lia. }
  split; [done|]. by exists before, m, after.
Qed.

End Year.

(** [test_year_from_text] of [tests/test_basic.py], and a year read from
    the middle of a number. *)
Example year_from_text_test :
  year_from_text corpus_db (pystr "Nazim Hikmet 1935'te yazdi") = Some 1935%N
  ∧ year_from_text corpus_db (pystr "Yil 2001, hatirliyorum") = Some 2001%N
  ∧ year_from_text corpus_db (pystr "Hic yil yok") = None
  ∧ year_from_text corpus_db (pystr "ISBN 9751419360") = Some 1936%N.
Proof. split_and!; vm_compute; reflexivity. Qed.

Lemma year_from_text_spec_witness :
  (∀ c, u_decimal corpus_db c = true → (u_decimal_value corpus_db c ≤ 9)%N)
  ∧ match year_from_text corpus_db (pystr "Kuvayi Milliye (1941)") with
    | Some year => (1800 ≤ year ≤ 2099)%N
    | None => False
    end.
Proof.
  assert (∀ c, u_decimal corpus_db c = true
               → (u_decimal_value corpus_db c ≤ 9)%N) as Hdb
    by (intros c Hc; discriminate Hc).
  split; [exact Hdb|].
  pose proof (year_from_text_spec corpus_db (pystr "Kuvayi Milliye (1941)") Hdb)
    as Hspec.
  destruct (year_from_text corpus_db (pystr "Kuvayi Milliye (1941)"))
    as [year|] eqn:Hy.
  - exact (proj1 Hspec).
  - vm_compute in Hy. discriminate Hy.
Defined.

(** ** [clean] *)

(** [s.replace(old, new)] for a pattern [old] of one character *)
Definition replace_char (old : char) (new : str) (s : str) : str :=
  flat_map (λ c, if (c =? old)%N then new else [c]) s.

(** The line boundaries of [str.splitlines]. *)
Definition is_linebreak (c : char) : bool :=
  mem c [10; 11; 12; 13; 28; 29; 30; 133; 8232; 8233]%N.

(** [s.splitlines()]: [line] holds the characters of the line being read;
    a carriage return and the line feed after it are one boundary. *)
Fixpoint splitlines_from (line : str) (s : str) : list str :=
  match s with
  | [] => match line with [] => [] | _ => [line] end
  | c :: s' =>
    if is_linebreak c then
      line ::
        match s' with
        | c' :: s'' =>
          if (c =? 13)%N && (c' =? 10)%N then splitlines_from [] s''
          else splitlines_from [] s'
        | [] => splitlines_from [] s'
        end
    else splitlines_from (line ++ [c]) s'
  end.

Definition splitlines (s : str) : list str := splitlines_from [] s.

(** The class [[ \t\r\f\v]]. *)
Definition is_blank (c : char) : bool := mem c [32; 9; 13; 12; 11]%N.

(** [re.sub(r"[ \t\r\f\v]+", " ", s)]: every run of blanks becomes one
    space; [in_run] says that the character before was a blank. *)
Fixpoint sub_blanks_from (in_run : bool) (s : str) : str :=
  match s with
  | [] => []
  | c :: s' =>
    if is_blank c then
      if in_run then sub_blanks_from true s'
      else 32%N :: sub_blanks_from true s'
    else c :: sub_blanks_from false s'
  end.

Definition sub_blanks (s : str) : str := sub_blanks_from false s.

Definition SIIR_ARSIVI_TOKENS : list str := [pystr "siir arsivi"].

Section Clean.
Context (U : unicode_db).

(** [unicodedata.normalize("NFC", s)], [unicodedata.normalize("NFKD", s)]
    and the test [unicodedata.category(c) == "Mn"], read from the Unicode
    character database. *)
Variable nfc : str → str.
Variable nfkd : str → str.
Variable is_Mn : char → bool.

Definition normalize_token (text : str) : str :=
  match text with
  | [] => []
  | _ =>
    let normalized := nfkd text in
    let stripped := List.filter (λ ch, negb (is_Mn ch)) normalized in
    lower U stripped
  end.

Definition clean (text : str) : str :=
  match text with
  | [] => []
  | _ =>
    let normalized := nfc text in
    let normalized :=
      replace_char 8203%N [] (replace_char 160%N [32%N] normalized) in
    let lines :=
      map (λ line, strip U (sub_blanks line)) (splitlines normalized) in
    let joined := join [10%N] lines in
    let cleaned := strip U joined in
    match cleaned with
    | [] => []
    | _ =>
      let token := normalize_token cleaned in
      if bool_decide (token ∈ SIIR_ARSIVI_TOKENS) then [] else cleaned
    end
  end.

(** ** Stripping *)

(** A string that neither starts nor ends with whitespace. *)
Definition trimmed (s : str) : Prop :=
  (∀ c, head s = Some c → isspace U c = false)
  ∧ (∀ c, last s = Some c → isspace U c = false).

Lemma lstrip_trimmed_head s c :
  head (lstrip U s) = Some c → isspace U c = false.
Proof.
  induction s as [|a s IH]; cbn [lstrip]; [done|].
  destruct (isspace U a) eqn:Ha; [done|]. by intros [= <-].
Qed.

Lemma lstrip_start s :
  (∀ c, head s = Some c → isspace U c = false) → lstrip U s = s.
Proof.
  destruct s as [|a s]; [done|]. intros Hh. cbn [lstrip].
  by rewrite (Hh a).
Qed.

Lemma lstrip_drop s : ∃ spaces, s = spaces ++ lstrip U s.
Proof.
  induction s as [|a s [spaces IH]]; [by exists []|].
  cbn [lstrip]. destruct (isspace U a).
  - exists (a :: spaces). cbn. by rewrite <- IH.
  - by exists [].
Qed.

Lemma rstrip_snoc s c :
  rstrip U (s ++ [c]) = if isspace U c then rstrip U s else s ++ [c].
Proof.
  unfold rstrip. rewrite reverse_app, reverse_singleton. cbn [app lstrip].
  destruct (isspace U c); [done|].
  by rewrite reverse_cons, reverse_involutive.
Qed.

Lemma rstrip_end s :
  (∀ c, last s = Some c → isspace U c = false) → rstrip U s = s.
Proof.
  destruct s as [|a s _] using rev_ind; [done|].
  intros Hl. rewrite rstrip_snoc. rewrite (Hl a); [done|].
  by rewrite last_snoc.
Qed.

Lemma rstrip_trimmed_last s c :
  last (rstrip U s) = Some c → isspace U c = false.
Proof.
  induction s as [|a s IH] using rev_ind; [done|].
  rewrite rstrip_snoc. destruct (isspace U a) eqn:Ha; [done|].
  rewrite last_snoc. by intros [= <-].
Qed.

Lemma rstrip_take s : ∃ spaces, s = rstrip U s ++ spaces.
Proof.
  induction s as [|a s [spaces IH]] using rev_ind; [by exists []|].
  rewrite rstrip_snoc. destruct (isspace U a).
  - exists (spaces ++ [a]). by rewrite app_assoc, <- IH.
  - exists []. by rewrite app_nil_r.
Qed.

Lemma strip_within s : ∃ before after, s = before ++ strip U s ++ after.
Proof.
  destruct (lstrip_drop s) as [before Hb].
  destruct (rstrip_take (lstrip U s)) as [after Ha].
  exists before, after. unfold strip. by rewrite <- Ha.
Qed.

Lemma strip_trimmed s : trimmed (strip U s).
Proof.
  unfold strip. split; [|apply rstrip_trimmed_last].
  intros c Hc. apply (lstrip_trimmed_head s).
  destruct (rstrip_take (lstrip U s)) as [spaces Heq].
  rewrite Heq. by destruct (rstrip U (lstrip U s)).
Qed.

Lemma trimmed_strip s : trimmed s → strip U s = s.
Proof.
  intros [Hh Hl]. unfold strip. rewrite (lstrip_start s Hh).
  by apply rstrip_end.
Qed.

(** ** What the stages of [clean] leave in a line *)

(** The characters no line of a cleaned text holds: the tab, the line
    boundaries, the no-break space and the zero-width space. *)
Definition unclean : list char :=
  [9; 10; 11; 12; 13; 28; 29; 30; 133; 160; 8203; 8232; 8233]%N.

Lemma replace_char_Forall (P : char → Prop) old new s :
  Forall P s → Forall P new → Forall P (replace_char old new s).
Proof.
  intros Hs Hnew. unfold replace_char.
  induction Hs as [|c s Hc Hs IH]; cbn [flat_map]; [constructor|].
  apply Forall_app. split; [|done].
  destruct (c =? old)%N; [done|by constructor].
Qed.

Lemma replace_char_gone old new s :
  Forall (λ c, c ≠ old) new → Forall (λ c, c ≠ old) (replace_char old new s).
Proof.
  intros Hnew. unfold replace_char.
  induction s as [|c s IH]; cbn [flat_map]; [constructor|].
  apply Forall_app. split; [|done].
  destruct (N.eqb_spec c old); [done|by constructor].
Qed.

Lemma splitlines_from_Forall (P : char → Prop) (s : str) : ∀ line,
  Forall P line → Forall (λ c, is_linebreak c = false) line → Forall P s →
  Forall (λ l, Forall P l ∧ Forall (λ c, is_linebreak c = false) l)
         (splitlines_from line s).
Proof.
  induction s as [s IH] using (induction_ltof1 _ (@length char)).
  unfold ltof in IH. intros line Hline Hlb Hs.
  destruct s as [|c s]; cbn [splitlines_from].
  - destruct line; [constructor|]. constructor; [done|constructor].
  - apply Forall_cons in Hs as [Hc Hs].
    destruct (is_linebreak c) eqn:Hbreak.
    + constructor; [done|].
      destruct s as [|c' s'].
      * apply IH; [cbn; lia|done..].
      * destruct ((c =? 13)%N && (c' =? 10)%N).
        -- apply IH; [cbn; lia|done|done|]. by apply Forall_cons in Hs as [_ ?].
        -- apply IH; [cbn; lia|done..].
    + apply IH; [cbn; lia| | |done].
      * apply Forall_app. by repeat constructor.
      * apply Forall_app. by repeat constructor.
Qed.

Lemma sub_blanks_from_Forall (P : char → Prop) (s : str) : ∀ in_run,
  P 32%N → Forall P s →
  Forall (λ c, P c ∧ (is_blank c = true → c = 32%N)) (sub_blanks_from in_run s).
Proof.
  intros in_run H32 Hs. revert in_run.
  induction Hs as [|c s Hc Hs IH]; intros in_run; cbn [sub_blanks_from];
    [constructor|].
  destruct (is_blank c) eqn:Hb.
  - destruct in_run; [apply IH|]. constructor; [done|apply IH].
  - constructor; [|apply IH]. split; [done|]. by rewrite Hb.
Qed.

Lemma sub_blanks_from_single (s : str) : ∀ in_run,
  contains [32; 32]%N (sub_blanks_from in_run s) = false
  ∧ (in_run = true → ∀ c, head (sub_blanks_from in_run s) = Some c → c ≠ 32%N).
Proof.
  induction s as [|c s IH]; intros in_run; cbn [sub_blanks_from].
  - split; [done|]. by intros _ c.
  - destruct (is_blank c) eqn:Hb.
    + destruct in_run.
      * apply IH.
      * split; [|done]. destruct (IH true) as [Hc Hh].
        cbn [contains starts_with]. rewrite Hc, orb_false_r.
        destruct (sub_blanks_from true s) as [|a t] eqn:Ht; [done|].
        cbn [starts_with]. rewrite andb_true_r.
        destruct (N.eqb_spec 32 a) as [<-|]; [|done].
        by destruct (Hh eq_refl 32%N).
    + destruct (IH false) as [Hc _]. split.
      * cbn [contains starts_with]. rewrite Hc, orb_false_r.
        destruct (N.eqb_spec 32 c) as [<-|]; [|done].
        by vm_compute in Hb.
      * intros _ a [= <-] ->. by vm_compute in Hb.
Qed.

Lemma starts_with_extend (p s t : str) :
  starts_with p s = true → starts_with p (s ++ t) = true.
Proof.
  revert s. induction p as [|a p IH]; intros s; [done|].
  destruct s as [|b s]; [done|]. cbn [starts_with app].
  intros [-> Hp]%andb_true_iff. by rewrite IH.
Qed.

Lemma contains_within (needle before s after : str) :
  contains needle (before ++ s ++ after) = false → contains needle s = false.
Proof.
  intros Hc.
  assert (contains needle (s ++ after) = false) as Hs.
  { clear -Hc. induction before as [|a before IH]; [done|].
    apply IH. cbn [app contains] in Hc. by apply orb_false_iff in Hc as [_ ?]. }
  clear Hc. induction s as [|a s IH].
  - cbn [app] in Hs. destruct needle; [|done].
    by destruct after.
  - cbn [app contains] in Hs. apply orb_false_iff in Hs as [Hst Hs].
    cbn [contains]. rewrite (IH Hs), orb_false_r.
    destruct (starts_with needle (a :: s)) eqn:Hsw; [|done].
    pose proof (starts_with_extend _ (a :: s) after Hsw) as Hext.
    cbn [app] in Hext. congruence.
Qed.

(** A line of a cleaned text. *)
Definition clean_line (line : str) : Prop :=
  strip U line = line
  ∧ Forall (λ c, c ∉ unclean) line
  ∧ contains (pystr "  ") line = false.

Lemma clean_line_trimmed line : clean_line line → trimmed line.
Proof. intros [<- _]. apply strip_trimmed. Qed.

Lemma lines_clean (s : str) :
  Forall (λ c, c ≠ 160%N ∧ c ≠ 8203%N) s →
  Forall clean_line (map (λ line, strip U (sub_blanks line)) (splitlines s)).
Proof.
  intros Hs. apply Forall_fmap.
  pose proof (splitlines_from_Forall _ s [] (Forall_nil_2 _) (Forall_nil_2 _) Hs)
    as Hlines.
  eapply Forall_impl; [exact Hlines|].
  intros line [Hline Hbreak]. cbn.
  pose proof (conj Hline Hbreak) as Hboth. rewrite <- Forall_and in Hboth.
  apply (sub_blanks_from_Forall _ line false) in Hboth;
    [|split; [split; done|by vm_compute]].
  destruct (strip_within (sub_blanks line)) as (before & after & Heq).
  split_and!.
  - apply trimmed_strip, strip_trimmed.
  - unfold sub_blanks in Heq. rewrite Heq in Hboth.
    apply Forall_app in Hboth as [_ [Hmid _]%Forall_app].
    eapply Forall_impl; [exact Hmid|]. cbn.
    intros c [[[H160 H8203] Hlb] Hblank] Hin.
    unfold unclean in Hin.
    repeat (apply elem_of_cons in Hin as [->|Hin]);
      try done; try (by vm_compute in Hlb);
      try (by apply elem_of_nil in Hin).
    by specialize (Hblank eq_refl).
  - apply (contains_within _ before _ after). rewrite <- Heq.
    apply (sub_blanks_from_single line false).
Qed.

(** ** Stripping the joined lines *)

Lemma join_cons (sep : str) (l : str) (ls : list str) :
  ls ≠ [] → join sep (l :: ls) = l ++ sep ++ join sep ls.
Proof. by destruct ls. Qed.

Lemma join_snoc (sep : str) (ls : list str) (l : str) :
  ls ≠ [] → join sep (ls ++ [l]) = join sep ls ++ sep ++ l.
Proof.
  induction ls as [|a ls IH]; [done|]. intros _.
  destruct ls as [|b ls]; [done|].
  change ((a :: b :: ls) ++ [l]) with (a :: ((b :: ls) ++ [l])).
  rewrite (join_cons sep a ((b :: ls) ++ [l])) by done.
  rewrite IH by done. rewrite (join_cons sep a (b :: ls)) by done.
  by rewrite <- !app_assoc.
Qed.

Lemma lstrip_join (ls : list str) :
  Forall trimmed ls →
  ∃ ls', ls' `suffix_of` ls
    ∧ lstrip U (join [10%N] ls) = join [10%N] ls'
    ∧ head ls' ≠ Some [].
Proof.
  induction 1 as [|l ls Hl Hls (ls' & Hsuf & Heq & Hhead)].
  - by exists [].
  - destruct l as [|c l].
    + destruct ls as [|l2 ls].
      * exists []. split; [by exists [[]]|done].
      * exists ls'. split; [by apply suffix_cons_r|]. split; [|done].
        rewrite join_cons by done. cbn [app lstrip].
        assert (isspace U 10%N = true) as -> by reflexivity. done.
    + exists ((c :: l) :: ls). split; [done|]. split; [|done].
      apply lstrip_start. intros a Ha. apply (proj1 Hl).
      by destruct ls.
Qed.

Lemma rstrip_join (ls : list str) :
  Forall trimmed ls →
  ∃ ls', ls' `prefix_of` ls
    ∧ rstrip U (join [10%N] ls) = join [10%N] ls'
    ∧ last ls' ≠ Some [].
Proof.
  induction ls as [|l ls IH] using rev_ind; intros Hall.
  - by exists [].
  - apply Forall_app in Hall as [Hls [Hl _]%Forall_cons].
    destruct (IH Hls) as (ls' & Hpre & Heq & Hlast).
    destruct l as [|c l] using rev_ind.
    + destruct ls as [|l2 ls _] using rev_ind.
      * exists []. split; [by exists [[]]|done].
      * exists ls'. split; [by apply prefix_app_r|]. split; [|done].
        rewrite join_snoc by (by destruct ls).
        rewrite app_nil_r, rstrip_snoc.
        assert (isspace U 10%N = true) as -> by reflexivity. done.
    + exists (ls ++ [l ++ [c]]). split; [done|]. split.
      * apply rstrip_end. intros a Ha. apply (proj2 Hl).
        destruct ls as [|l2 ls _] using rev_ind; [done|].
        rewrite join_snoc in Ha by (by destruct ls).
        rewrite !app_assoc, last_snoc in Ha. by rewrite last_snoc.
      * rewrite last_snoc. intros [= Hnil]. by destruct l.
Qed.

(** The lines of a cleaned text. *)
Lemma clean_lines (text : str) :
  ∃ lines,
    clean text = join [10%N] lines
    ∧ Forall clean_line lines
    ∧ head lines ≠ Some []
    ∧ last lines ≠ Some []
    ∧ strip U (clean text) = clean text
    ∧ (clean text ≠ [] → normalize_token (clean text) ∉ SIIR_ARSIVI_TOKENS).
Proof.
  assert (∃ lines : list str,
            [] = join [10%N] lines ∧ Forall clean_line lines
            ∧ head lines ≠ Some [] ∧ last lines ≠ Some []
            ∧ strip U [] = [] ∧ (@nil char ≠ [] →
                normalize_token [] ∉ SIIR_ARSIVI_TOKENS)) as Hnil.
  { exists []. split_and!; done. }
  unfold clean. destruct text as [|c0 text]; [exact Hnil|].
  set (normalized := replace_char 8203%N [] (replace_char 160%N [32%N] _)).
  set (lines := map _ (splitlines normalized)).
  assert (Forall clean_line lines) as Hlines.
  { apply lines_clean. apply Forall_and. split.
    - apply replace_char_Forall; [|constructor].
      apply replace_char_gone. by repeat constructor.
    - apply replace_char_gone. constructor. }
  assert (Forall trimmed lines) as Htrim
    by (eapply Forall_impl; [exact Hlines|apply clean_line_trimmed]).
  destruct (lstrip_join lines Htrim) as (ls1 & Hsuf & Heq1 & Hhead1).
  assert (Forall clean_line ls1) as Hls1.
  { destruct Hsuf as [k ->]. by apply Forall_app in Hlines as [_ ?]. }
  assert (Forall trimmed ls1) as Htrim1
    by (eapply Forall_impl; [exact Hls1|apply clean_line_trimmed]).
  destruct (rstrip_join ls1 Htrim1) as (ls2 & Hpre & Heq2 & Hlast2).
  assert (strip U (join [10%N] lines) = join [10%N] ls2) as Hstrip.
  { unfold strip. by rewrite Heq1, Heq2. }
  rewrite Hstrip.
  destruct (join [10%N] ls2) as [|c cleaned] eqn:Hjoin; [exact Hnil|].
  destruct (bool_decide (normalize_token (c :: cleaned) ∈ SIIR_ARSIVI_TOKENS))
    eqn:Htoken; [exact Hnil|].
  exists ls2. split_and!.
  - done.
  - destruct Hpre as [k ->]. by apply Forall_app in Hls1 as [? _].
  - destruct Hpre as [k ->]. destruct ls2; [done|]. exact Hhead1.
  - done.
  - rewrite <- Hstrip. apply trimmed_strip, strip_trimmed.
  - intros _. by apply bool_decide_eq_false in Htoken.
Qed.

(** X15.  A cleaned text is made of lines joined by line feeds; no line
    starts or ends with whitespace, holds a tab, a line boundary, a
    no-break space or a zero-width space, or has two spaces in a row; the
    first and the last line are not empty.  The text as a whole is
    stripped, and it is not the name of the archive site. *)
Theorem clean_normal_form (text : str) :
  ∃ lines,
    clean text = join [10%N] lines
    ∧ Forall clean_line lines
    ∧ head lines ≠ Some []
    ∧ last lines ≠ Some []
    ∧ strip U (clean text) = clean text
    ∧ (clean text ≠ [] → normalize_token (clean text) ∉ SIIR_ARSIVI_TOKENS).
Proof. apply clean_lines. Qed.

End Clean.

(** On ASCII text the normal forms are the text itself and no character
    is a combining mark. *)
Example clean_ascii :
  clean corpus_db id id (λ _, false)
    (pystr "  Kiz " ++ [9%N] ++ pystr " Cocugu " ++ [13; 10; 13; 10]%N
     ++ [160%N] ++ pystr " Hiroshima  ")
  = pystr "Kiz Cocugu" ++ [10; 10]%N ++ pystr "Hiroshima"
  ∧ clean corpus_db id id (λ _, false) (pystr " Siir Arsivi ") = []
  ∧ clean corpus_db id id (λ _, false) (pystr "   ") = [].
Proof. split_and!; vm_compute; reflexivity. Qed.

End Text.

(* ===================================================================== *)
(** * [src/etl/steps/dedup.py] *)
(* ===================================================================== *)

Module Dedup.

(** The loop of [dedupe_records] carries the set [seen] and the list
    [unique]; one iteration is [dedupe_step]. *)
Definition dedupe_step (st : gset hkey * list raw_record) (record : raw_record)
  : gset hkey * list raw_record :=
  let '(seen, unique) := st in
  let record_hash := get record "hash" in
  if negb (truthy record_hash) then (seen, unique ++ [record])
  else if bool_decide (key_of record_hash ∈ seen) then (seen, unique)
  else ({[key_of record_hash]} ∪ seen, unique ++ [record]).

Definition dedupe_records (records : list raw_record) : list raw_record :=
  snd (fold_left dedupe_step records (∅, [])).

(** A record carries a hash when its "hash" field is truthy. *)
Definition has_hash (r : raw_record) : bool := truthy (get r "hash").

(** The hash values of the records of a batch that carry one. *)
Definition hashes (rs : list raw_record) : list value :=
  (λ r, get r "hash") <$> filter (λ r, has_hash r = true) rs.

(** What the loop appends to [unique], as a function of [seen]. *)
Fixpoint kept (seen : gset hkey) (rs : list raw_record) : list raw_record :=
  match rs with
  | [] => []
  | r :: rs' =>
    if negb (has_hash r) then r :: kept seen rs'
    else if bool_decide (key_of (get r "hash") ∈ seen) then kept seen rs'
    else r :: kept ({[key_of (get r "hash")]} ∪ seen) rs'
  end.

Lemma fold_dedupe_step rs : ∀ seen unique,
  snd (fold_left dedupe_step rs (seen, unique)) = unique ++ kept seen rs.
Proof.
  induction rs as [|r rs IH]; intros seen unique; simpl.
  - by rewrite app_nil_r.
  - unfold has_hash.
    destruct (truthy (get r "hash")); simpl.
    + case_bool_decide; rewrite IH; [done|]. by rewrite <- app_assoc.
    + rewrite IH. by rewrite <- app_assoc.
Qed.

Lemma dedupe_records_kept rs : dedupe_records rs = kept ∅ rs.
Proof. unfold dedupe_records. by rewrite fold_dedupe_step. Qed.

Lemma kept_sublist rs : ∀ seen, kept seen rs `sublist_of` rs.
Proof.
  induction rs as [|r rs IH]; intros seen; simpl; [constructor|].
  destruct (negb (has_hash r)); [by apply sublist_skip|].
  case_bool_decide; [by apply sublist_cons | by apply sublist_skip].
Qed.

Lemma kept_hashless rs : ∀ seen,
  filter (λ r, has_hash r = false) (kept seen rs)
  = filter (λ r, has_hash r = false) rs.
Proof.
  induction rs as [|r rs IH]; intros seen; simpl; [done|].
  destruct (has_hash r) eqn:Hh; simpl.
  - rewrite (filter_cons_False _ r rs) by (rewrite Hh; discriminate).
    case_bool_decide; [apply IH|].
    rewrite filter_cons_False by (rewrite Hh; discriminate). apply IH.
  - rewrite !filter_cons_True by done. by rewrite IH.
Qed.

Definition keys (rs : list raw_record) : list hkey := key_of <$> hashes rs.

Lemma kept_keys_fresh rs : ∀ seen k, k ∈ keys (kept seen rs) → k ∉ seen.
Proof.
  induction rs as [|r rs IH]; intros seen k; unfold keys, hashes; simpl.
  - by intros ?%elem_of_nil.
  - destruct (has_hash r) eqn:Hh; simpl.
    + case_bool_decide as Hin; [apply IH|].
      rewrite filter_cons_True by done. rewrite !fmap_cons.
      intros [->|Hk]%elem_of_cons; [done|].
      apply IH in Hk. set_solver.
    + rewrite filter_cons_False by (rewrite Hh; discriminate). apply IH.
Qed.

Lemma kept_keys_NoDup rs : ∀ seen, NoDup (keys (kept seen rs)).
Proof.
  induction rs as [|r rs IH]; intros seen; unfold keys, hashes; simpl.
  - constructor.
  - destruct (has_hash r) eqn:Hh; simpl.
    + case_bool_decide as Hin; [apply IH|].
      rewrite filter_cons_True by done. rewrite !fmap_cons.
      constructor; [|apply IH].
      intros Hk%kept_keys_fresh. set_solver.
    + rewrite filter_cons_False by (rewrite Hh; discriminate). apply IH.
Qed.

Lemma kept_keys_complete rs : ∀ seen k,
  k ∈ keys rs → k ∉ seen → k ∈ keys (kept seen rs).
Proof.
  induction rs as [|r rs IH]; intros seen k; unfold keys, hashes; simpl.
  - by intros ?%elem_of_nil.
  - destruct (has_hash r) eqn:Hh; simpl.
    + rewrite filter_cons_True by done. rewrite !fmap_cons.
      intros Hk Hseen. case_bool_decide as Hin.
      * apply elem_of_cons in Hk as [->|Hk]; [done|]. by apply IH.
      * rewrite filter_cons_True by done. rewrite !fmap_cons.
        destruct (decide (k = key_of (get r "hash"))) as [->|Hne];
          [by left|right].
        apply elem_of_cons in Hk as [->|Hk]; [done|].
        apply IH; [done|].
        rewrite not_elem_of_union, not_elem_of_singleton. done.
    + rewrite !filter_cons_False by (rewrite Hh; discriminate). apply IH.
Qed.

(** The set [seen] after the loop has read [rs]. *)
Lemma fold_dedupe_seen rs : ∀ seen unique k,
  k ∈ fst (fold_left dedupe_step rs (seen, unique)) ↔ k ∈ seen ∨ k ∈ keys rs.
Proof.
  induction rs as [|r rs IH]; intros seen unique k; unfold keys, hashes;
    cbn [fold_left].
  - rewrite filter_nil, !fmap_nil, elem_of_nil. tauto.
  - unfold dedupe_step at 2. fold (has_hash r).
    destruct (has_hash r) eqn:Hh; cbn [negb].
    + rewrite filter_cons_True by done. rewrite !fmap_cons, elem_of_cons.
      case_bool_decide as Hin; rewrite IH; unfold keys, hashes.
      * split; [tauto|]. intros [?|[->|?]]; tauto.
      * rewrite elem_of_union, elem_of_singleton. tauto.
    + rewrite filter_cons_False by (rewrite Hh; discriminate). apply IH.
Qed.

(** A record is dropped exactly when it carries a hash that an earlier
    record of the batch carries. *)
Lemma dedupe_records_snoc pre r :
  dedupe_records (pre ++ [r])
  = dedupe_records pre
    ++ (if has_hash r && bool_decide (key_of (get r "hash") ∈ keys pre)
        then [] else [r]).
Proof.
  unfold dedupe_records. rewrite fold_left_app. cbn [fold_left].
  pose proof (fold_dedupe_seen pre ∅ [] (key_of (get r "hash"))) as Hseen.
  destruct (fold_left dedupe_step pre (∅, [])) as [seen unique].
  cbn [fst snd] in *. unfold dedupe_step. fold (has_hash r).
  destruct (has_hash r); cbn [negb andb snd]; [|done].
  rewrite elem_of_empty in Hseen.
  do 2 case_bool_decide; cbn [snd]; try done; [|tauto..].
  by rewrite app_nil_r.
Qed.

(** C2.  For every batch, the output of the dedupe stage holds no two
    records carrying the same hash value and it is a subsequence of the
    input, so the input order is kept; a record is dropped exactly when an
    earlier record carries its hash, so the record kept for a hash is its
    first occurrence and every hash of the input is still there; and the
    records without a hash are all passed through, duplicates included. *)
Theorem dedupe_records_spec (records : list raw_record) :
  NoDup (hashes (dedupe_records records))
  ∧ dedupe_records records `sublist_of` records
  ∧ (∀ r, dedupe_records (records ++ [r])
          = dedupe_records records
            ++ (if has_hash r
                   && bool_decide (key_of (get r "hash") ∈ keys records)
                then [] else [r]))
  ∧ (∀ h, h ∈ hashes records →
          ∃ h', h' ∈ hashes (dedupe_records records) ∧ key_of h' = key_of h)
  ∧ filter (λ r, has_hash r = false) (dedupe_records records)
    = filter (λ r, has_hash r = false) records.
Proof.
  split_and!.
  - rewrite dedupe_records_kept.
    apply (NoDup_fmap_1 key_of), kept_keys_NoDup.
  - rewrite dedupe_records_kept. apply kept_sublist.
  - intros r. apply dedupe_records_snoc.
  - rewrite dedupe_records_kept. intros h Hh.
    assert (key_of h ∈ keys (kept ∅ records)) as Hk.
    { apply kept_keys_complete; [|apply not_elem_of_empty].
      unfold keys. by apply list_elem_of_fmap_2. }
    unfold keys in Hk. apply list_elem_of_fmap in Hk as (h' & Heq & Hin).
    eauto.
  - rewrite dedupe_records_kept. apply kept_hashless.
Qed.

(** ** Further properties of the stage *)

(** Running the stage on its own output changes nothing. *)
Lemma kept_kept rs : ∀ seen, kept seen (kept seen rs) = kept seen rs.
Proof.
  induction rs as [|r rs IH]; intros seen; simpl; [done|].
  destruct (has_hash r) eqn:Hh; simpl.
  - case_bool_decide as Hin; [apply IH|].
    simpl. rewrite Hh. simpl. rewrite bool_decide_eq_false_2 by done.
    f_equal. apply IH.
  - rewrite Hh. simpl. f_equal. apply IH.
Qed.

Lemma sublist_same_length {A} (l1 l2 : list A) :
  l1 `sublist_of` l2 → length l1 = length l2 → l1 = l2.
Proof.
  induction 1 as [|x l1 l2 Hsub IH|x l1 l2 Hsub IH]; simpl; intros Hlen.
  - done.
  - f_equal. apply IH. lia.
  - apply sublist_length in Hsub. lia.
Qed.

(** X1.  The dedupe stage is idempotent: deduplicating a deduplicated
    batch returns it as it is. *)
Theorem dedupe_records_idempotent (records : list raw_record) :
  dedupe_records (dedupe_records records) = dedupe_records records.
Proof. rewrite !dedupe_records_kept. apply kept_kept. Qed.

Lemma kept_fresh rs : ∀ seen,
  NoDup (keys rs) → (∀ k, k ∈ keys rs → k ∉ seen) → kept seen rs = rs.
Proof.
  induction rs as [|r rs IH]; intros seen Hnd Hfresh; simpl; [done|].
  unfold keys, hashes in Hnd, Hfresh.
  destruct (has_hash r) eqn:Hh; simpl.
  - rewrite filter_cons_True in Hnd, Hfresh by done.
    rewrite !fmap_cons in Hnd, Hfresh.
    apply NoDup_cons in Hnd as [Hnotin Hnd].
    rewrite bool_decide_eq_false_2 by (apply Hfresh; by left).
    f_equal. apply IH; [done|].
    intros k Hk. rewrite not_elem_of_union, not_elem_of_singleton. split.
    + intros ->. by apply Hnotin.
    + apply Hfresh. by right.
  - rewrite filter_cons_False in Hnd, Hfresh by (rewrite Hh; discriminate).
    f_equal. by apply IH.
Qed.

(** X2.  A batch is returned unchanged exactly when no two of its records
    carry the same hash; otherwise the output is strictly shorter. *)
Theorem dedupe_records_fixed_point (records : list raw_record) :
  (dedupe_records records = records ↔ NoDup (keys records))
  ∧ length (dedupe_records records) ≤ length records
  ∧ (¬ NoDup (keys records) →
     length (dedupe_records records) < length records).
Proof.
  assert (dedupe_records records = records ↔ NoDup (keys records)) as Hiff.
  { split.
    - intros Heq. rewrite <- Heq, dedupe_records_kept. apply kept_keys_NoDup.
    - intros Hnd. rewrite dedupe_records_kept. apply kept_fresh; [done|].
      intros k _. apply not_elem_of_empty. }
  pose proof (sublist_length _ _ (kept_sublist records ∅)) as Hlen.
  rewrite <- dedupe_records_kept in Hlen.
  split; [done|]. split; [done|].
  intros Hdup.
  destruct (decide (length (dedupe_records records) = length records))
    as [Heq|Hne]; [|lia].
  exfalso. apply Hdup, Hiff.
  apply sublist_same_length; [|done].
  rewrite dedupe_records_kept. apply kept_sublist.
Qed.

End Dedup.

(* ===================================================================== *)
(** * [src/crawler/base.py] *)
(* ===================================================================== *)

Module Base.

(** ** Dict objects

    [_finalize_payload] and [_apply_safe_mode] receive a dict, copy it and
    assign to the fields of the copy.  Dicts are therefore objects of a
    heap, addressed by references, and the methods run in a state and
    exception monad over that heap.  The references a program holds always
    denote an object of the heap. *)
Definition ref := nat.
Abbreviation heap := (gmap ref raw_record).

Definition M (A : Type) : Type := heap → result (A * heap).

#[global] Instance M_ret : MRet M := λ A a h, Ok (a, h).
#[global] Instance M_bind : MBind M := λ A B f m h,
  match m h with
  | Ok (a, h') => f a h'
  | Raise e => Raise e
  end.

Definition raise {A} (e : exn) : M A := λ _, Raise e.

(** [dict(d)]: a new object with the items of [d] *)
Definition dict_copy (d : ref) : M ref := λ h,
  let item := fresh (dom h) in
  Ok (item, <[item := default ∅ (h !! d)]> h).

(** [d.get(k)] *)
Definition dict_get (d : ref) (k : string) : M value := λ h,
  Ok (get (default ∅ (h !! d)) k, h).

(** [d[k] = v] *)
Definition dict_set (d : ref) (k : string) (v : value) : M unit := λ h,
  Ok (tt, alter (insert k v) d h).

(** [d.setdefault(k, v)] *)
Definition dict_setdefault (d : ref) (k : string) (v : value) : M unit := λ h,
  Ok (tt, alter (setdefault k v) d h).

(** [v[:n]]: defined on strings; the other truthy scalars are not
    subscriptable. *)
Definition slice_to (n : nat) (v : value) : M value :=
  match v with
  | VStr s => mret (VStr (take n s))
  | _ => raise TypeError
  end.

(** The attributes of a crawler instance the finalization reads. *)
Record crawler := Crawler {
  kind : str;
  safe_mode : bool
}.

Definition _apply_safe_mode (self : crawler) (payload : ref) : M ref :=
  if negb (safe_mode self) then mret payload
  else
    item ← dict_copy payload;
    text_full ← dict_get item "text_full";
    if truthy text_full then
      excerpt ← slice_to 250 text_full;
      _ ← dict_set item "summary" excerpt;
      _ ← dict_set item "text_full" (VStr (pystr ""));
      mret item
    else mret item.

Definition _finalize_payload (self : crawler) (record : ref)
    (link user : str) : M ref :=
  payload ← dict_copy record;
  _ ← dict_setdefault payload "kind" (VStr (kind self));
  source_url ← dict_get payload "source_url";
  _ ← dict_setdefault payload "source_url" (por source_url (VStr link));
  _ ← (if truthy (VStr user)
       then dict_setdefault payload "source_name" (VStr user)
       else mret tt);
  _ ← dict_setdefault payload "safe_mode" (VBool (safe_mode self));
  _apply_safe_mode self payload.

(** The redaction as a function on the items of a dict. *)
Definition redacted (s : str) (d : raw_record) : raw_record :=
  <["text_full" := VStr []]> (<["summary" := VStr (take 250 s)]> d).

(** The defaults [_finalize_payload] fills in. *)
Definition with_defaults (self : crawler) (link user : str)
    (d : raw_record) : raw_record :=
  let d1 := setdefault "kind" (VStr (kind self)) d in
  let d2 := setdefault "source_url" (por (get d1 "source_url") (VStr link)) d1 in
  let d3 := if truthy (VStr user)
            then setdefault "source_name" (VStr user) d2 else d2 in
  setdefault "safe_mode" (VBool (safe_mode self)) d3.

(** ** Runs of the two methods *)

Lemma fresh_lookup (h : heap) : h !! fresh (dom h) = None.
Proof. apply not_elem_of_dom, is_fresh. Qed.

Lemma alter_fresh (h : heap) (d : raw_record) (f : raw_record → raw_record) :
  alter f (fresh (dom h)) (<[fresh (dom h) := d]> h)
  = <[fresh (dom h) := f d]> h.
Proof. by rewrite alter_insert_eq. Qed.

Lemma apply_safe_mode_off self payload h :
  safe_mode self = false → _apply_safe_mode self payload h = Ok (payload, h).
Proof. intros Hs. unfold _apply_safe_mode. by rewrite Hs. Qed.

Lemma apply_safe_mode_redacts self payload h d s :
  safe_mode self = true →
  h !! payload = Some d →
  d !! "text_full" = Some (VStr s) →
  s ≠ [] →
  _apply_safe_mode self payload h
  = Ok (fresh (dom h), <[fresh (dom h) := redacted s d]> h).
Proof.
  intros Hs Hd Ht Hne. unfold _apply_safe_mode. rewrite Hs. simpl.
  unfold mbind, M_bind, dict_copy, dict_get. rewrite Hd. simpl.
  rewrite lookup_insert_eq. simpl. unfold get. rewrite Ht. simpl.
  destruct s as [|c s]; [done|]. simpl.
  unfold mret, M_ret, dict_set.
  rewrite !alter_fresh. reflexivity.
Qed.

Lemma apply_safe_mode_keeps self payload h d :
  safe_mode self = true →
  h !! payload = Some d →
  truthy (get d "text_full") = false →
  _apply_safe_mode self payload h
  = Ok (fresh (dom h), <[fresh (dom h) := d]> h).
Proof.
  intros Hs Hd Ht. unfold _apply_safe_mode. rewrite Hs. simpl.
  unfold mbind, M_bind, dict_copy, dict_get. rewrite Hd. simpl.
  rewrite lookup_insert_eq. simpl. by rewrite Ht.
Qed.

Lemma finalize_payload_run self record link user h d :
  h !! record = Some d →
  _finalize_payload self record link user h
  = _apply_safe_mode self (fresh (dom h))
      (<[fresh (dom h) := with_defaults self link user d]> h).
Proof.
  intros Hd. unfold _finalize_payload.
  unfold mbind, M_bind, dict_copy, dict_get, dict_setdefault.
  rewrite Hd. simpl. rewrite alter_fresh, lookup_insert_eq. simpl.
  rewrite alter_insert_eq.
  unfold with_defaults.
  destruct user as [|c user]; simpl;
    rewrite ?alter_insert_eq; reflexivity.
Qed.

Lemma setdefault_lookup_ne k k' v (d : raw_record) :
  k ≠ k' → setdefault k v d !! k' = d !! k'.
Proof.
  intros Hne. unfold setdefault.
  destruct (d !! k); [done|]. by rewrite lookup_insert_ne.
Qed.

Lemma with_defaults_text_full self link user d :
  with_defaults self link user d !! "text_full" = d !! "text_full".
Proof.
  unfold with_defaults.
  destruct (truthy (VStr user)); rewrite !setdefault_lookup_ne by done; done.
Qed.


(** C10.  Under safe mode, for a record with a non-empty [text_full], the
    summary of the result is the excerpt of 250 characters whatever summary
    the record carried, the fields other than [summary] and [text_full] are
    those of the record, and the result is a new dict: the dict passed in,
    like every other object of the heap, is as it was. *)
Theorem safe_mode_copy_frame (self : crawler) (h : heap) (payload : ref)
    (d : raw_record) (s : str) :
  safe_mode self = true →
  h !! payload = Some d →
  d !! "text_full" = Some (VStr s) →
  s ≠ [] →
  ∃ item h' out,
    _apply_safe_mode self payload h = Ok (item, h')
    ∧ h' !! item = Some out
    ∧ out !! "summary" = Some (VStr (take 250 s))
    ∧ (∀ k, k ≠ "summary" → k ≠ "text_full" → out !! k = d !! k)
    ∧ item ≠ payload
    ∧ h !! item = None
    ∧ h' !! payload = Some d
    ∧ (∀ l, l ≠ item → h' !! l = h !! l).
Proof.
  intros Hs Hd Ht Hne.
  exists (fresh (dom h)), (<[fresh (dom h) := redacted s d]> h), (redacted s d).
  assert (fresh (dom h) ≠ payload) as Hfresh.
  { intros Heq. pose proof (fresh_lookup h) as Hf. rewrite Heq, Hd in Hf. done. }
  split; [by apply apply_safe_mode_redacts|].
  split; [by rewrite lookup_insert_eq|].
  split.
  { unfold redacted. rewrite lookup_insert_ne by done. by rewrite lookup_insert_eq. }
  split.
  { intros k Hk1 Hk2. unfold redacted. by rewrite !lookup_insert_ne. }
  split; [done|].
  split; [apply fresh_lookup|].
  split; [by rewrite lookup_insert_ne|].
  intros l Hl. by rewrite lookup_insert_ne.
Qed.

(** A record of a news crawler with a summary of its own. *)
Definition sample_payload : raw_record :=
  {[ "title" := VStr (pystr "Haber");
     "summary" := VStr (pystr "eski");
     "text_full" := VStr (pystr "Memleketimden insan manzaralari") ]}.

Definition sample_heap : heap := {[ 0 := sample_payload ]}.


Lemma safe_mode_copy_frame_witness :
  let self := Crawler (pystr "news") true in
  safe_mode self = true
  ∧ sample_heap !! 0 = Some sample_payload
  ∧ ∃ item h' out,
      _apply_safe_mode self 0 sample_heap = Ok (item, h')
      ∧ h' !! item = Some out
      ∧ out !! "summary"
        = Some (VStr (take 250 (pystr "Memleketimden insan manzaralari")))
      ∧ (∀ k, k ≠ "summary" → k ≠ "text_full" → out !! k = sample_payload !! k)
      ∧ item ≠ 0
      ∧ sample_heap !! item = None
      ∧ h' !! 0 = Some sample_payload
      ∧ (∀ l, l ≠ item → h' !! l = sample_heap !! l).
Proof.
  intros self. split; [reflexivity|]. split; [reflexivity|].
  apply (safe_mode_copy_frame self sample_heap 0 sample_payload
           (pystr "Memleketimden insan manzaralari"));
    [reflexivity|reflexivity|reflexivity|discriminate].
Defined.

(** ** Finalization: what the defaults leave alone *)

Lemma with_defaults_keeps self link user (d : raw_record) k v :
  d !! k = Some v → with_defaults self link user d !! k = Some v.
Proof.
  intros Hk. unfold with_defaults.
  assert (∀ k' v' (m : raw_record),
            m !! k = Some v → setdefault k' v' m !! k = Some v) as Hset.
  { intros k' v' m Hm. unfold setdefault.
    destruct (m !! k') eqn:Hk'; [done|].
    rewrite lookup_insert_ne; [done|]. intros ->. by rewrite Hk' in Hm. }
  destruct (truthy (VStr user)); repeat apply Hset; done.
Qed.

Lemma setdefault_lookup_eq k v (d : raw_record) :
  d !! k = None → setdefault k v d !! k = Some v.
Proof. intros Hk. unfold setdefault. rewrite Hk. by rewrite lookup_insert_eq. Qed.

Lemma with_defaults_other self link user (d : raw_record) k :
  k ≠ "kind" → k ≠ "source_url" → k ≠ "source_name" → k ≠ "safe_mode" →
  with_defaults self link user d !! k = d !! k.
Proof.
  intros H1 H2 H3 H4. unfold with_defaults.
  destruct (truthy (VStr user)); rewrite !setdefault_lookup_ne by done; done.
Qed.

Lemma with_defaults_fills self link user (d : raw_record) :
  (d !! "kind" = None →
   with_defaults self link user d !! "kind" = Some (VStr (kind self)))
  ∧ (d !! "source_url" = None →
     with_defaults self link user d !! "source_url" = Some (VStr link))
  ∧ (d !! "source_name" = None →
     with_defaults self link user d !! "source_name"
     = if truthy (VStr user) then Some (VStr user) else None)
  ∧ (d !! "safe_mode" = None →
     with_defaults self link user d !! "safe_mode"
     = Some (VBool (safe_mode self))).
Proof.
  unfold with_defaults. split_and!; intros Hk.
  - destruct (truthy (VStr user)); rewrite !setdefault_lookup_ne by done;
      by apply setdefault_lookup_eq.
  - assert (get (setdefault "kind" (VStr (kind self)) d) "source_url" = VNone)
      as ->.
    { unfold get. by rewrite setdefault_lookup_ne, Hk. }
    change (por VNone (VStr link)) with (VStr link).
    destruct (truthy (VStr user)); rewrite ?setdefault_lookup_ne by done;
      apply setdefault_lookup_eq; by rewrite setdefault_lookup_ne.
  - destruct (truthy (VStr user)); rewrite !setdefault_lookup_ne by done.
    + apply setdefault_lookup_eq. by rewrite !setdefault_lookup_ne.
    + done.
  - apply setdefault_lookup_eq.
    destruct (truthy (VStr user)); rewrite !setdefault_lookup_ne by done; done.
Qed.

(** The three ways a finalization ends. *)
Lemma finalize_payload_cases self record link user (h : heap) (d : raw_record) :
  h !! record = Some d →
  let out := with_defaults self link user d in
  let payload := fresh (dom h) in
  let h1 := <[payload := out]> h in
  let item := fresh (dom h1) in
  _finalize_payload self record link user h
  = if negb (safe_mode self) then Ok (payload, h1)
    else if truthy (get d "text_full") then
      match get d "text_full" with
      | VStr s => Ok (item, <[item := redacted s out]> h1)
      | _ => Raise TypeError
      end
    else Ok (item, <[item := out]> h1).
Proof.
  intros Hd out payload h1 item.
  rewrite (finalize_payload_run _ _ _ _ _ _ Hd). fold out payload h1.
  assert (h1 !! payload = Some out) as Hout by apply lookup_insert_eq.
  assert (get out "text_full" = get d "text_full") as Hget.
  { unfold get, out. by rewrite with_defaults_text_full. }
  destruct (safe_mode self) eqn:Hs; cbn [negb].
  - destruct (truthy (get d "text_full")) eqn:Ht.
    + destruct (get d "text_full") as [| |n|s] eqn:Hv; try done.
      * unfold _apply_safe_mode. rewrite Hs. cbn [negb].
        unfold mbind, M_bind, dict_copy, dict_get. rewrite Hout.
        cbn [default from_option id]. rewrite lookup_insert_eq.
        cbn [default from_option id]. rewrite Hget, Ht. reflexivity.
      * unfold _apply_safe_mode. rewrite Hs. cbn [negb].
        unfold mbind, M_bind, dict_copy, dict_get. rewrite Hout.
        cbn [default from_option id]. rewrite lookup_insert_eq.
        cbn [default from_option id]. rewrite Hget, Ht. reflexivity.
      * apply apply_safe_mode_redacts; [done|done| |].
        -- unfold get in Hget, Hv. unfold out.
           rewrite with_defaults_text_full.
           destruct (d !! "text_full") as [v|]; [|done]. cbn in Hv. by subst.
        -- by destruct s.
    + apply apply_safe_mode_keeps; [done|done|]. by rewrite Hget.
  - by apply apply_safe_mode_off.
Qed.

Lemma fresh_ne (h : heap) (l : ref) : is_Some (h !! l) → l ≠ fresh (dom h).
Proof.
  intros [x Hl] ->. by rewrite fresh_lookup in Hl.
Qed.

(** X7.  Finalization fills in [kind], [source_url], [source_name] and
    [safe_mode] only where the record has no such key: a field the record
    carries keeps its value, an empty [source_url] included, and no key
    other than these four, [summary] and [text_full] is added.  The result
    is a dict of its own; the record and every other dict are as they
    were. *)
Theorem finalize_payload_defaults (self : crawler) (record : ref)
    (link user : str) (h : heap) (d : raw_record) (item : ref) (h' : heap) :
  h !! record = Some d →
  _finalize_payload self record link user h = Ok (item, h') →
  ∃ out,
    h' !! item = Some out
    ∧ (∀ k v, d !! k = Some v → k ≠ "summary" → k ≠ "text_full" →
         out !! k = Some v)
    ∧ (d !! "kind" = None → out !! "kind" = Some (VStr (kind self)))
    ∧ (d !! "source_url" = None → out !! "source_url" = Some (VStr link))
    ∧ (d !! "source_name" = None →
       out !! "source_name" = match user with
                              | [] => None
                              | _ => Some (VStr user)
                              end)
    ∧ (d !! "safe_mode" = None →
       out !! "safe_mode" = Some (VBool (safe_mode self)))
    ∧ (∀ k, k ∉ ["kind"; "source_url"; "source_name"; "safe_mode";
                 "summary"; "text_full"] → out !! k = d !! k)
    ∧ (safe_mode self = false →
       out !! "summary" = d !! "summary"
       ∧ out !! "text_full" = d !! "text_full")
    ∧ item ≠ record
    ∧ h' !! record = Some d
    ∧ (∀ l, is_Some (h !! l) → h' !! l = h !! l).
Proof.
  intros Hd Hrun.
  pose proof (finalize_payload_cases self record link user h d Hd) as Hcases.
  cbn zeta in Hcases. rewrite Hrun in Hcases.
  set (wd := with_defaults self link user d) in *.
  set (payload := fresh (dom h)) in *.
  set (h1 := <[payload := wd]> h) in *.
  set (item1 := fresh (dom h1)) in *.
  assert (∀ l, is_Some (h !! l) → l ≠ payload) as Hp
    by (intros l Hl; by apply fresh_ne).
  assert (∀ l, is_Some (h !! l) → l ≠ item1) as Hi.
  { intros l Hl. apply fresh_ne. unfold h1.
    rewrite lookup_insert_ne; [done|]. intros <-. by apply (Hp payload). }
  assert (∀ out : raw_record,
            (∀ k, k ≠ "summary" → k ≠ "text_full" → out !! k = wd !! k) →
            (∀ k v, d !! k = Some v → k ≠ "summary" → k ≠ "text_full" →
               out !! k = Some v)
            ∧ (d !! "kind" = None → out !! "kind" = Some (VStr (kind self)))
            ∧ (d !! "source_url" = None →
               out !! "source_url" = Some (VStr link))
            ∧ (d !! "source_name" = None →
               out !! "source_name" = match user with
                                      | [] => None
                                      | _ => Some (VStr user)
                                      end)
            ∧ (d !! "safe_mode" = None →
               out !! "safe_mode" = Some (VBool (safe_mode self)))
            ∧ (∀ k, k ∉ ["kind"; "source_url"; "source_name"; "safe_mode";
                         "summary"; "text_full"] → out !! k = d !! k))
    as Hfields.
  { intros out Hout.
    destruct (with_defaults_fills self link user d) as (F1 & F2 & F3 & F4).
    split_and!.
    - intros k v Hk H1 H2. rewrite Hout by done.
      by apply with_defaults_keeps.
    - intros Hk. rewrite Hout by done. by apply F1.
    - intros Hk. rewrite Hout by done. by apply F2.
    - intros Hk. rewrite Hout by done. etrans; [exact (F3 Hk)|]. by destruct user.
    - intros Hk. rewrite Hout by done. by apply F4.
    - intros k Hk. rewrite !not_elem_of_cons in Hk.
      destruct Hk as (K1 & K2 & K3 & K4 & K5 & K6 & _).
      rewrite Hout by done. by apply with_defaults_other. }
  destruct (safe_mode self) eqn:Hs; cbn [negb] in Hcases.
  - destruct (truthy (get d "text_full")) eqn:Ht.
    + destruct (get d "text_full") as [| |n|s] eqn:Hv; try done.
      injection Hcases as -> ->.
      exists (redacted s wd).
      split; [by rewrite lookup_insert_eq|].
      destruct (Hfields (redacted s wd)) as (G1 & G2 & G3 & G4 & G5 & G6).
      { intros k H1 H2. unfold redacted. by rewrite !lookup_insert_ne. }
      split_and!; try done.
      * apply not_eq_sym, Hi. by rewrite Hd.
      * rewrite lookup_insert_ne by (apply not_eq_sym, Hi; by rewrite Hd).
        unfold h1.
        rewrite lookup_insert_ne by (apply not_eq_sym, Hp; by rewrite Hd).
        done.
      * intros l Hl. rewrite lookup_insert_ne by (apply not_eq_sym; by apply Hi).
        unfold h1. by rewrite lookup_insert_ne by (apply not_eq_sym; by apply Hp).
    + injection Hcases as -> ->.
      exists wd. split; [by rewrite lookup_insert_eq|].
      destruct (Hfields wd) as (G1 & G2 & G3 & G4 & G5 & G6); [done|].
      split_and!; try done.
      * apply not_eq_sym, Hi. by rewrite Hd.
      * rewrite lookup_insert_ne by (apply not_eq_sym, Hi; by rewrite Hd).
        unfold h1.
        rewrite lookup_insert_ne by (apply not_eq_sym, Hp; by rewrite Hd).
        done.
      * intros l Hl. rewrite lookup_insert_ne by (apply not_eq_sym; by apply Hi).
        unfold h1. by rewrite lookup_insert_ne by (apply not_eq_sym; by apply Hp).
  - injection Hcases as -> ->.
    exists wd. split; [apply lookup_insert_eq|].
    destruct (Hfields wd) as (G1 & G2 & G3 & G4 & G5 & G6); [done|].
    split_and!; try done.
    + intros _. unfold wd.
      rewrite !with_defaults_other by done. done.
    + apply not_eq_sym, Hp. by rewrite Hd.
    + unfold h1.
      rewrite lookup_insert_ne by (apply not_eq_sym, Hp; by rewrite Hd). done.
    + intros l Hl. unfold h1.
      by rewrite lookup_insert_ne by (apply not_eq_sym; by apply Hp).
Qed.

(** X8.  Finalization fails only under safe mode, on a record whose
    [text_full] is a number other than zero or [True]: such a value has no
    slice, and the error is a [TypeError].  Every other record, whatever
    its fields, is finalized. *)
Theorem finalize_payload_raises (self : crawler) (record : ref)
    (link user : str) (h : heap) (d : raw_record) :
  h !! record = Some d →
  ((∃ e, _finalize_payload self record link user h = Raise e)
   ↔ safe_mode self = true
     ∧ ((∃ n, d !! "text_full" = Some (VInt n) ∧ n ≠ 0%Z)
        ∨ d !! "text_full" = Some (VBool true)))
  ∧ (∀ e, _finalize_payload self record link user h = Raise e → e = TypeError).
Proof.
  intros Hd.
  rewrite (finalize_payload_cases self record link user h d Hd).
  cbn zeta. unfold get.
  destruct (safe_mode self); cbn [negb].
  - destruct (d !! "text_full") as [[|[]|n|[|c s]]|] eqn:Hv;
      cbn [default from_option id truthy]; try (split; [split|]; [by intros [e ?]|intros (_ & [(n' & ? & ?)|?]); done|done]).
    + split; [split|].
      * intros _. split; [done|]. by right.
      * intros _. by exists TypeError.
      * by intros e [= <-].
    + destruct (Z.eqb_spec n 0) as [->|Hn]; cbn [negb].
      * split; [split|]; [by intros [e ?]| |done].
        intros (_ & [(n' & [= <-] & ?)|?]); done.
      * split; [split|].
        -- intros _. split; [done|]. left. by exists n.
        -- intros _. by exists TypeError.
        -- by intros e [= <-].
  - split; [split|]; [by intros [e ?]|by intros [? _]|done].
Qed.

Lemma finalize_payload_defaults_witness :
  let self := Crawler (pystr "news") false in
  sample_heap !! 0 = Some sample_payload
  ∧ ∃ item h' out,
      _finalize_payload self 0 (pystr "https://example.org/a") (pystr "Site")
        sample_heap = Ok (item, h')
      ∧ h' !! item = Some out
      ∧ out !! "title" = Some (VStr (pystr "Haber"))
      ∧ out !! "kind" = Some (VStr (pystr "news"))
      ∧ out !! "source_url" = Some (VStr (pystr "https://example.org/a"))
      ∧ item ≠ 0
      ∧ h' !! 0 = Some sample_payload.
Proof.
  intros self. split; [reflexivity|].
  set (item := fresh (dom sample_heap)).
  set (h' := <[item := with_defaults self (pystr "https://example.org/a")
                         (pystr "Site") sample_payload]> sample_heap).
  assert (_finalize_payload self 0 (pystr "https://example.org/a")
            (pystr "Site") sample_heap = Ok (item, h')) as Hrun
    by exact (finalize_payload_cases self 0 _ _ sample_heap sample_payload
                eq_refl).
  destruct (finalize_payload_defaults self 0 _ _ sample_heap sample_payload
              item h' eq_refl Hrun)
    as (out & Hout & Hkeep & Hkind & Hurl & _ & _ & _ & _ & Hne & Hrec & _).
  exists item, h', out.
  split; [exact Hrun|]. split; [exact Hout|].
  split; [apply Hkeep; [reflexivity|discriminate|discriminate]|].
  split; [apply Hkind; reflexivity|].
  split; [apply Hurl; reflexivity|].
  split; [exact Hne|exact Hrec].
Defined.

Lemma finalize_payload_raises_witness :
  let self := Crawler (pystr "news") true in
  sample_heap !! 0 = Some sample_payload
  ∧ ∀ e, _finalize_payload self 0 (pystr "https://example.org/a")
           (pystr "Site") sample_heap = Raise e → e = TypeError.
Proof.
  intros self. split; [reflexivity|].
  exact (proj2 (finalize_payload_raises self 0 (pystr "https://example.org/a")
                  (pystr "Site") sample_heap sample_payload eq_refl)).
Defined.

(** ** [fetch]

    [http_get] is the network.  The model is told what each request of
    the process does, in the order in which the requests are made: the
    request returns the text of the page or raises an exception, which
    [fetch] catches.  The state counts the requests and records them and
    the waits between them.

    [backoff_base] and [backoff_factor] are 1.0 and 2.0 in every crawler
    of the repository, so the wait after the failure number [attempt] is
    the power of two [2 ** (attempt - 1)], in seconds: a float holds it
    exactly, and [time.sleep] takes it while it stays below [2 ** 34]. *)
Inductive event :=
| Request (url : str)
| Sleep (seconds : N).

Record net := Net { requests : nat; trace : list event }.

Inductive fetch_result (E : Type) :=
| Page (text : str)
| Failed (exc : E)
| RuntimeError.
Arguments Page {E} text.
Arguments Failed {E} exc.
Arguments RuntimeError {E}.

Section Fetch.
Context {E : Type}.
Variable http_get : nat → str → E + str.

(** The [while] loop, entered with [attempt < max_retries] as often as
    [turns] says; [fetch] starts it with [max_retries] turns, one for each
    value of [attempt] below [max_retries]. *)
Fixpoint fetch_loop (turns : nat) (max_retries attempt : Z) (url : str)
    (n : net) : fetch_result E * net :=
  match turns with
  | 0 => (RuntimeError, n)
  | S turns =>
    let n' := Net (S (requests n)) (trace n ++ [Request url]) in
    match http_get (requests n) url with
    | inr text => (Page text, n')
    | inl exc =>
      let attempt := (attempt + 1)%Z in
      let wait_time := (2 ^ Z.to_N (attempt - 1))%N in
      if (max_retries <=? attempt)%Z then (Failed exc, n')
      else
        fetch_loop turns max_retries attempt url
          (Net (requests n') (trace n' ++ [Sleep wait_time]))
    end
  end.

Definition fetch (max_retries : Z) (url : str) (n : net)
  : fetch_result E * net :=
  fetch_loop (Z.to_nat max_retries) max_retries 0 url n.

(** [k] failed requests, each followed by its wait. *)
Definition failures (url : str) (first k : nat) : list event :=
  flat_map (λ i, [Request url; Sleep (2 ^ N.of_nat i)%N]) (seq first k).

Lemma fetch_loop_run (k : nat) : ∀ (turns : nat) (max_retries : Z)
    (first : nat) (url : str) (n : net),
  (Z.of_nat first + Z.of_nat k < max_retries)%Z →
  k < turns →
  (∀ i, i < k → ∃ e, http_get (requests n + i) url = inl e) →
  fetch_loop turns max_retries (Z.of_nat first) url n
  = fetch_loop (turns - k) max_retries (Z.of_nat (first + k)) url
      (Net (requests n + k) (trace n ++ failures url first k)).
Proof.
  induction k as [|k IH]; intros turns max_retries first url n Hlt Hturns Hfail.
  - rewrite Nat.sub_0_r, !Nat.add_0_r. unfold failures. cbn [seq flat_map].
    rewrite app_nil_r. by destruct n.
  - destruct turns as [|turns]; [lia|].
    cbn [fetch_loop].
    destruct (Hfail 0 ltac:(lia)) as [e He]. rewrite Nat.add_0_r in He.
    rewrite He.
    destruct (Z.leb_spec max_retries (Z.of_nat first + 1)) as [Hle|_]; [lia|].
    replace (Z.of_nat first + 1)%Z with (Z.of_nat (S first)) by lia.
    cbn [requests trace].
    rewrite (IH turns max_retries (S first) url); cbn [requests trace].
    + replace (S first + k) with (first + S k) by lia.
      replace (S (requests n) + k) with (requests n + S k) by lia.
      replace (S turns - S k) with (turns - k) by lia.
      do 2 f_equal. unfold failures. cbn [seq flat_map].
      rewrite <- !app_assoc. cbn [app].
      replace (Z.to_N (Z.of_nat (S first) - 1)) with (N.of_nat first) by lia.
      done.
    + lia.
    + lia.
    + intros i Hi. destruct (Hfail (S i) ltac:(lia)) as [e' He'].
      exists e'. rewrite <- He'. f_equal. lia.
Qed.

(** X9.  [fetch] asks for the page at most [max_retries] times and
    returns the first page it gets.  Before the request number [i + 1] it
    waits [2 ** i] seconds; it does not wait after the last request, whose
    exception it raises when every request failed.  "Fetch retries
    exhausted" is raised only by a crawler whose [max_retries] is not
    positive, which makes no request at all. *)
Theorem fetch_retries (max_retries : Z) (url : str) (n : net) :
  (max_retries ≤ 34)%Z →
  (max_retries ≤ 0)%Z ∧ fetch max_retries url n = (RuntimeError, n)
  ∨ (0 < max_retries)%Z
    ∧ ∃ k, (Z.of_nat k < max_retries)%Z
      ∧ (∀ i, i < k → ∃ e, http_get (requests n + i) url = inl e)
      ∧ snd (fetch max_retries url n)
        = Net (requests n + S k)
              (trace n ++ failures url 0 k ++ [Request url])
      ∧ match http_get (requests n + k) url with
        | inr text => fst (fetch max_retries url n) = Page text
        | inl e =>
          Z.of_nat (S k) = max_retries
          ∧ fst (fetch max_retries url n) = Failed e
        end.
Proof.
  intros _.
  destruct (Z.leb_spec max_retries 0) as [Hle|Hpos].
  { left. split; [done|]. unfold fetch.
    replace (Z.to_nat max_retries) with 0 by lia. done. }
  right. split; [done|].
  (* the first request that succeeds, among the first [max_retries] *)
  assert (∀ m, (Z.of_nat m < max_retries)%Z →
            (∀ i, i ≤ m → ∃ e, http_get (requests n + i) url = inl e)
            ∨ ∃ k, k ≤ m
                ∧ (∀ i, i < k → ∃ e, http_get (requests n + i) url = inl e)
                ∧ ∃ text, http_get (requests n + k) url = inr text)
    as Hfirst.
  { induction m as [|m IH]; intros Hm.
    - destruct (http_get (requests n + 0) url) as [e|text] eqn:H0.
      + left. intros i Hi. replace i with 0 by lia. by exists e.
      + right. exists 0. split; [done|]. split; [lia|]. by exists text.
    - destruct IH as [Hall|(k & Hk & Hbefore & Hok)]; [lia| |].
      + destruct (http_get (requests n + S m) url) as [e|text] eqn:HS.
        * left. intros i Hi. destruct (decide (i = S m)) as [->|];
            [by exists e|apply Hall; lia].
        * right. exists (S m). split; [done|].
          split; [intros i Hi; apply Hall; lia|by exists text].
      + right. exists k. split; [lia|done]. }
  set (last := Z.to_nat max_retries - 1).
  assert (∀ k, k ≤ last →
            (∀ i, i < k → ∃ e, http_get (requests n + i) url = inl e) →
            fetch max_retries url n
            = fetch_loop (Z.to_nat max_retries - k) max_retries (Z.of_nat k)
                url (Net (requests n + k) (trace n ++ failures url 0 k)))
    as Hrun.
  { intros k Hk Hfail. unfold fetch.
    exact (fetch_loop_run k (Z.to_nat max_retries) max_retries 0 url n
             ltac:(lia) ltac:(lia) Hfail). }
  destruct (Hfirst last ltac:(lia)) as [Hall|(k & Hk & Hbefore & text & Hok)].
  - exists last. split; [lia|]. split; [intros i Hi; apply Hall; lia|].
    destruct (Hall last ltac:(lia)) as [e He]. rewrite He.
    rewrite (Hrun last) by (done || intros i Hi; apply Hall; lia).
    replace (Z.to_nat max_retries - last) with 1 by lia.
    cbn [fetch_loop requests trace]. rewrite He.
    destruct (Z.leb_spec max_retries (Z.of_nat last + 1)) as [_|Hlt]; [|lia].
    cbn [fst snd]. split_and!; [|lia|done].
    f_equal; [lia|by rewrite <- app_assoc].
  - exists k. split; [lia|]. split; [done|]. rewrite Hok.
    rewrite (Hrun k) by done.
    replace (Z.to_nat max_retries - k) with (S (Z.to_nat max_retries - S k))
      by lia.
    cbn [fetch_loop requests trace]. rewrite Hok. cbn [fst snd].
    split; [|done]. f_equal; [lia|by rewrite <- app_assoc].
Qed.

End Fetch.

(** A site that answers the third request. *)
Definition flaky (i : nat) (url : str) : nat + str :=
  if i <? 2 then inl 503 else inr (pystr "<html></html>").

Example fetch_flaky :
  fetch flaky 3 (pystr "https://example.org") (Net 0 [])
  = (Page (pystr "<html></html>"),
     Net 3 [Request (pystr "https://example.org"); Sleep 1;
            Request (pystr "https://example.org"); Sleep 2;
            Request (pystr "https://example.org")])
  ∧ fetch flaky 2 (pystr "https://example.org") (Net 0 [])
    = (Failed 503,
       Net 2 [Request (pystr "https://example.org"); Sleep 1;
              Request (pystr "https://example.org")]).
Proof. split; vm_compute; reflexivity. Qed.

Lemma fetch_retries_witness :
  let url := pystr "https://example.org" in
  let n := Net 0 [] in
  (3 ≤ 34)%Z
  ∧ ((3 ≤ 0)%Z ∧ fetch flaky 3 url n = (RuntimeError, n)
     ∨ (0 < 3)%Z
       ∧ ∃ k, (Z.of_nat k < 3)%Z
         ∧ (∀ i, i < k → ∃ e, flaky (requests n + i) url = inl e)
         ∧ snd (fetch flaky 3 url n)
           = Net (requests n + S k)
                 (trace n ++ failures url 0 k ++ [Request url])
         ∧ match flaky (requests n + k) url with
           | inr text => fst (fetch flaky 3 url n) = Page text
           | inl e =>
             Z.of_nat (S k) = 3%Z ∧ fst (fetch flaky 3 url n) = Failed e
           end).
Proof.
  intros url n. split; [lia|].
  apply (fetch_retries flaky 3 url n). lia.
Defined.

(** ** [links]

    A source configuration is read from YAML or built in code: its values
    are scalars and collections of scalars.  A set is given by its items
    in the order in which iterating over it yields them.  [str] of a
    collection shows the [repr] of its items, which the development keeps
    abstract. *)
Inductive config_value :=
| CVal (v : value)
| CList (items : list value)
| CTuple (items : list value)
| CSet (items : list value)
| CFrozenset (items : list value).

Abbreviation config := (gmap string config_value).

Definition ctruthy (v : config_value) : bool :=
  match v with
  | CVal v => truthy v
  | CList items | CTuple items | CSet items | CFrozenset items =>
    match items with [] => false | _ => true end
  end.

Definition cget (c : config) (k : string) : config_value :=
  default (CVal VNone) (c !! k).

Definition cor (a b : config_value) : config_value :=
  if ctruthy a then a else b.

(** [str(n)] on a natural number: the decimal digits *)
Fixpoint to_digits (fuel : nat) (n : N) : str :=
  match fuel with
  | 0 => []
  | S fuel =>
    if (n <? 10)%N then [(48 + n)%N]
    else to_digits fuel (n / 10) ++ [(48 + n mod 10)%N]
  end.

Definition str_of_int (n : Z) : str :=
  let digits := to_digits (S (N.to_nat (N.log2 (Z.abs_N n)))) (Z.abs_N n) in
  if (n <? 0)%Z then pystr "-" ++ digits else digits.

(** [str(v)] *)
Definition str_of (v : value) : str :=
  match v with
  | VNone => pystr "None"
  | VBool true => pystr "True"
  | VBool false => pystr "False"
  | VInt n => str_of_int n
  | VStr s => s
  end.

(** [isinstance(seeds, (list, tuple, set, frozenset))], with the items *)
Definition collection_items (v : config_value) : option (list value) :=
  match v with
  | CList items | CTuple items | CSet items | CFrozenset items => Some items
  | CVal _ => None
  end.

Section Links.
Variable repr : value → str.

Definition cstr_of (v : config_value) : str :=
  match v with
  | CVal v => str_of v
  | CList items => pystr "[" ++ join (pystr ", ") (map repr items) ++ pystr "]"
  | CTuple [item] => pystr "(" ++ repr item ++ pystr ",)"
  | CTuple items => pystr "(" ++ join (pystr ", ") (map repr items) ++ pystr ")"
  | CSet [] => pystr "set()"
  | CSet items => pystr "{" ++ join (pystr ", ") (map repr items) ++ pystr "}"
  | CFrozenset [] => pystr "frozenset()"
  | CFrozenset items =>
    pystr "frozenset({" ++ join (pystr ", ") (map repr items) ++ pystr "})"
  end.

Definition links (config : config) : list str :=
  let seeds := cget config "seeds" in
  let links :=
    match seeds with
    | CList seeds | CTuple seeds | CSet seeds | CFrozenset seeds =>
      map str_of (List.filter truthy seeds)
    | CVal _ => []
    end in
  match links with
  | _ :: _ => links
  | [] =>
    let fallback :=
      cor (cor (cget config "list_url") (cget config "url"))
          (cget config "base") in
    if ctruthy fallback then [cstr_of fallback] else []
  end.

(** The links [run_once] of [src/crawler/main.py] hands to the crawler it
    has created from [target]: those of [links], and when there are none
    the seeds and the URLs of [target] again. *)
Definition run_once_links (target : config) : list str :=
  let links := links target in
  match links with
  | _ :: _ => links
  | [] =>
    match cget target "seeds" with
    | CList seeds => map str_of (List.filter truthy seeds)
    | _ =>
      let fallback := cor (cget target "list_url") (cget target "url") in
      if ctruthy fallback then [cstr_of fallback] else []
    end
  end.

Lemma to_digits_nonempty fuel n : to_digits (S fuel) n ≠ [].
Proof.
  cbn [to_digits]. destruct (n <? 10)%N; [done|].
  by destruct (to_digits fuel (n / 10)).
Qed.

Lemma str_of_truthy v : truthy v = true → str_of v ≠ [].
Proof.
  destruct v as [|[]|n|s]; try done.
  - intros _. cbn [str_of]. unfold str_of_int.
    pose proof (to_digits_nonempty (N.to_nat (N.log2 (Z.abs_N n))) (Z.abs_N n)).
    destruct (n <? 0)%Z; [done|done].
  - by destruct s.
Qed.

Lemma cstr_of_truthy v : ctruthy v = true → cstr_of v ≠ [].
Proof.
  destruct v as [v|items|items|items|items];
    [apply str_of_truthy|done| | |].
  - by destruct items as [|item [|item' items]].
  - by destruct items.
  - by destruct items.
Qed.

Lemma cor_falsy a b :
  ctruthy (cor a b) = false ↔ ctruthy a = false ∧ ctruthy b = false.
Proof.
  unfold cor. destruct (ctruthy a) eqn:Ha; [|tauto].
  rewrite Ha. split; [done|]. by intros [? _].
Qed.

Lemma seeds_nonempty (seeds : list value) :
  Forall (λ l, l ≠ []) (map str_of (List.filter truthy seeds)).
Proof.
  apply Forall_forall. intros l Hl.
  apply list_elem_of_fmap in Hl as (v & -> & Hv).
  apply list_elem_of_In, filter_In in Hv as [_ Hv].
  by apply str_of_truthy.
Qed.

Lemma seeds_nil (seeds : list value) :
  map str_of (List.filter truthy seeds) = []
  ↔ Forall (λ seed, truthy seed = false) seeds.
Proof.
  induction seeds as [|seed seeds IH]; cbn [List.filter].
  - split; [constructor|done].
  - destruct (truthy seed) eqn:Hs.
    + split; [done|]. intros Hall. apply Forall_cons in Hall as [Hf _].
      by rewrite Hs in Hf.
    + rewrite IH. split; [by constructor|]. by intros [_ ?]%Forall_cons.
Qed.

(** [links] through the items of the seeds. *)
Lemma links_eq (config : config) :
  links config
  = match map str_of (List.filter truthy
                        (default [] (collection_items (cget config "seeds"))))
    with
    | [] =>
      let fallback :=
        cor (cor (cget config "list_url") (cget config "url"))
            (cget config "base") in
      if ctruthy fallback then [cstr_of fallback] else []
    | links => links
    end.
Proof.
  unfold links.
  destruct (cget config "seeds") as [v|seeds|seeds|seeds|seeds];
    cbn [collection_items default from_option id List.filter map];
    try done;
    by destruct (map str_of (List.filter truthy seeds)).
Qed.

(** When a crawler has no link. *)
Lemma links_nil (config : config) :
  links config = []
  ↔ (∀ seeds, collection_items (cget config "seeds") = Some seeds →
       Forall (λ seed, truthy seed = false) seeds)
    ∧ ctruthy (cget config "list_url") = false
    ∧ ctruthy (cget config "url") = false
    ∧ ctruthy (cget config "base") = false.
Proof.
  rewrite links_eq. cbv zeta.
  set (fallback := cor (cor (cget config "list_url") (cget config "url"))
                       (cget config "base")).
  assert ((if ctruthy fallback then [cstr_of fallback] else []) = []
          ↔ ctruthy (cget config "list_url") = false
            ∧ ctruthy (cget config "url") = false
            ∧ ctruthy (cget config "base") = false) as Hnil.
  { destruct (ctruthy fallback) eqn:Hf.
    - split; [done|]. intros (H1 & H2 & H3).
      assert (ctruthy fallback = false) as Hf'
        by (apply cor_falsy; split; [by apply cor_falsy|done]).
      congruence.
    - apply cor_falsy in Hf as [[H1 H2]%cor_falsy H3]. done. }
  destruct (collection_items (cget config "seeds")) as [seeds|];
    cbn [default from_option id].
  - rewrite <- Hnil.
    destruct (map str_of (List.filter truthy seeds)) eqn:Hs.
    + apply seeds_nil in Hs. split; [|tauto].
      intros Hf. split; [|done]. by intros ? [= <-].
    + split; [done|]. intros [Hall _].
      specialize (Hall seeds eq_refl). apply seeds_nil in Hall.
      by rewrite Hs in Hall.
  - cbn [List.filter map]. rewrite Hnil. split; [|tauto].
    intros H. split; [|done]. by intros seeds [=].
Qed.

(** X10.  No link of a crawler is the empty string.  A crawler has no link
    exactly when its [seeds] are no list, tuple, set or frozenset with an
    entry that counts as true and [list_url], [url] and [base] are all
    missing or empty; a seed that counts as true makes the three URLs
    irrelevant. *)
Theorem links_nonempty (config : config) :
  Forall (λ link, link ≠ []) (links config)
  ∧ (links config = []
     ↔ (∀ seeds, cget config "seeds" = CList seeds
                 ∨ cget config "seeds" = CTuple seeds
                 ∨ cget config "seeds" = CSet seeds
                 ∨ cget config "seeds" = CFrozenset seeds →
          Forall (λ seed, truthy seed = false) seeds)
       ∧ ctruthy (cget config "list_url") = false
       ∧ ctruthy (cget config "url") = false
       ∧ ctruthy (cget config "base") = false)
  ∧ (∀ seeds seed,
       cget config "seeds" = CList seeds
       ∨ cget config "seeds" = CTuple seeds
       ∨ cget config "seeds" = CSet seeds
       ∨ cget config "seeds" = CFrozenset seeds →
       seed ∈ seeds → truthy seed = true →
       links config = map str_of (List.filter truthy seeds)).
Proof.
  assert (∀ seeds,
            (cget config "seeds" = CList seeds
             ∨ cget config "seeds" = CTuple seeds
             ∨ cget config "seeds" = CSet seeds
             ∨ cget config "seeds" = CFrozenset seeds)
            ↔ collection_items (cget config "seeds") = Some seeds) as Hitems.
  { intros seeds.
    destruct (cget config "seeds") as [v|items|items|items|items];
      cbn [collection_items]; split;
      try (intros [H|[H|[H|H]]]; by inversion H);
      try (intros [= <-]; tauto); done. }
  split_and!.
  - rewrite links_eq. cbv zeta.
    pose proof (seeds_nonempty
                  (default [] (collection_items (cget config "seeds")))) as Hs.
    destruct (map str_of _); [|done].
    destruct (ctruthy _) eqn:Hf; [|constructor].
    constructor; [by apply cstr_of_truthy|constructor].
  - rewrite links_nil. split.
    + intros (Hall & H). split; [|done].
      intros seeds Hs. by apply Hall, Hitems.
    + intros (Hall & H). split; [|done].
      intros seeds Hs. by apply Hall, Hitems.
  - intros seeds seed Hs%Hitems Hin Ht. rewrite links_eq, Hs.
    cbn [default from_option id].
    destruct (map str_of (List.filter truthy seeds)) eqn:Hn; [|done].
    apply seeds_nil in Hn. rewrite Forall_forall in Hn.
    specialize (Hn seed Hin). congruence.
Qed.

(** X11.  The links [run_once] passes on are those of [links]: when the
    crawler has no link, the second look of [run_once] at the seeds and
    the URLs of the source finds none either, whatever the seeds are (a
    list, which [run_once] reads again, or a tuple, a set or a frozenset,
    which it does not). *)
Theorem run_once_links_fallback (target : config) :
  run_once_links target = links target.
Proof.
  unfold run_once_links.
  destruct (links target) as [|link rest] eqn:Hl; [|done].
  apply links_nil in Hl as (Hseeds & Hlist & Hurl & _).
  assert (ctruthy (cor (cget target "list_url") (cget target "url")) = false)
    as Hfb by by apply cor_falsy.
  destruct (cget target "seeds") as [v|seeds|seeds|seeds|seeds] eqn:Hs;
    rewrite ?Hfb; try done.
  by apply seeds_nil, Hseeds.
Qed.

(** A set of seeds is read by [links] and not by [run_once]. *)
Example links_set_seeds :
  let target : config := {[ "seeds" := CSet [VStr (pystr "s1")] ]} in
  links target = [pystr "s1"] ∧ run_once_links target = [pystr "s1"].
Proof. split; vm_compute; reflexivity. Qed.

End Links.

End Base.

(* ===================================================================== *)
(** * [src/crawler/dispatcher.py] *)
(* ===================================================================== *)

Module Dispatcher.

(** The crawler classes of [src/crawler/crawlers], and classes registered
    from elsewhere. *)
Inductive crawler_cls :=
| NewsCrawler
| PdfPoemsCrawler
| PoemPageCrawler
| WikiListCrawler
| BooksCrawler
| PlaysCrawler
| NovelsCrawler
| OtherCrawler (name : string).

Definition RegistryKey : Type := str * option str.

(** The module globals, and the modules the interpreter has loaded. *)
Record state := State {
  CRAWLER_REGISTRY : gmap RegistryKey crawler_cls;
  _DISCOVERY_DONE : bool;
  sys_modules : gset string
}.

Section Registry.
Context (U : unicode_db).

Definition _normalize_source (source_name : option str) : option str :=
  match source_name with
  | None => None
  | Some [] => None
  | Some source_name =>
    let normalized := lower U (strip U source_name) in
    match normalized with
    | [] => None
    | _ => Some normalized
    end
  end.

Definition register_crawler (kind : str) (crawler_cls : crawler_cls)
    (source_name : option str) (st : state) : state :=
  let key := (kind, _normalize_source source_name) in
  State (<[key := crawler_cls]> (CRAWLER_REGISTRY st))
        (_DISCOVERY_DONE st) (sys_modules st).

(** The [register_crawler] calls at the end of each module of
    [src/crawler/crawlers], run when the module is loaded. *)
Definition module_body (name : string) (st : state) : state :=
  if decide (name = "news") then
    register_crawler (pystr "news") NewsCrawler None st
  else if decide (name = "pdf_poems") then
    register_crawler (pystr "pdf_poems") PdfPoemsCrawler None st
  else if decide (name = "poem_pages") then
    register_crawler (pystr "poem_page") PoemPageCrawler None st
  else if decide (name = "wiki_lists") then
    register_crawler (pystr "novel") NovelsCrawler None
      (register_crawler (pystr "play") PlaysCrawler None
         (register_crawler (pystr "book") BooksCrawler None
            (register_crawler (pystr "poem") WikiListCrawler None st)))
  else st.

(** [pkgutil.iter_modules(package.__path__)] *)
Definition crawler_modules : list string :=
  ["news"; "pdf_poems"; "poem_pages"; "wiki_lists"].

(** [importlib.import_module]: the body of a module runs the first time
    the module is imported. *)
Definition import_module (st : state) (name : string) : state :=
  if decide (name ∈ sys_modules st) then st
  else
    module_body name
      (State (CRAWLER_REGISTRY st) (_DISCOVERY_DONE st)
             ({[name]} ∪ sys_modules st)).

Definition _ensure_discovery (st : state) : state :=
  if _DISCOVERY_DONE st then st
  else
    let st := fold_left import_module crawler_modules st in
    State (CRAWLER_REGISTRY st) true (sys_modules st).

Definition resolve_crawler (kind : str) (source_name : option str)
    (st : state) : result crawler_cls * state :=
  let st := _ensure_discovery st in
  let key := (kind, _normalize_source source_name) in
  match CRAWLER_REGISTRY st !! key with
  | Some crawler_cls => (Ok crawler_cls, st)
  | None =>
    match CRAWLER_REGISTRY st !! (kind, None) with
    | None => (Raise KeyError, st)
    | Some fallback => (Ok fallback, st)
    end
  end.

(** ** Stripping *)

Lemma lstrip_spaces ws x :
  forallb (isspace U) ws = true → lstrip U (ws ++ x) = lstrip U x.
Proof.
  induction ws as [|c ws IH]; simpl; [done|].
  intros [Hc Hws]%andb_true_iff. rewrite Hc. by apply IH.
Qed.

Lemma lstrip_all_spaces ws : forallb (isspace U) ws = true → lstrip U ws = [].
Proof.
  intros Hws. rewrite <- (app_nil_r ws). by rewrite lstrip_spaces.
Qed.

Lemma forallb_reverse {A} (f : A → bool) l :
  forallb f (reverse l) = forallb f l.
Proof.
  induction l as [|a l IH]; [done|].
  rewrite reverse_cons, forallb_app, IH. simpl.
  rewrite andb_true_r. apply andb_comm.
Qed.

Lemma rstrip_spaces ws x :
  forallb (isspace U) ws = true → rstrip U (x ++ ws) = rstrip U x.
Proof.
  intros Hws. unfold rstrip. rewrite reverse_app.
  rewrite lstrip_spaces; [done|]. by rewrite forallb_reverse.
Qed.

Lemma lstrip_app s ws :
  forallb (isspace U) ws = true →
  lstrip U (s ++ ws) = lstrip U s ++ ws
  ∨ (lstrip U s = [] ∧ lstrip U (s ++ ws) = []).
Proof.
  intros Hws. induction s as [|c s IH]; simpl.
  - right. split; [done|]. by apply lstrip_all_spaces.
  - destruct (isspace U c); [apply IH|]. by left.
Qed.

Lemma strip_surrounding ws1 s ws2 :
  forallb (isspace U) ws1 = true →
  forallb (isspace U) ws2 = true →
  strip U (ws1 ++ s ++ ws2) = strip U s.
Proof.
  intros H1 H2. unfold strip. rewrite lstrip_spaces by done.
  destruct (lstrip_app s ws2 H2) as [->|[-> ->]]; [|done].
  by apply rstrip_spaces.
Qed.



(** ** Resolution *)




(** The registry in which only a default crawler for the kind "news" is
    registered, after discovery. *)
Definition only_default_news (impl : crawler_cls) : state :=
  State {[ (pystr "news", None) := impl ]} true (list_to_set crawler_modules).

(** C7.  Resolution looks the pair (kind, source name) up first; when that
    entry is absent it falls back to the default entry (kind, None); when
    neither exists it raises [KeyError].  With only a default news crawler
    registered, resolving the kind "news" for the source "my-site" returns
    that default. *)
Theorem resolve_crawler_fallback (st : state) (kind : str)
    (source_name : option str) :
  let st' := _ensure_discovery st in
  let exact := CRAWLER_REGISTRY st' !! (kind, _normalize_source source_name) in
  let default := CRAWLER_REGISTRY st' !! (kind, None) in
  (∀ cls, exact = Some cls →
     resolve_crawler kind source_name st = (Ok cls, st'))
  ∧ (∀ cls, exact = None → default = Some cls →
     resolve_crawler kind source_name st = (Ok cls, st'))
  ∧ (exact = None → default = None →
     resolve_crawler kind source_name st = (Raise KeyError, st'))
  ∧ (∀ impl,
     fst (resolve_crawler (pystr "news") (Some (pystr "my-site"))
            (only_default_news impl)) = Ok impl).
Proof.
  intros st' exact default. unfold resolve_crawler.
  fold st'. fold exact. fold default.
  split_and!.
  - by intros cls ->.
  - by intros cls -> ->.
  - by intros -> ->.
  - intros impl. vm_compute. reflexivity.
Qed.


End Registry.

(** A process in which nothing has been imported yet. *)
Definition fresh_process : state := State ∅ false ∅.

Example resolve_news_fresh_process :
  fst (resolve_crawler corpus_db (pystr "news") (Some (pystr "my-site"))
         fresh_process) = Ok NewsCrawler.
Proof. vm_compute. reflexivity. Qed.

Example resolve_unknown_kind :
  fst (resolve_crawler corpus_db (pystr "essay") None fresh_process)
  = Raise KeyError.
Proof. vm_compute. reflexivity. Qed.

Lemma resolve_crawler_fallback_witness :
  let st := only_default_news (OtherCrawler "FakeNews") in
  CRAWLER_REGISTRY (_ensure_discovery corpus_db st)
    !! (pystr "news", _normalize_source corpus_db (Some (pystr "my-site")))
  = None
  ∧ CRAWLER_REGISTRY (_ensure_discovery corpus_db st) !! (pystr "news", None)
    = Some (OtherCrawler "FakeNews")
  ∧ resolve_crawler corpus_db (pystr "news") (Some (pystr "my-site")) st
    = (Ok (OtherCrawler "FakeNews"), _ensure_discovery corpus_db st).
Proof.
  intros st.
  assert (CRAWLER_REGISTRY (_ensure_discovery corpus_db st)
            !! (pystr "news", _normalize_source corpus_db (Some (pystr "my-site")))
          = None) as Hexact by (vm_compute; reflexivity).
  assert (CRAWLER_REGISTRY (_ensure_discovery corpus_db st) !! (pystr "news", None)
          = Some (OtherCrawler "FakeNews")) as Hdefault
    by (vm_compute; reflexivity).
  split; [exact Hexact|]. split; [exact Hdefault|].
  exact (proj1 (proj2 (resolve_crawler_fallback corpus_db st (pystr "news")
                         (Some (pystr "my-site"))))
           (OtherCrawler "FakeNews") Hexact Hdefault).
Defined.


Section Discovery.
Context (U : unicode_db).

(** The loop of [available_crawlers] over the items of the registry. *)
Definition defaults_step (defaults : gmap str crawler_cls)
    (item : RegistryKey * crawler_cls) : gmap str crawler_cls :=
  let '((kind, source), crawler_cls) := item in
  match source, defaults !! kind with
  | None, None => <[kind := crawler_cls]> defaults
  | _, _ => defaults
  end.

Definition collect_defaults (items : list (RegistryKey * crawler_cls))
  : gmap str crawler_cls :=
  fold_left defaults_step items ∅.

(** A dict yields its items in the order of insertion, which the registry
    of the model does not record; the statements about [collect_defaults]
    hold for every order of the items. *)
Definition available_crawlers (st : state) : gmap str crawler_cls * state :=
  let st := _ensure_discovery U st in
  (collect_defaults (map_to_list (CRAWLER_REGISTRY st)), st).

(** The modules of the package and the defaults they register. *)
Definition builtin_crawlers : list (string * str * crawler_cls) :=
  [("news", pystr "news", NewsCrawler);
   ("pdf_poems", pystr "pdf_poems", PdfPoemsCrawler);
   ("poem_pages", pystr "poem_page", PoemPageCrawler);
   ("wiki_lists", pystr "poem", WikiListCrawler);
   ("wiki_lists", pystr "book", BooksCrawler);
   ("wiki_lists", pystr "play", PlaysCrawler);
   ("wiki_lists", pystr "novel", NovelsCrawler)].

Lemma collect_defaults_fold (items : list (RegistryKey * crawler_cls)) :
  ∀ (acc : gmap str crawler_cls) (kind : str),
  fold_left defaults_step items acc !! kind
  = match acc !! kind with
    | Some cls => Some cls
    | None =>
      snd <$> List.find (λ it, bool_decide (it.1 = (kind, @None str))) items
    end.
Proof.
  induction items as [|[[k source] cls] items IH]; intros acc kind.
  - cbn. by destruct (acc !! kind).
  - cbn [fold_left List.find fst defaults_step].
    rewrite IH.
    destruct source as [name|].
    + rewrite bool_decide_eq_false_2 by (intros [= _ ?]; done). done.
    + destruct (acc !! k) as [c|] eqn:Hacc.
      * destruct (decide (k = kind)) as [->|Hne].
        -- by rewrite Hacc.
        -- rewrite bool_decide_eq_false_2 by (intros [= ?]; done). done.
      * destruct (decide (k = kind)) as [->|Hne].
        -- rewrite lookup_insert_eq, Hacc.
           by rewrite bool_decide_eq_true_2.
        -- rewrite lookup_insert_ne by done.
           rewrite bool_decide_eq_false_2 by (intros [= ?]; done). done.
Qed.

Lemma find_key_lookup (items : list (RegistryKey * crawler_cls))
    (m : gmap RegistryKey crawler_cls) (key : RegistryKey) :
  items ≡ₚ map_to_list m →
  snd <$> List.find (λ it, bool_decide (it.1 = key)) items = m !! key.
Proof.
  intros Hperm.
  destruct (List.find _ items) as [[k cls]|] eqn:Hfind; cbn.
  - apply find_some in Hfind as [Hin Hk].
    apply bool_decide_eq_true in Hk. cbn in Hk. subst k.
    apply list_elem_of_In in Hin. rewrite Hperm in Hin.
    by apply elem_of_map_to_list in Hin.
  - destruct (m !! key) as [cls|] eqn:Hm; [|done].
    apply elem_of_map_to_list in Hm. rewrite <- Hperm in Hm.
    apply list_elem_of_In in Hm.
    apply (find_none _ _ Hfind) in Hm.
    by apply bool_decide_eq_false in Hm.
Qed.

(** ** Discovery *)

Lemma import_module_sys st name :
  sys_modules (import_module U st name) = {[name]} ∪ sys_modules st
  ∧ _DISCOVERY_DONE (import_module U st name) = _DISCOVERY_DONE st.
Proof.
  unfold import_module.
  destruct (decide (name ∈ sys_modules st)) as [Hin|Hin].
  - split; [|done]. apply set_eq. intros x.
    rewrite elem_of_union, elem_of_singleton. naive_solver.
  - unfold module_body, register_crawler.
    repeat case_decide; by cbn.
Qed.

(** What a module leaves in the registry when its body runs. *)
Lemma import_module_lookup st name key :
  CRAWLER_REGISTRY (import_module U st name) !! key
  = if decide (name ∈ sys_modules st) then CRAWLER_REGISTRY st !! key
    else
      match List.find (λ b, bool_decide (b.1.1 = name ∧ (b.1.2, None) = key))
                      builtin_crawlers with
      | Some b => Some b.2
      | None => CRAWLER_REGISTRY st !! key
      end.
Proof.
  unfold import_module.
  destruct (decide (name ∈ sys_modules st)) as [Hin|Hin]; [done|].
  unfold module_body, register_crawler. cbn [_normalize_source].
  unfold builtin_crawlers.
  repeat case_decide; subst; cbn [CRAWLER_REGISTRY List.find fst snd].
  - destruct (decide ((pystr "news", None) = key)) as [<-|Hne].
    + rewrite lookup_insert_eq. by rewrite bool_decide_eq_true_2.
    + rewrite lookup_insert_ne by done.
      repeat (rewrite bool_decide_eq_false_2 by (intros [? ?]; done)). done.
  - rewrite bool_decide_eq_false_2 by (intros [? ?]; done).
    destruct (decide ((pystr "pdf_poems", None) = key)) as [<-|Hne].
    + rewrite lookup_insert_eq. by rewrite bool_decide_eq_true_2.
    + rewrite lookup_insert_ne by done.
      repeat (rewrite bool_decide_eq_false_2 by (intros [? ?]; done)). done.
  - do 2 rewrite bool_decide_eq_false_2 by (intros [? ?]; done).
    destruct (decide ((pystr "poem_page", None) = key)) as [<-|Hne].
    + rewrite lookup_insert_eq. by rewrite bool_decide_eq_true_2.
    + rewrite lookup_insert_ne by done.
      repeat (rewrite bool_decide_eq_false_2 by (intros [? ?]; done)). done.
  - do 3 rewrite bool_decide_eq_false_2 by (intros [? ?]; done).
    destruct (decide ((pystr "poem", None) = key)) as [<-|Hne1].
    { rewrite bool_decide_eq_true_2 by done.
      by rewrite !lookup_insert_ne, lookup_insert_eq by done. }
    rewrite bool_decide_eq_false_2 by (intros [? ?]; done).
    destruct (decide ((pystr "book", None) = key)) as [<-|Hne2].
    { rewrite bool_decide_eq_true_2 by done.
      by rewrite !lookup_insert_ne, lookup_insert_eq by done. }
    rewrite bool_decide_eq_false_2 by (intros [? ?]; done).
    destruct (decide ((pystr "play", None) = key)) as [<-|Hne3].
    { rewrite bool_decide_eq_true_2 by done.
      by rewrite !lookup_insert_ne, lookup_insert_eq by done. }
    rewrite bool_decide_eq_false_2 by (intros [? ?]; done).
    destruct (decide ((pystr "novel", None) = key)) as [<-|Hne4].
    { rewrite bool_decide_eq_true_2 by done.
      by rewrite lookup_insert_eq. }
    rewrite bool_decide_eq_false_2 by (intros [? ?]; done).
    by rewrite !lookup_insert_ne by done.
  - repeat (rewrite bool_decide_eq_false_2 by (intros [? ?]; done)). done.
Qed.

(** The default a module registers under a key, if any. *)
Definition provides (name : string) (key : RegistryKey) : option crawler_cls :=
  match List.find (λ b, bool_decide (b.1.1 = name ∧ (b.1.2, None) = key))
                  builtin_crawlers with
  | Some b => Some b.2
  | None => None
  end.

Lemma import_module_provides st name key :
  CRAWLER_REGISTRY (import_module U st name) !! key
  = if decide (name ∈ sys_modules st) then CRAWLER_REGISTRY st !! key
    else match provides name key with
         | Some cls => Some cls
         | None => CRAWLER_REGISTRY st !! key
         end.
Proof.
  rewrite import_module_lookup. unfold provides.
  by destruct (List.find _ builtin_crawlers).
Qed.

Lemma provides_Some name key cls :
  provides name key = Some cls
  ↔ ∃ kind, (name, kind, cls) ∈ builtin_crawlers ∧ key = (kind, None).
Proof.
  unfold provides. split.
  - destruct (List.find _ builtin_crawlers) as [[[n k] c]|] eqn:Hfind; [|done].
    intros [= <-]. apply find_some in Hfind as [Hin Hb].
    apply bool_decide_eq_true in Hb as [Hn Hk]. cbn in Hn, Hk. subst.
    exists k. split; [by apply list_elem_of_In|done].
  - intros (kind & Hin & ->).
    unfold builtin_crawlers in *.
    repeat (apply elem_of_cons in Hin as [[= -> -> ->]|Hin];
            [vm_compute; reflexivity|]).
    by apply elem_of_nil in Hin.
Qed.

(** No two modules register the same default. *)
Lemma provides_unique name1 name2 key cls1 cls2 :
  provides name1 key = Some cls1 → provides name2 key = Some cls2 →
  name1 = name2.
Proof.
  intros (k1 & Hin1 & ->)%provides_Some (k2 & Hin2 & [= <-])%provides_Some.
  unfold builtin_crawlers in *.
  repeat (apply elem_of_cons in Hin1 as [[= -> -> ->]|Hin1]);
    [..|by apply elem_of_nil in Hin1];
    repeat (apply elem_of_cons in Hin2 as [Heq|Hin2]);
    try (by apply elem_of_nil in Hin2);
    try (vm_compute in Heq; discriminate Heq);
    by injection Heq as ->.
Qed.

Lemma fold_import_sys (ms : list string) : ∀ st name,
  name ∈ sys_modules (fold_left (import_module U) ms st)
  ↔ name ∈ ms ∨ name ∈ sys_modules st.
Proof.
  induction ms as [|m ms IH]; intros st name; cbn [fold_left].
  - rewrite elem_of_nil. tauto.
  - rewrite IH, (proj1 (import_module_sys st m)).
    rewrite elem_of_cons, elem_of_union, elem_of_singleton. tauto.
Qed.

Lemma fold_import_done (ms : list string) : ∀ st,
  _DISCOVERY_DONE (fold_left (import_module U) ms st) = _DISCOVERY_DONE st.
Proof.
  induction ms as [|m ms IH]; intros st; cbn [fold_left]; [done|].
  by rewrite IH, (proj2 (import_module_sys st m)).
Qed.

Lemma fold_import_other (ms : list string) : ∀ st key,
  (∀ name, name ∈ ms → provides name key = None) →
  CRAWLER_REGISTRY (fold_left (import_module U) ms st) !! key
  = CRAWLER_REGISTRY st !! key.
Proof.
  induction ms as [|m ms IH]; intros st key Hnone; cbn [fold_left]; [done|].
  rewrite IH by (intros name Hin; apply Hnone; by right).
  rewrite import_module_provides.
  rewrite (Hnone m) by by left. by destruct (decide _).
Qed.

Lemma fold_import_provides (ms : list string) : ∀ st name key cls,
  NoDup ms → name ∈ ms → provides name key = Some cls →
  CRAWLER_REGISTRY (fold_left (import_module U) ms st) !! key
  = if decide (name ∈ sys_modules st) then CRAWLER_REGISTRY st !! key
    else Some cls.
Proof.
  induction ms as [|m ms IH]; intros st name key cls Hnd Hin Hp;
    [by apply elem_of_nil in Hin|].
  apply NoDup_cons in Hnd as [Hm Hnd]. cbn [fold_left].
  assert (∀ name', name' ≠ name → provides name' key = None) as Hother.
  { intros name' Hne. destruct (provides name' key) as [c|] eqn:Hp'; [|done].
    by pose proof (provides_unique _ _ _ _ _ Hp' Hp). }
  apply elem_of_cons in Hin as [->|Hin].
  - rewrite fold_import_other.
    + rewrite import_module_provides. by rewrite Hp.
    + intros name' Hin'. apply Hother. intros ->. done.
  - assert (m ≠ name) as Hne by (intros ->; done).
    rewrite (IH _ name key cls) by done.
    rewrite import_module_provides, (Hother m Hne).
    rewrite (proj1 (import_module_sys st m)).
    destruct (decide (name ∈ sys_modules st)) as [Hs|Hs].
    + rewrite decide_True by (apply elem_of_union; by right).
      by destruct (decide _).
    + rewrite decide_False; [done|].
      rewrite elem_of_union, elem_of_singleton. naive_solver.
Qed.

(** X12.  Discovery runs once: it sets the flag, and a second call
    changes nothing.  It leaves alone every entry registered for a source
    name and the default of every kind that no module of the package
    provides.  For the seven kinds of the package, the default after a
    first discovery is the class of the package when the module had not
    been imported before, whatever default had been registered for the
    kind by then, and the entry as it was when the module had been
    imported. *)
Theorem ensure_discovery_registry (st : state) :
  let st' := _ensure_discovery U st in
  _DISCOVERY_DONE st' = true
  ∧ _ensure_discovery U st' = st'
  ∧ (_DISCOVERY_DONE st = true → st' = st)
  ∧ (∀ kind name,
       CRAWLER_REGISTRY st' !! (kind, Some name)
       = CRAWLER_REGISTRY st !! (kind, Some name))
  ∧ (∀ kind, kind ∉ builtin_crawlers.*1.*2 →
       CRAWLER_REGISTRY st' !! (kind, None) = CRAWLER_REGISTRY st !! (kind, None))
  ∧ (_DISCOVERY_DONE st = false →
     ∀ name kind cls, (name, kind, cls) ∈ builtin_crawlers →
       CRAWLER_REGISTRY st' !! (kind, None)
       = if decide (name ∈ sys_modules st)
         then CRAWLER_REGISTRY st !! (kind, None)
         else Some cls).
Proof.
  intros st'. unfold st', _ensure_discovery.
  destruct (_DISCOVERY_DONE st) eqn:Hdone.
  - rewrite Hdone. split_and!; done.
  - cbn [_DISCOVERY_DONE CRAWLER_REGISTRY]. split_and!; try done.
    + intros kind name. apply fold_import_other. intros m _.
      destruct (provides m (kind, Some name)) as [c|] eqn:Hp; [|done].
      by apply provides_Some in Hp as (k & _ & ?).
    + intros kind Hkind. apply fold_import_other. intros m _.
      destruct (provides m (kind, None)) as [c|] eqn:Hp; [|done].
      apply provides_Some in Hp as (k & Hin & [= <-]).
      exfalso. apply Hkind.
      apply list_elem_of_fmap. exists (m, kind). split; [done|].
      apply list_elem_of_fmap. by exists (m, kind, c).
    + intros _ name kind cls Hin.
      apply fold_import_provides.
      * unfold crawler_modules. apply (bool_decide_unpack _). by vm_compute.
      * unfold builtin_crawlers, crawler_modules in *.
        repeat (apply elem_of_cons in Hin as [[= -> -> ->]|Hin];
                [apply (bool_decide_unpack _); by vm_compute|]).
        by apply elem_of_nil in Hin.
      * apply provides_Some. by exists kind.
Qed.

(** X13.  [available_crawlers] maps a kind to the class registered as its
    default, in whatever order the registry yields its items, and to
    nothing else: a kind is listed exactly when it resolves without a
    source name, and resolves to the class listed.  With a source name a
    kind resolves to the class registered for that name or to the class
    listed. *)
Theorem available_crawlers_resolve (st : state) (kind : str) :
  let st' := _ensure_discovery U st in
  let available := fst (available_crawlers st) in
  snd (available_crawlers st) = st'
  ∧ (∀ items, items ≡ₚ map_to_list (CRAWLER_REGISTRY st') →
       collect_defaults items = available)
  ∧ available !! kind = CRAWLER_REGISTRY st' !! (kind, None)
  ∧ fst (resolve_crawler U kind None st)
    = match available !! kind with
      | Some cls => Ok cls
      | None => Raise KeyError
      end
  ∧ (∀ name,
       fst (resolve_crawler U kind (Some name) st)
       = match CRAWLER_REGISTRY st' !! (kind, _normalize_source U (Some name)),
               available !! kind with
         | Some cls, _ => Ok cls
         | None, Some cls => Ok cls
         | None, None => Raise KeyError
         end).
Proof.
  intros st' available.
  assert (∀ items k, items ≡ₚ map_to_list (CRAWLER_REGISTRY st') →
            collect_defaults items !! k = CRAWLER_REGISTRY st' !! (k, None))
    as Hitems.
  { intros items k Hperm. unfold collect_defaults.
    rewrite collect_defaults_fold, lookup_empty.
    by apply find_key_lookup. }
  assert (∀ k, available !! k = CRAWLER_REGISTRY st' !! (k, None)) as Hav.
  { intros k. by apply Hitems. }
  split_and!.
  - done.
  - intros items Hperm. apply map_eq. intros k.
    by rewrite Hitems, Hav.
  - apply Hav.
  - rewrite Hav. unfold resolve_crawler. fold st'. cbn [_normalize_source].
    by destruct (CRAWLER_REGISTRY st' !! (kind, None)).
  - intros name. rewrite Hav. unfold resolve_crawler. fold st'.
    destruct (CRAWLER_REGISTRY st' !! (kind, _normalize_source U (Some name)));
      [done|].
    by destruct (CRAWLER_REGISTRY st' !! (kind, None)).
Qed.

End Discovery.

(** [test_kind2mod_mapping] of [tests/test_basic.py]. *)
Example available_crawlers_fresh_process :
  Forall (λ kind, is_Some (fst (available_crawlers corpus_db fresh_process)
                             !! pystr kind))
         ["poem_page"; "poem"; "play"; "book"; "novel"; "news"; "pdf_poems"]
  ∧ size (fst (available_crawlers corpus_db fresh_process)) = 7.
Proof.
  split; [|vm_compute; reflexivity].
  repeat constructor; vm_compute; eexists; reflexivity.
Qed.

(** A default registered before the first resolution is replaced by the
    class of the package; registered after it, it stays. *)
Example register_before_discovery :
  fst (resolve_crawler corpus_db (pystr "news") None
         (register_crawler corpus_db (pystr "news") (OtherCrawler "MyNews")
            None fresh_process))
  = Ok NewsCrawler
  ∧ fst (resolve_crawler corpus_db (pystr "news") None
           (register_crawler corpus_db (pystr "news") (OtherCrawler "MyNews")
              None (_ensure_discovery corpus_db fresh_process)))
    = Ok (OtherCrawler "MyNews").
Proof. split; vm_compute; reflexivity. Qed.

End Dispatcher.

(* ===================================================================== *)
(** * [src/crawler/crawlers/pdf_poems.py] *)
(* ===================================================================== *)

Module PdfPoems.

Definition CID_REPLACEMENTS : gmap str str :=
  list_to_map [
    (pystr "213", pystr "ı");
    (pystr "247", pystr "ğ");
    (pystr "250", pystr "ş");
    (pystr "248", pystr "İ");
    (pystr "249", pystr "Ş");
    (pystr "80", pystr "n");
    (pystr "81", pystr "n");
    (pystr "85", pystr "z");
    (pystr "86", pystr "n");
    (pystr "92", pystr "y");
    (pystr "93", pystr "l");
    (pystr "79", pystr "ğ");
    (pystr "46", pystr "Ö");
    (pystr "36", pystr "Ç");
    (pystr "44", pystr "ış");
    (pystr "56", pystr "Şaf");
    (pystr "60", pystr "Y");
    (pystr "68", pystr "gü");
    (pystr "71", pystr "dır");
    (pystr "72", pystr "i");
    (pystr "76", pystr "İş");
    (pystr "78", pystr "kı");
    (pystr "3", pystr " ş");
    (pystr "246", pystr "Ğ")
  ].

Section Crawler.
Context (U : unicode_db).

(** ** [CID_PATTERN = re.compile(r"\(cid:(\d+)\)")] *)

(** [\d+]: the longest run of decimal digits at the head of [s], and what
    follows it. *)
Fixpoint take_digits (s : str) : str * str :=
  match s with
  | c :: s' =>
    if ch_isdecimal U c then
      let '(ds, rest) := take_digits s' in (c :: ds, rest)
    else ([], s)
  | [] => ([], [])
  end.

(** [CID_PATTERN.match(s)]: group 1 and the text after the match.  The
    digits are taken greedily: a shorter run would be followed by a digit,
    not by the closing parenthesis. *)
Definition match_cid (s : str) : option (str * str) :=
  if starts_with (pystr "(cid:") s then
    match take_digits (drop 5 s) with
    | ((_ :: _) as code, c :: rest) =>
      if (c =? 41)%N then Some (code, rest) else None
    | _ => None
    end
  else None.

#[local] Arguments match_cid : simpl never.

(** [repl]: the replacement for a match with group 1 [code] *)
Definition repl (code : str) : str := default [] (CID_REPLACEMENTS !! code).

(** [CID_PATTERN.sub(repl, text)]: the matches are replaced from left to
    right, the search resuming after each match.  [fuel] bounds the number
    of steps; the length of the text is enough. *)
Fixpoint sub_fuel (fuel : nat) (text : str) : str :=
  match fuel with
  | 0 => []
  | S fuel' =>
    match text with
    | [] => []
    | c :: text' =>
      match match_cid text with
      | Some (code, rest) => repl code ++ sub_fuel fuel' rest
      | None => c :: sub_fuel fuel' text'
      end
    end
  end.

Definition CID_PATTERN_sub (text : str) : str := sub_fuel (length text) text.

Definition _replace_cid_sequences (text : str) : str :=
  if negb (contains (pystr "(cid:") text) then text
  else CID_PATTERN_sub text.

(** The placeholder for a code, as it stands in a text. *)
Definition placeholder (code : str) : str :=
  pystr "(cid:" ++ code ++ pystr ")".

#[local] Arguments placeholder : simpl never.

(** ** Title detection *)

(** [bool(line.strip())] *)
Definition non_blank (line : str) : bool :=
  match strip U line with [] => false | _ => true end.

Definition _next_non_empty_line (lines : list str) (idx : nat) : option str :=
  List.find non_blank (drop (idx + 1) lines).

(** [sum(1 for ch in s if p(ch))] *)
Definition count (p : char → bool) (s : str) : nat :=
  length (List.filter p s).

(** [upper_ratio] is a quotient of two counts of at most 60 and [0.65] the
    double nearest to 65/100.  A quotient of such counts that is not 13/20
    is further from it than the rounding errors of the division and of the
    literal, and 13/20 itself rounds to the literal; the comparison of the
    floats is therefore the comparison of the rationals. *)
Definition _is_title_candidate (line : str) (lines : list str) (idx : nat)
  : bool :=
  let stripped := strip U line in
  if negb ((3 <=? length stripped) && (length stripped <=? 60)) then false
  else
    let next_non_empty := _next_non_empty_line lines idx in
    if negb (match next_non_empty with Some (_ :: _) => true | _ => false end)
    then false
    else
      let letters := List.filter (ch_isalpha U) stripped in
      match letters with
      | [] => false
      | _ =>
        let upper_ratio :=
          (Z.of_nat (count (ch_isupper U) letters)
             # Pos.of_nat (length letters))%Q in
        let punctuation_count :=
          count (λ ch, mem ch (pystr ",.;:!?")) stripped in
        if Nat.max 2 (length stripped / 3) <? punctuation_count then false
        else
          let title_case := istitle U stripped in
          let capitalized_words :=
            forallb (λ word, isupper U (take 1 word))
              (List.filter
                 (λ word, match word with
                          | [] => false
                          | _ => isalpha U (take 1 word)
                          end)
                 (split U stripped)) in
          isupper U stripped || Qle_bool 0.65 upper_ratio
          || title_case || capitalized_words
      end.

(** [enumerate(lines)] *)
Definition enumerate (lines : list str) : list (nat * str) :=
  imap (λ idx line, (idx, line)) lines.

(** One iteration of the loop of [_detect_title_indices]. *)
Definition detect_step (lines : list str) (indices : list nat)
    (item : nat * str) : list nat :=
  let '(idx, line) := item in
  if negb (non_blank line) then indices
  else if (0 <? idx) && non_blank (default [] (lines !! (idx - 1)))
  then indices
  else if _is_title_candidate line lines idx then indices ++ [idx]
  else indices.

Definition _detect_title_indices (lines : list str) : list nat :=
  fold_left (detect_step lines) (enumerate lines) [].

(** The rule as the specification words it: the punctuation marks are
    compared with a third of the length, and every word has to start with
    an upper-case letter. *)
Definition spec_title_candidate (line : str) (lines : list str) (idx : nat)
  : bool :=
  let stripped := strip U line in
  (3 <=? length stripped) && (length stripped <=? 60)
  && existsb non_blank (drop (idx + 1) lines)
  && existsb (ch_isalpha U) stripped
  && (isupper U stripped
      || (65 * count (ch_isalpha U) stripped
          <=? 100 * count (λ ch, ch_isalpha U ch && ch_isupper U ch) stripped)
      || istitle U stripped
      || forallb (λ word, match word with
                          | c :: _ => ch_isalpha U c && ch_isupper U c
                          | [] => false
                          end)
           (split U stripped))
  && negb (length stripped <? 3 * count (λ ch, mem ch (pystr ",.;:!?")) stripped).

(** ** The pattern *)

Lemma take_digits_app s : fst (take_digits s) ++ snd (take_digits s) = s.
Proof.
  induction s as [|c s IH]; simpl; [done|].
  destruct (ch_isdecimal U c); [|done].
  destruct (take_digits s) as [ds rest]. simpl in *. by rewrite IH.
Qed.

Lemma take_digits_decimal s : forallb (ch_isdecimal U) (fst (take_digits s)) = true.
Proof.
  induction s as [|c s IH]; simpl; [done|].
  destruct (ch_isdecimal U c) eqn:Hc; [|done].
  destruct (take_digits s) as [ds rest]. simpl in *. by rewrite Hc, IH.
Qed.

Lemma take_digits_stop code c rest :
  forallb (ch_isdecimal U) code = true →
  ch_isdecimal U c = false →
  take_digits (code ++ c :: rest) = (code, c :: rest).
Proof.
  intros Hcode Hc. induction code as [|d code IH]; simpl.
  - by rewrite Hc.
  - simpl in Hcode. apply andb_true_iff in Hcode as [Hd Hcode].
    rewrite Hd, IH; done.
Qed.

Lemma starts_with_app p s : starts_with p (p ++ s) = true.
Proof.
  induction p as [|a p IH]; simpl; [done|]. by rewrite N.eqb_refl, IH.
Qed.

Lemma starts_with_inv p s :
  starts_with p s = true → s = p ++ drop (length p) s.
Proof.
  revert s. induction p as [|a p IH]; intros [|b s]; simpl; try done.
  intros [Hab Hps]%andb_true_iff. apply N.eqb_eq in Hab as ->.
  f_equal. by apply IH.
Qed.

(** A match is a placeholder with a non-empty code of decimal digits. *)
Lemma match_cid_Some s code rest :
  match_cid s = Some (code, rest) ↔
  s = placeholder code ++ rest
  ∧ code ≠ [] ∧ forallb (ch_isdecimal U) code = true.
Proof.
  unfold match_cid, placeholder. split.
  - destruct (starts_with (pystr "(cid:") s) eqn:Hp; [|done].
    apply starts_with_inv in Hp. change (length (pystr "(cid:")) with 5 in Hp.
    pose proof (take_digits_app (drop 5 s)) as Happ.
    pose proof (take_digits_decimal (drop 5 s)) as Hdec.
    destruct (take_digits (drop 5 s)) as [[|d ds] [|c rest']]; try done.
    simpl in Happ, Hdec.
    destruct (N.eqb_spec c 41) as [->|Hne]; [|done].
    intros [= <- <-]. split_and!; [|done|done].
    rewrite Hp at 1. rewrite <- Happ.
    change (pystr ")") with [41%N]. by rewrite <- !app_assoc.
  - intros (-> & Hne & Hdec).
    rewrite <- app_assoc, starts_with_app.
    rewrite <- app_assoc.
    change (drop 5 (pystr "(cid:" ++ code ++ pystr ")" ++ rest))
      with (code ++ 41%N :: rest).
    rewrite take_digits_stop by done.
    destruct code; [done|]. by rewrite N.eqb_refl.
Qed.

Lemma match_cid_shorter s code rest :
  match_cid s = Some (code, rest) → length rest < length s.
Proof.
  intros (-> & _ & _)%match_cid_Some. unfold placeholder.
  rewrite !length_app. simpl. lia.
Qed.

(** ** The substitution *)

Lemma sub_fuel_enough f1 : ∀ f2 (text : str),
  length text ≤ f1 → length text ≤ f2 → sub_fuel f1 text = sub_fuel f2 text.
Proof.
  induction f1 as [|f1 IH]; intros f2 text H1 H2.
  - destruct text; [|simpl in H1; lia]. by destruct f2.
  - destruct f2 as [|f2]; [destruct text; [done|simpl in H2; lia]|].
    cbn [sub_fuel]. destruct text as [|c text]; [done|].
    destruct (match_cid (c :: text)) as [[code rest]|] eqn:Hm.
    + apply match_cid_shorter in Hm. f_equal. apply IH; simpl in *; lia.
    + f_equal. apply IH; simpl in *; lia.
Qed.

Lemma sub_match text code rest :
  match_cid text = Some (code, rest) →
  CID_PATTERN_sub text = repl code ++ CID_PATTERN_sub rest.
Proof.
  intros Hm. unfold CID_PATTERN_sub.
  pose proof (match_cid_shorter _ _ _ Hm) as Hlen.
  destruct text as [|c text]; [simpl in Hlen; lia|].
  cbn [length sub_fuel]. rewrite Hm. f_equal.
  apply sub_fuel_enough; simpl in *; lia.
Qed.

Lemma sub_skip c text :
  match_cid (c :: text) = None →
  CID_PATTERN_sub (c :: text) = c :: CID_PATTERN_sub text.
Proof.
  intros Hm. unfold CID_PATTERN_sub. cbn [length sub_fuel].
  by rewrite Hm.
Qed.

Lemma sub_no_cid text :
  contains (pystr "(cid:") text = false → CID_PATTERN_sub text = text.
Proof.
  induction text as [|c text IH]; [done|].
  intros Hc. cbn [contains] in Hc.
  apply orb_false_iff in Hc as [Hs Hc].
  rewrite sub_skip, IH; [done|done|].
  unfold match_cid. by rewrite Hs.
Qed.

Lemma replace_cid_sequences_sub text :
  _replace_cid_sequences text = CID_PATTERN_sub text.
Proof.
  unfold _replace_cid_sequences.
  destruct (contains (pystr "(cid:") text) eqn:Hc; [done|].
  simpl. by rewrite sub_no_cid.
Qed.

(** The opening parenthesis of a placeholder is its only one. *)
Lemma placeholder_tail code :
  forallb (ch_isdecimal U) code = true →
  ∃ t, placeholder code = 40%N :: t ∧ 40%N ∉ t.
Proof.
  intros Hdec. exists (pystr "cid:" ++ code ++ pystr ")"). split; [done|].
  rewrite !elem_of_app. intros [Hin|[Hin|Hin]].
  - apply (bool_decide_pack _) in Hin. by vm_compute in Hin.
  - apply list_elem_of_In in Hin.
    rewrite forallb_forall in Hdec. by apply Hdec in Hin.
  - apply (bool_decide_pack _) in Hin. by vm_compute in Hin.
Qed.

(** A match that starts before a placeholder ends before it. *)
Lemma match_before_placeholder pre code post code' rest' :
  pre ≠ [] →
  match_cid (pre ++ placeholder code ++ post) = Some (code', rest') →
  ∃ pre', pre = placeholder code' ++ pre'
          ∧ rest' = pre' ++ placeholder code ++ post.
Proof.
  intros Hpre (Heq & Hne' & Hdec')%match_cid_Some.
  apply app_eq_inv in Heq as [(k & Hk1 & Hk2)|(k & Hk1 & Hk2)]; [by eauto|].
  destruct k as [|x k].
  - rewrite app_nil_r in Hk1. exists []. rewrite app_nil_r.
    split; [done|]. symmetry. exact Hk2.
  - exfalso.
    destruct (placeholder_tail code' Hdec') as (t & Ht & Hnot).
    assert (x = 40%N) as ->.
    { change (placeholder code ++ post)
        with (40%N :: (pystr "cid:" ++ code ++ pystr ")") ++ post) in Hk2.
      by injection Hk2 as -> _. }
    rewrite Ht in Hk1.
    destruct pre as [|p pre]; [done|].
    injection Hk1 as _ ->. apply Hnot.
    rewrite elem_of_app. right. by left.
Qed.

Lemma match_extends pre code' rest' x :
  match_cid pre = Some (code', rest') →
  match_cid (pre ++ x) = Some (code', rest' ++ x).
Proof.
  intros (-> & Hne & Hdec)%match_cid_Some.
  apply match_cid_Some. by rewrite <- app_assoc.
Qed.

Lemma sub_placeholder code post :
  code ≠ [] → forallb (ch_isdecimal U) code = true →
  CID_PATTERN_sub (placeholder code ++ post) = repl code ++ CID_PATTERN_sub post.
Proof.
  intros Hne Hdec. apply sub_match. by apply match_cid_Some.
Qed.

Lemma sub_app_placeholder code post :
  code ≠ [] → forallb (ch_isdecimal U) code = true →
  ∀ n (pre : str), length pre ≤ n →
    CID_PATTERN_sub (pre ++ placeholder code ++ post)
    = CID_PATTERN_sub pre ++ repl code ++ CID_PATTERN_sub post.
Proof.
  intros Hne Hdec n. induction n as [|n IH]; intros pre Hlen.
  - destruct pre; [|simpl in Hlen; lia]. by apply sub_placeholder.
  - destruct pre as [|c pre]; [by apply sub_placeholder|].
    destruct (match_cid ((c :: pre) ++ placeholder code ++ post))
      as [[code' rest']|] eqn:Hm.
    + rewrite (sub_match _ _ _ Hm).
      pose proof Hm as (_ & Hne' & Hdec')%match_cid_Some.
      apply match_before_placeholder in Hm as (pre' & Hpre & ->); [|done].
      assert (match_cid (c :: pre) = Some (code', pre')) as Hm'.
      { rewrite Hpre. by apply match_cid_Some. }
      rewrite (sub_match _ _ _ Hm'). rewrite <- app_assoc. f_equal.
      apply IH. apply match_cid_shorter in Hm'.
      cbn [length] in Hlen, Hm'. lia.
    + assert (match_cid (c :: pre) = None) as Hm'.
      { destruct (match_cid (c :: pre)) as [[code' rest']|] eqn:Hm'; [|done].
        apply (match_extends _ _ _ (placeholder code ++ post)) in Hm'.
        rewrite Hm in Hm'. done. }
      rewrite <- app_comm_cons in Hm |- *.
      rewrite (sub_skip _ _ Hm), (sub_skip _ _ Hm').
      rewrite <- app_comm_cons. f_equal. apply IH. cbn [length] in Hlen. lia.
Qed.

(** A text holds a placeholder when some code of decimal digits stands in
    it between "(cid:" and ")". *)
Definition has_placeholder (text : str) : Prop :=
  ∃ pre code post,
    text = pre ++ placeholder code ++ post
    ∧ code ≠ [] ∧ forallb (ch_isdecimal U) code = true.

Lemma sub_no_placeholder text :
  ¬ has_placeholder text → CID_PATTERN_sub text = text.
Proof.
  induction text as [|c text IH]; intros Hno; [done|].
  destruct (match_cid (c :: text)) as [[code rest]|] eqn:Hm.
  - exfalso. apply Hno. apply match_cid_Some in Hm as (Heq & ? & ?).
    exists [], code, rest. done.
  - rewrite sub_skip by done. f_equal. apply IH.
    intros (pre & code & post & -> & ? & ?). apply Hno.
    by exists (c :: pre), code, post.
Qed.

(** C5.  Every placeholder "(cid:<code>)" of a text, wherever it stands, is
    replaced by the entry of the table for its code, and by nothing when
    the table has no entry for the code; the text around it is repaired in
    the same way and a text without placeholders is returned as it is.
    The placeholders of the codes 250, 92 and 213 in a row give the
    characters "ş", "y" and "ı". *)
Theorem replace_cid_sequences_spec :
  (∀ pre code post,
     code ≠ [] → forallb (ch_isdecimal U) code = true →
     _replace_cid_sequences (pre ++ placeholder code ++ post)
     = _replace_cid_sequences pre
       ++ default [] (CID_REPLACEMENTS !! code)
       ++ _replace_cid_sequences post)
  ∧ (∀ pre code post,
     code ≠ [] → forallb (ch_isdecimal U) code = true →
     CID_REPLACEMENTS !! code = None →
     _replace_cid_sequences (pre ++ placeholder code ++ post)
     = _replace_cid_sequences pre ++ _replace_cid_sequences post)
  ∧ (∀ text, ¬ has_placeholder text → _replace_cid_sequences text = text)
  ∧ _replace_cid_sequences (pystr "(cid:250)(cid:92)(cid:213)")
    = pystr "şyı"
  ∧ pystr "şyı" = [351; 121; 305]%N.
Proof.
  split_and!.
  - intros pre code post Hne Hdec. rewrite !replace_cid_sequences_sub.
    by apply (sub_app_placeholder code post Hne Hdec (length pre)).
  - intros pre code post Hne Hdec Hnone. rewrite !replace_cid_sequences_sub.
    rewrite (sub_app_placeholder code post Hne Hdec (length pre)) by done.
    assert (repl code = []) as -> by exact (f_equal (default []) Hnone).
    done.
  - intros text Hno. rewrite replace_cid_sequences_sub.
    by apply sub_no_placeholder.
  - vm_compute. reflexivity.
  - vm_compute. reflexivity.
Qed.

(** ** Title detection *)

(** The test the loop of [_detect_title_indices] applies to an item. *)
Definition detected (lines : list str) (item : nat * str) : bool :=
  non_blank item.2
  && negb ((0 <? item.1) && non_blank (default [] (lines !! (item.1 - 1))))
  && _is_title_candidate item.2 lines item.1.

Lemma fold_detect_step lines items : ∀ indices,
  fold_left (detect_step lines) items indices
  = indices ++ (List.filter (detected lines) items).*1.
Proof.
  induction items as [|[idx line] items IH]; intros indices; cbn [fold_left].
  - by rewrite app_nil_r.
  - rewrite IH. cbn [List.filter]. unfold detected, detect_step. cbn [fst snd].
    destruct (non_blank line); cbn [negb andb]; [|done].
    destruct ((0 <? idx) && non_blank (default [] (lines !! (idx - 1))));
      cbn [negb andb]; [done|].
    destruct (_is_title_candidate line lines idx); [|done].
    rewrite fmap_cons. cbn [fst]. by rewrite <- app_assoc.
Qed.

Lemma detect_title_indices_elem lines idx :
  idx ∈ _detect_title_indices lines ↔
  ∃ line, lines !! idx = Some line ∧ detected lines (idx, line) = true.
Proof.
  unfold _detect_title_indices. rewrite fold_detect_step, app_nil_l.
  rewrite list_elem_of_fmap. split.
  - intros ([i line] & -> & Hin). cbn [fst].
    apply list_elem_of_In, filter_In in Hin as [Hin Hdet].
    apply list_elem_of_In, elem_of_lookup_imap in Hin as (j & y & [= -> ->] & Hj).
    eauto.
  - intros (line & Hl & Hdet). exists (idx, line). split; [done|].
    apply list_elem_of_In, filter_In. split; [|done].
    apply list_elem_of_In, elem_of_lookup_imap. eauto.
Qed.

Lemma strip_nil : strip U [] = [].
Proof. reflexivity. Qed.

Lemma non_blank_true line : non_blank line = true ↔ strip U line ≠ [].
Proof. unfold non_blank. by destruct (strip U line). Qed.

Lemma non_blank_false line : non_blank line = false ↔ strip U line = [].
Proof. unfold non_blank. by destruct (strip U line). Qed.

Lemma next_non_empty_line_Some lines idx :
  match _next_non_empty_line lines idx with
  | Some (_ :: _) => true
  | _ => false
  end = true ↔
  ∃ j later, idx < j ∧ lines !! j = Some later ∧ strip U later ≠ [].
Proof.
  unfold _next_non_empty_line. split.
  - destruct (List.find non_blank (drop (idx + 1) lines)) as [l|] eqn:Hf;
      [|done].
    intros _. apply find_some in Hf as [Hin Hnb].
    apply list_elem_of_In, list_elem_of_lookup in Hin as [i Hi].
    rewrite lookup_drop in Hi.
    exists (idx + 1 + i), l. split; [lia|]. split; [done|].
    by apply non_blank_true.
  - intros (j & later & Hj & Hl & Hs).
    destruct (List.find non_blank (drop (idx + 1) lines)) as [l|] eqn:Hf.
    + apply find_some in Hf as [_ Hnb]. apply non_blank_true in Hnb.
      destruct l; [by rewrite strip_nil in Hnb|done].
    + exfalso. apply non_blank_true in Hs.
      rewrite (find_none _ _ Hf later) in Hs; [done|].
      apply list_elem_of_In, list_elem_of_lookup.
      exists (j - (idx + 1)). rewrite lookup_drop.
      by replace (idx + 1 + (j - (idx + 1))) with j by lia.
Qed.

Lemma upper_ratio_spec (uppers letters : nat) :
  letters ≠ 0 →
  Qle_bool 0.65 (Z.of_nat uppers # Pos.of_nat letters) = true
  ↔ 65 * letters ≤ 100 * uppers.
Proof.
  intros Hn. unfold Qle_bool. cbn [Qnum Qden].
  rewrite Z.leb_le. lia.
Qed.

Lemma capitalized_words_spec (words : list str) :
  forallb (λ word, isupper U (take 1 word))
    (List.filter
       (λ word, match word with
                | [] => false
                | _ => isalpha U (take 1 word)
                end) words) = true
  ↔ ∀ word c, word ∈ words → head word = Some c →
      ch_isalpha U c = true → ch_isupper U c = true.
Proof.
  rewrite forallb_forall. split.
  - intros Hall word c Hin Hhead Halpha.
    destruct word as [|c' word]; [done|]. injection Hhead as ->.
    apply (Hall (c :: word)). apply filter_In. split.
    + by apply list_elem_of_In.
    + cbn. by rewrite Halpha.
  - intros Hall word [Hin Hf]%filter_In.
    destruct word as [|c word]; [done|].
    apply (Hall (c :: word) c); [by apply list_elem_of_In|done|].
    cbn in Hf. by apply andb_true_iff in Hf as [? _].
Qed.

Lemma letters_nonempty (s : str) :
  List.filter (ch_isalpha U) s ≠ []
  ↔ ∃ ch, ch ∈ s ∧ ch_isalpha U ch = true.
Proof.
  split.
  - destruct (List.filter (ch_isalpha U) s) as [|ch l] eqn:Hf; [done|].
    intros _. exists ch.
    assert (In ch (List.filter (ch_isalpha U) s)) as Hin
      by (rewrite Hf; by left).
    apply filter_In in Hin as [Hin ?]. by apply list_elem_of_In in Hin.
  - intros (ch & Hin & Halpha) Hf.
    assert (In ch (List.filter (ch_isalpha U) s)) as Hin'.
    { apply filter_In. by apply list_elem_of_In in Hin. }
    by rewrite Hf in Hin'.
Qed.

(** The rule [_is_title_candidate] decides for a line, its list and its
    index. *)
Definition title_rule (lines : list str) (idx : nat) (line : str) : Prop :=
  let stripped := strip U line in
  let letters := List.filter (ch_isalpha U) stripped in
  (3 ≤ length stripped ∧ length stripped ≤ 60)
  ∧ (∃ j later, idx < j ∧ lines !! j = Some later ∧ strip U later ≠ [])
  ∧ (∃ ch, ch ∈ stripped ∧ ch_isalpha U ch = true)
  ∧ count (λ ch, mem ch (pystr ",.;:!?")) stripped
    ≤ Nat.max 2 (length stripped / 3)
  ∧ (isupper U stripped = true
     ∨ 65 * length letters ≤ 100 * count (ch_isupper U) letters
     ∨ istitle U stripped = true
     ∨ ∀ word c, word ∈ split U stripped → head word = Some c →
         ch_isalpha U c = true → ch_isupper U c = true).

Lemma is_title_candidate_rule line lines idx :
  _is_title_candidate line lines idx = true ↔ title_rule lines idx line.
Proof.
  unfold _is_title_candidate, title_rule.
  set (stripped := strip U line).
  pose proof (next_non_empty_line_Some lines idx) as Hnext.
  set (next := match _next_non_empty_line lines idx with
               | Some (_ :: _) => true
               | _ => false
               end) in *.
  pose proof (letters_nonempty stripped) as Hletters.
  destruct (Nat.leb_spec 3 (length stripped)) as [H3|H3]; cbn [andb negb];
    [|split; [done|intros [[? ?] _]; lia]].
  destruct (Nat.leb_spec (length stripped) 60) as [H60|H60]; cbn [andb negb];
    [|split; [done|intros [[? ?] _]; lia]].
  destruct next; cbn [negb];
    [|split; [done|intros (_ & Hn & _); by apply Hnext in Hn]].
  destruct (List.filter (ch_isalpha U) stripped) as [|l letters] eqn:Hf;
    [split; [done|intros (_ & _ & Hl & _); by apply Hletters in Hl]|].
  rewrite <- Hf in *.
  assert (length (List.filter (ch_isalpha U) stripped) ≠ 0) as Hlen
    by (rewrite Hf; done).
  destruct (Nat.ltb_spec
              (Nat.max 2 (length stripped / 3))
              (count (λ ch, mem ch (pystr ",.;:!?")) stripped)) as [Hp|Hp];
    [split; [done|intros (_ & _ & _ & ? & _); lia]|].
  rewrite !orb_true_iff, upper_ratio_spec, capitalized_words_spec by done.
  split.
  - intros Hor. split; [done|]. split; [by apply Hnext|].
    split; [apply Hletters; by rewrite Hf|]. split; [done|tauto].
  - intros (_ & _ & _ & _ & Hor). tauto.
Qed.

(** C3, amended.  A line is detected as a title exactly when it is not
    blank, it is the first line or follows a blank line, and: its stripped
    length is between 3 and 60; a later line is not blank; it holds a
    letter; its punctuation marks are at most max(2, length // 3); and it
    is upper-case, or at least 65% of its letters are upper-case, or it is
    title-case, or each of its words that starts with a letter starts with
    an upper-case one. *)
Theorem detect_title_indices_spec (lines : list str) (idx : nat) :
  idx ∈ _detect_title_indices lines ↔
  ∃ line,
    lines !! idx = Some line
    ∧ strip U line ≠ []
    ∧ (idx = 0 ∨ ∃ prev, lines !! (idx - 1) = Some prev ∧ strip U prev = [])
    ∧ title_rule lines idx line.
Proof.
  rewrite detect_title_indices_elem. unfold detected. cbn [fst snd].
  split.
  - intros (line & Hl & Hdet). exists line.
    apply andb_true_iff in Hdet as [Hdet Hcand].
    apply andb_true_iff in Hdet as [Hnb Hprev].
    split_and!; [done|by apply non_blank_true| |by apply is_title_candidate_rule].
    destruct idx as [|idx]; [by left|right].
    replace (S idx - 1) with idx in * by lia.
    change (0 <? S idx) with true in Hprev. cbn [andb] in Hprev.
    destruct (lines !! idx) as [prev|] eqn:Hp.
    + exists prev. split; [done|]. apply non_blank_false.
      change (default [] (Some prev)) with prev in Hprev.
      by destruct (non_blank prev).
    + apply lookup_lt_Some in Hl. apply lookup_ge_None in Hp.
      exfalso. unfold str, char in *. lia.
  - intros (line & Hl & Hnb & Hprev & Hrule). exists line. split; [done|].
    apply non_blank_true in Hnb. apply is_title_candidate_rule in Hrule.
    rewrite Hnb, Hrule, andb_true_r. cbn [andb].
    destruct Hprev as [->|(prev & Hp & Hs)]; [done|].
    apply non_blank_false in Hs.
    unfold str, char in *. rewrite Hp.
    change (default [] (Some prev)) with prev.
    by rewrite Hs, andb_false_r.
Qed.

End Crawler.

(** Two lines the rule of the specification rejects and the crawler takes
    for titles: "A.." has two punctuation marks, more than a third of its
    three characters, and no word of "1a 2b 3c" starts with an upper-case
    letter. *)
Lemma title_candidate_counterexample :
  let lines1 := [pystr "A.."; pystr "govde"] in
  let lines2 := [pystr "1a 2b 3c"; pystr "govde"] in
  (0 ∈ _detect_title_indices corpus_db lines1
   ∧ spec_title_candidate corpus_db (pystr "A..") lines1 0 = false)
  ∧ (0 ∈ _detect_title_indices corpus_db lines2
     ∧ spec_title_candidate corpus_db (pystr "1a 2b 3c") lines2 0 = false).
Proof.
  intros lines1 lines2. split_and!.
  - apply (bool_decide_unpack _). vm_compute. reflexivity.
  - vm_compute. reflexivity.
  - apply (bool_decide_unpack _). vm_compute. reflexivity.
  - vm_compute. reflexivity.
Qed.

Example detect_titles_two_poems :
  _detect_title_indices corpus_db
    [pystr "KIZ ÇOCUĞU"; pystr "kapilari calan benim"; pystr "";
     pystr "Davet"; pystr "dortnala gelip"; pystr ""; pystr "son satir"]
  = [0; 3].
Proof. vm_compute. reflexivity. Qed.

(** The line of [tests/test_pdf_clean.py]. *)
Example replace_cid_sequences_test :
  _replace_cid_sequences corpus_db
    (pystr "aynı(cid:3)arkıları Otuzbe(cid:250)(cid:92)(cid:213)l")
  = pystr "aynı şarkıları Otuzbeşyıl".
Proof. vm_compute. reflexivity. Qed.

(** The substitution is one pass over the text: what a removal brings
    together is not read again. *)
Example replace_cid_sequences_one_pass :
  _replace_cid_sequences corpus_db (pystr "(cid:(cid:1)250)")
  = pystr "(cid:250)".
Proof. vm_compute. reflexivity. Qed.

Lemma replace_cid_sequences_spec_witness :
  pystr "999" ≠ []
  ∧ forallb (ch_isdecimal corpus_db) (pystr "999") = true
  ∧ CID_REPLACEMENTS !! pystr "999" = None
  ∧ _replace_cid_sequences corpus_db
      (pystr "a(cid:3)" ++ placeholder (pystr "999") ++ pystr "b")
    = _replace_cid_sequences corpus_db (pystr "a(cid:3)")
      ++ _replace_cid_sequences corpus_db (pystr "b").
Proof.
  assert (pystr "999" ≠ []) as Hne by discriminate.
  assert (forallb (ch_isdecimal corpus_db) (pystr "999") = true) as Hdec
    by reflexivity.
  assert (CID_REPLACEMENTS !! pystr "999" = None) as Hnone
    by (vm_compute; reflexivity).
  split_and!; [done|done|done|].
  exact (proj1 (proj2 (replace_cid_sequences_spec corpus_db))
           (pystr "a(cid:3)") (pystr "999") (pystr "b") Hne Hdec Hnone).
Defined.

(** ** Title blocks *)

Section TitleBlock.
Context (U : unicode_db).

(** The quotient [upper_ratio] is compared with [0.6] as it is with
    [0.65] in [_is_title_candidate]: the counts are at most 60, so the
    comparison of the floats is the comparison of the rationals. *)
Definition _is_title_continuation (line : str) : bool :=
  let stripped := strip U line in
  match stripped with
  | [] => false
  | _ =>
    if 60 <? length stripped then false
    else
      let letters := List.filter (ch_isalpha U) stripped in
      match letters with
      | [] => false
      | _ =>
        let upper_ratio :=
          (Z.of_nat (count (ch_isupper U) letters)
             # Pos.of_nat (length letters))%Q in
        if Qle_bool 0.6 upper_ratio then true
        else
          let words :=
            List.filter (existsb (ch_isalpha U)) (split U stripped) in
          if (length words <=? 4)
             && forallb
                  (λ word, isupper U (take 1 word)
                           || negb (isalpha U (take 1 word)))
                  (List.filter (λ word, match word with
                                        | [] => false
                                        | _ => true
                                        end) words)
          then true
          else false
      end
  end.

(** The loop of [_collect_title_block] over the lines from [current] on;
    [first] says that [current] is still [idx]. *)
Fixpoint collect_from (rest : list str) (first : bool) (parts : list str)
    (current : nat) : list str * nat :=
  match rest with
  | [] => (parts, current)
  | line :: rest =>
    let candidate := strip U line in
    match candidate with
    | [] => (parts, current)
    | _ =>
      if negb first && negb (_is_title_continuation candidate)
      then (parts, current)
      else collect_from rest false (parts ++ [candidate]) (S current)
    end
  end.

Definition _collect_title_block (lines : list str) (idx : nat) : str * nat :=
  let '(parts, current) := collect_from (drop idx lines) true [] idx in
  let title_text := join (pystr " ") parts in
  (title_text, current).

Lemma collect_from_spec (rest : list str) : ∀ first parts current,
  ∃ taken,
    collect_from rest first parts current
    = (parts ++ (strip U <$> taken), current + length taken)
    ∧ taken `prefix_of` rest
    ∧ (∀ i line, taken !! i = Some line →
         strip U line ≠ []
         ∧ (first = false ∨ 0 < i →
            _is_title_continuation (strip U line) = true))
    ∧ (∀ line, rest !! length taken = Some line →
         strip U line = []
         ∨ (first = false ∨ 0 < length taken)
           ∧ _is_title_continuation (strip U line) = false).
Proof.
  induction rest as [|l rest IH]; intros first parts current.
  - exists []. cbn. rewrite app_nil_r, Nat.add_0_r. split_and!; done.
  - cbn [collect_from].
    destruct (strip U l) as [|c cand] eqn:Hl.
    { exists []. cbn. rewrite app_nil_r, Nat.add_0_r.
      split_and!; [done|by apply prefix_nil|done|].
      intros line [= <-]. by left. }
    destruct (negb first && negb (_is_title_continuation (c :: cand))) eqn:Hstop.
    { exists []. cbn. rewrite app_nil_r, Nat.add_0_r.
      split_and!; [done|by apply prefix_nil|done|].
      intros line [= <-]. right. rewrite Hl.
      apply andb_true_iff in Hstop as [Hf Hc].
      split; [left; by destruct first|by destruct (_is_title_continuation _)]. }
    destruct (IH false (parts ++ [c :: cand]) (S current))
      as (taken & Hrun & Hpre & Hin & Hend).
    exists (l :: taken). split_and!.
    + etrans; [exact Hrun|]. cbn [fmap list_fmap length]. rewrite Hl.
      rewrite <- app_assoc. f_equal. lia.
    + by apply prefix_cons.
    + intros [|i] line; cbn [lookup list_lookup].
      * intros [= <-]. rewrite Hl. split; [done|].
        intros [->|?]; [|lia]. cbn [negb andb] in Hstop.
        by destruct (_is_title_continuation _).
      * intros Hi. destruct (Hin i line Hi) as [Hnb Hc].
        split; [done|]. intros _. apply Hc. by left.
    + cbn [length lookup list_lookup]. intros line Hline.
      destruct (Hend line Hline) as [?|[_ ?]]; [by left|right].
      split; [right; lia|done].
Qed.

(** X18.  The title block that starts at [idx] is the longest run of
    lines from [idx] on that are not blank and, after the first, continue
    a title; its text is the stripped lines joined by spaces, and the
    index returned is that of the line after the run.  The block of a
    detected title holds at least the title line, its text is not empty,
    and it ends before the next detected title. *)
Theorem collect_title_block_spec (lines : list str) (idx : nat) :
  let '(title_text, current) := _collect_title_block lines idx in
  idx ≤ current
  ∧ (idx < current → current ≤ length lines)
  ∧ title_text
    = join (pystr " ") (strip U <$> take (current - idx) (drop idx lines))
  ∧ (∀ i line, idx ≤ i < current → lines !! i = Some line →
       strip U line ≠ []
       ∧ (i ≠ idx → _is_title_continuation (strip U line) = true))
  ∧ (∀ line, lines !! current = Some line →
       strip U line = []
       ∨ current ≠ idx ∧ _is_title_continuation (strip U line) = false)
  ∧ (∀ next, next ∈ _detect_title_indices U lines → idx < next →
       current < next)
  ∧ (idx ∈ _detect_title_indices U lines → idx < current ∧ title_text ≠ []).
Proof.
  unfold _collect_title_block.
  destruct (collect_from_spec (drop idx lines) true [] idx)
    as (taken & -> & [after Hpre] & Hin & Hend).
  cbn [app].
  assert (∀ i line, idx ≤ i < idx + length taken → lines !! i = Some line →
            taken !! (i - idx) = Some line) as Htaken.
  { intros i line Hi Hline.
    assert (drop idx lines !! (i - idx) = Some line) as Hd
      by (rewrite lookup_drop; by replace (idx + (i - idx)) with i by lia).
    rewrite Hpre, lookup_app_l in Hd by lia. done. }
  assert (take (idx + length taken - idx) (drop idx lines) = taken) as Htake.
  { replace (idx + length taken - idx) with (length taken) by lia.
    by rewrite Hpre, take_app_length. }
  assert (∀ i line, idx ≤ i < idx + length taken → lines !! i = Some line →
            strip U line ≠ []
            ∧ (i ≠ idx → _is_title_continuation (strip U line) = true))
    as Hblock.
  { intros i line Hi Hline.
    destruct (Hin (i - idx) line (Htaken i line Hi Hline)) as [Hnb Hc].
    split; [done|]. intros Hne. apply Hc. right. lia. }
  split_and!.
  - lia.
  - intros Hlt.
    assert (length (drop idx lines) = length taken + length after) as Hlen
      by (by rewrite Hpre, length_app).
    rewrite length_drop in Hlen. lia.
  - by rewrite Htake.
  - done.
  - intros line Hline.
    assert (drop idx lines !! length taken = Some line) as Hd
      by (by rewrite lookup_drop).
    destruct (Hend line Hd) as [?|[[?|?] ?]]; [by left|done|right].
    split; [lia|done].
  - intros next Hnext Hlt.
    apply detect_title_indices_elem in Hnext as (line & Hline & Hdet).
    unfold detected in Hdet. cbn [fst snd] in Hdet.
    apply andb_true_iff in Hdet as [[_ Hprev]%andb_true_iff _].
    destruct (decide (next ≤ idx + length taken)) as [Hle|]; [exfalso|lia].
    assert (is_Some (lines !! (next - 1))) as [prev Hp].
    { apply lookup_lt_is_Some. apply lookup_lt_Some in Hline. lia. }
    destruct (Hblock (next - 1) prev ltac:(lia) Hp) as [Hnb _].
    apply non_blank_true in Hnb.
    assert ((0 <? next) = true) as H0 by (apply Nat.ltb_lt; lia).
    unfold str, char in *. rewrite Hp, H0 in Hprev.
    cbn [default from_option id] in Hprev.
    unfold str, char in *. rewrite Hnb in Hprev. done.
  - intros Hidx.
    apply detect_title_indices_elem in Hidx as (line & Hline & Hdet).
    unfold detected in Hdet. cbn [fst snd] in Hdet.
    apply andb_true_iff in Hdet as [[Hnb _]%andb_true_iff _].
    apply non_blank_true in Hnb.
    destruct taken as [|l taken].
    { exfalso. assert (drop idx lines !! 0 = Some line) as Hd
        by (rewrite lookup_drop; by rewrite Nat.add_0_r).
      destruct (Hend line Hd) as [?|[[?|?] _]]; [done|done|cbn in *; lia]. }
    split; [cbn [length]; lia|].
    assert (l = line) as ->.
    { assert (drop idx lines !! 0 = Some line) as Hd
        by (rewrite lookup_drop; by rewrite Nat.add_0_r).
      rewrite Hpre in Hd. by injection Hd. }
    cbn [fmap list_fmap]. destruct (strip U line) as [|c s] eqn:Hs; [done|].
    by destruct (strip U <$> taken).
Qed.

End TitleBlock.

(** ** [extract] *)

Section Extract.
Context (U : unicode_db).

(** [fetch_bytes] followed by [_parse_pdf]: the dicts of the poems found
    in the PDF at a URL, and the heap that holds them; [None] when the
    download raises. *)
Variable download : str → Base.heap → option (list Base.ref * Base.heap).

(** The loop over the poems; [seen] is [self._seen_hashes]. *)
Fixpoint extract_loop (self : Base.crawler) (pdf_url user : str)
    (poems : list Base.ref) (extracted : list Base.ref) (seen : gset hkey)
    (h : Base.heap) : result (list Base.ref * gset hkey * Base.heap) :=
  match poems with
  | [] => Ok (extracted, seen, h)
  | poem :: poems =>
    let doc_hash := get (default ∅ (h !! poem)) "hash" in
    if truthy doc_hash && bool_decide (key_of doc_hash ∈ seen) then
      extract_loop self pdf_url user poems extracted seen h
    else
      let seen :=
        if truthy doc_hash then {[key_of doc_hash]} ∪ seen else seen in
      match Base._finalize_payload self poem pdf_url user h with
      | Ok (payload, h) =>
        extract_loop self pdf_url user poems (extracted ++ [payload]) seen h
      | Raise e => Raise e
      end
  end.

Definition extract (self : Base.crawler) (link : option str) (user : str)
    (seen : gset hkey) (h : Base.heap)
  : result (list Base.ref * gset hkey * Base.heap) :=
  let pdf_url := strip U (default [] link) in
  match pdf_url with
  | [] => Ok ([], seen, h)
  | _ =>
    match download pdf_url h with
    | None => Ok ([], seen, h)
    | Some (poems, h) => extract_loop self pdf_url user poems [] seen h
    end
  end.

(** The dicts a list of references denotes. *)
Definition contents (h : Base.heap) (refs : list Base.ref) : list raw_record :=
  (λ r, default ∅ (h !! r)) <$> refs.

(** The poems [extract] reads for a link. *)
Definition downloaded (link : option str) (h : Base.heap) : list raw_record :=
  match strip U (default [] link) with
  | [] => []
  | pdf_url =>
    match download pdf_url h with
    | None => []
    | Some (poems, h) => contents h poems
    end
  end.

(** [out] holds the items of the dict that [_finalize_payload] returns for
    a record with the items [record], wherever the record lives. *)
Definition finalizes (self : Base.crawler) (link user : str)
    (record out : raw_record) : Prop :=
  ∀ (h : Base.heap) (r : Base.ref),
    h !! r = Some record →
    ∃ item h',
      Base._finalize_payload self r link user h = Ok (item, h')
      ∧ h' !! item = Some out.

(** A finalized payload has the hash of its record, and finalization
    leaves the dicts of the heap as they are. *)
Lemma finalize_payload_hash self record link user (h : Base.heap)
    (d : raw_record) item h' :
  h !! record = Some d →
  Base._finalize_payload self record link user h = Ok (item, h') →
  (∃ out, h' !! item = Some out ∧ out !! "hash" = d !! "hash"
          ∧ finalizes self link user d out)
  ∧ (∀ l, is_Some (h !! l) → h' !! l = h !! l).
Proof.
  intros Hd Hrun.
  pose proof (Base.finalize_payload_cases self record link user h d Hd)
    as Hcases.
  cbn zeta in Hcases. rewrite Hrun in Hcases.
  set (wd := Base.with_defaults self link user d) in *.
  set (payload := fresh (dom h)) in *.
  set (h1 := <[payload := wd]> h) in *.
  set (item1 := fresh (dom h1)) in *.
  assert (wd !! "hash" = d !! "hash") as Hwd
    by (by apply Base.with_defaults_other).
  assert (∀ l, is_Some (h !! l) → l ≠ payload) as Hp
    by (intros l Hl; by apply Base.fresh_ne).
  assert (∀ l, is_Some (h !! l) → h1 !! l = h !! l) as Hh1.
  { intros l Hl. unfold h1. rewrite lookup_insert_ne; [done|].
    apply not_eq_sym. by apply Hp. }
  assert (∀ l, is_Some (h !! l) → l ≠ item1) as Hi.
  { intros l Hl. apply Base.fresh_ne. by rewrite Hh1. }
  assert (∀ out, ∀ l, is_Some (h !! l) → <[item1 := out]> h1 !! l = h !! l)
    as Hh2.
  { intros out l Hl. rewrite lookup_insert_ne by (apply not_eq_sym; by apply Hi).
    by apply Hh1. }
  assert (∀ (h0 : Base.heap) r, h0 !! r = Some d →
            Base._finalize_payload self r link user h0
            = if negb (Base.safe_mode self)
              then Ok (fresh (dom h0), <[fresh (dom h0) := wd]> h0)
              else if truthy (get d "text_full") then
                match get d "text_full" with
                | VStr s =>
                  Ok (fresh (dom (<[fresh (dom h0) := wd]> h0)),
                      <[fresh (dom (<[fresh (dom h0) := wd]> h0))
                        := Base.redacted s wd]> (<[fresh (dom h0) := wd]> h0))
                | _ => Raise TypeError
                end
              else Ok (fresh (dom (<[fresh (dom h0) := wd]> h0)),
                       <[fresh (dom (<[fresh (dom h0) := wd]> h0)) := wd]>
                         (<[fresh (dom h0) := wd]> h0))) as Hany.
  { intros h0 r Hr.
    exact (Base.finalize_payload_cases self r link user h0 d Hr). }
  destruct (Base.safe_mode self); cbn [negb] in Hcases, Hany.
  - destruct (truthy (get d "text_full")).
    + destruct (get d "text_full") as [| |n|s]; try done.
      injection Hcases as -> ->. split; [|apply Hh2].
      exists (Base.redacted s wd). split; [by rewrite lookup_insert_eq|].
      split; [unfold Base.redacted; by rewrite !lookup_insert_ne|].
      intros h0 r Hr. rewrite (Hany h0 r Hr). do 2 eexists.
      split; [reflexivity|apply lookup_insert_eq].
    + injection Hcases as -> ->. split; [|apply Hh2].
      exists wd. split; [by rewrite lookup_insert_eq|]. split; [done|].
      intros h0 r Hr. rewrite (Hany h0 r Hr). do 2 eexists.
      split; [reflexivity|apply lookup_insert_eq].
  - injection Hcases as -> ->. split; [|apply Hh1].
    exists wd. split; [apply lookup_insert_eq|]. split; [done|].
    intros h0 r Hr. rewrite (Hany h0 r Hr). do 2 eexists.
    split; [reflexivity|apply lookup_insert_eq].
Qed.

Lemma keys_same_hash (as_ bs : list raw_record) :
  Forall2 (λ a b, a !! "hash" = b !! "hash") as_ bs →
  Dedup.keys as_ = Dedup.keys bs.
Proof.
  induction 1 as [|a b as_ bs Hab Hrest IH]; [done|].
  unfold Dedup.keys, Dedup.hashes in *.
  assert (get a "hash" = get b "hash") as Hget by (unfold get; by rewrite Hab).
  assert (Dedup.has_hash a = Dedup.has_hash b) as Hhas
    by (unfold Dedup.has_hash; by rewrite Hget).
  destruct (Dedup.has_hash b) eqn:Hb.
  - rewrite !filter_cons_True by done. rewrite !fmap_cons. by rewrite Hget, IH.
  - rewrite !filter_cons_False by (rewrite ?Hhas, ?Hb; discriminate). done.
Qed.

Lemma extract_loop_spec self pdf_url user (poems : list Base.ref) :
  ∀ extracted seen (h : Base.heap) extracted' seen' h',
  Forall (λ poem, is_Some (h !! poem)) poems →
  extract_loop self pdf_url user poems extracted seen h
  = Ok (extracted', seen', h') →
  ∃ payloads,
    extracted' = extracted ++ payloads
    ∧ Forall2 (λ out record,
                 out !! "hash" = record !! "hash"
                 ∧ finalizes self pdf_url user record out)
        (contents h' payloads) (Dedup.kept seen (contents h poems))
    ∧ (∀ k, k ∈ seen' ↔ k ∈ seen ∨ k ∈ Dedup.keys (contents h poems))
    ∧ (∀ l, is_Some (h !! l) → h' !! l = h !! l).
Proof.
  induction poems as [|poem poems IH];
    intros extracted seen h extracted' seen' h' Hall Hrun.
  - cbn in Hrun. injection Hrun as <- <- <-. exists [].
    rewrite app_nil_r. split_and!; [done|constructor| |done].
    intros k. unfold Dedup.keys, Dedup.hashes. cbn.
    rewrite elem_of_nil. tauto.
  - apply Forall_cons in Hall as [[d Hd] Hall].
    cbn [extract_loop] in Hrun. rewrite Hd in Hrun.
    cbn [default from_option id] in Hrun.
    cbn [contents fmap list_fmap]. rewrite Hd. cbn [default from_option id].
    fold (contents h poems).
    cbn [Dedup.kept]. unfold Dedup.has_hash.
    assert (∀ k, k ∈ Dedup.keys (d :: contents h poems)
                 ↔ (truthy (get d "hash") = true ∧ k = key_of (get d "hash"))
                   ∨ k ∈ Dedup.keys (contents h poems)) as Hkeys.
    { intros k. unfold Dedup.keys, Dedup.hashes.
      destruct (truthy (get d "hash")) eqn:Ht.
      - rewrite filter_cons_True by done. rewrite !fmap_cons, elem_of_cons.
        naive_solver.
      - rewrite filter_cons_False by (unfold Dedup.has_hash; by rewrite Ht).
        naive_solver. }
    destruct (truthy (get d "hash")) eqn:Ht; cbn [andb negb] in *.
    + case_bool_decide as Hseen.
      * destruct (IH _ _ _ _ _ _ Hall Hrun) as (payloads & -> & H2 & Hs & Hf).
        exists payloads. split_and!; [done|done| |done].
        intros k. rewrite Hs, Hkeys. naive_solver.
      * destruct (Base._finalize_payload self poem pdf_url user h)
          as [[payload h1]|e] eqn:Hfin; [|done].
        destruct (finalize_payload_hash _ _ _ _ _ _ _ _ Hd Hfin)
          as ((out & Hout & Hhash & Hfin') & Hframe).
        assert (Forall (λ poem, is_Some (h1 !! poem)) poems) as Hall1.
        { eapply Forall_impl; [exact Hall|]. intros p Hp. cbn.
          by rewrite Hframe. }
        assert (contents h1 poems = contents h poems) as Hcont.
        { unfold contents. apply Forall_fmap_ext.
          eapply Forall_impl; [exact Hall|]. intros p Hp. cbn.
          by rewrite Hframe. }
        destruct (IH _ _ _ _ _ _ Hall1 Hrun)
          as (payloads & -> & H2 & Hs & Hf).
        rewrite Hcont in H2, Hs.
        exists (payload :: payloads). split_and!.
        -- by rewrite <- app_assoc.
        -- cbn [contents fmap list_fmap]. constructor; [|done].
           rewrite Hf by (by rewrite Hout). by rewrite Hout.
        -- intros k. rewrite Hs, Hkeys, elem_of_union, elem_of_singleton.
           naive_solver.
        -- intros l Hl. rewrite Hf by (by rewrite Hframe). by apply Hframe.
    + destruct (Base._finalize_payload self poem pdf_url user h)
        as [[payload h1]|e] eqn:Hfin; [|done].
      destruct (finalize_payload_hash _ _ _ _ _ _ _ _ Hd Hfin)
        as ((out & Hout & Hhash & Hfin') & Hframe).
      assert (Forall (λ poem, is_Some (h1 !! poem)) poems) as Hall1.
      { eapply Forall_impl; [exact Hall|]. intros p Hp. cbn.
        by rewrite Hframe. }
      assert (contents h1 poems = contents h poems) as Hcont.
      { unfold contents. apply Forall_fmap_ext.
        eapply Forall_impl; [exact Hall|]. intros p Hp. cbn.
        by rewrite Hframe. }
      destruct (IH _ _ _ _ _ _ Hall1 Hrun)
        as (payloads & -> & H2 & Hs & Hf).
      rewrite Hcont in H2, Hs.
      exists (payload :: payloads). split_and!.
      * by rewrite <- app_assoc.
      * cbn [contents fmap list_fmap]. constructor; [|done].
        rewrite Hf by (by rewrite Hout). by rewrite Hout.
      * intros k. rewrite Hs, Hkeys. naive_solver.
      * intros l Hl. rewrite Hf by (by rewrite Hframe). by apply Hframe.
Qed.

Lemma kept_keys_sub (records : list raw_record) seen k :
  k ∈ Dedup.keys (Dedup.kept seen records) → k ∈ Dedup.keys records.
Proof.
  unfold Dedup.keys, Dedup.hashes.
  intros (v & -> & (r & -> & [Hh Hr]%list_elem_of_filter)%list_elem_of_fmap)
    %list_elem_of_fmap.
  apply list_elem_of_fmap. exists (get r "hash"). split; [done|].
  apply list_elem_of_fmap. exists r. split; [done|].
  apply list_elem_of_filter. split; [done|].
  eapply elem_of_sublist; [exact Hr|apply Dedup.kept_sublist].
Qed.

(** X19.  [extract] passes on, finalized and in order, the poems of the
    PDF that the dedupe stage would keep given the hashes the crawler has
    already seen: the payloads are, one for one and in order, what
    [_finalize_payload] returns for the kept poems with the stripped link,
    those without a hash included, and a poem is skipped exactly when its
    hash counts as true and was seen before, in an earlier call or earlier
    in this one.  The payloads of a call therefore carry pairwise
    different hashes, none of them seen before the call, and all of them
    are seen after it; on a new crawler the poems kept are those
    [dedupe_records] keeps.  An empty link and a failed download give no
    payload and change nothing. *)
Theorem extract_seen_hashes (self : Base.crawler) (link : option str)
    (user : str) (seen : gset hkey) (h : Base.heap)
    (extracted : list Base.ref) (seen' : gset hkey) (h' : Base.heap) :
  (∀ pdf_url poems h1, download pdf_url h = Some (poems, h1) →
     Forall (λ poem, is_Some (h1 !! poem)) poems) →
  extract self link user seen h = Ok (extracted, seen', h') →
  let payloads := contents h' extracted in
  let poems := downloaded link h in
  let pdf_url := strip U (default [] link) in
  Forall2 (λ out record, finalizes self pdf_url user record out)
    payloads (Dedup.kept seen poems)
  ∧ Forall2 (λ out record, out !! "hash" = record !! "hash")
      payloads (Dedup.kept seen poems)
  ∧ (seen = ∅ →
     Forall2 (λ out record, finalizes self pdf_url user record out)
       payloads (Dedup.dedupe_records poems))
  ∧ (∀ k, k ∈ seen' ↔ k ∈ seen ∨ k ∈ Dedup.keys poems)
  ∧ NoDup (Dedup.keys payloads)
  ∧ (∀ k, k ∈ Dedup.keys payloads → (k ∉ seen) ∧ (k ∈ seen'))
  ∧ (poems = [] → extracted = [] ∧ seen' = seen).
Proof.
  intros Halloc Hrun payloads poems pdf_url.
  assert (Forall2 (λ out record,
                     out !! "hash" = record !! "hash"
                     ∧ finalizes self pdf_url user record out)
            payloads (Dedup.kept seen poems)
          ∧ (∀ k, k ∈ seen' ↔ k ∈ seen ∨ k ∈ Dedup.keys poems))
    as [Hboth Hseen].
  { unfold payloads, poems, pdf_url, downloaded. unfold extract in Hrun.
    destruct (strip U (default [] link)) as [|c url] eqn:Hurl.
    { injection Hrun as <- <- <-. split; [constructor|].
      intros k. unfold Dedup.keys, Dedup.hashes. cbn.
      rewrite elem_of_nil. tauto. }
    destruct (download (c :: url) h) as [[ps h1]|] eqn:Hd.
    - destruct (extract_loop_spec _ _ _ _ _ _ _ _ _ _
                  (Halloc _ _ _ Hd) Hrun) as (pl & -> & H2 & Hs & _).
      done.
    - injection Hrun as <- <- <-. split; [constructor|].
      intros k. unfold Dedup.keys, Dedup.hashes. cbn.
      rewrite elem_of_nil. tauto. }
  assert (Forall2 (λ out record, out !! "hash" = record !! "hash")
            payloads (Dedup.kept seen poems)) as Hpay.
  { eapply Forall2_impl; [exact Hboth|]. by intros ? ? [? _]. }
  assert (Forall2 (λ out record, finalizes self pdf_url user record out)
            payloads (Dedup.kept seen poems)) as Hfin.
  { eapply Forall2_impl; [exact Hboth|]. by intros ? ? [_ ?]. }
  pose proof (keys_same_hash _ _ Hpay) as Hkeys.
  split_and!.
  - done.
  - done.
  - intros ->. by rewrite Dedup.dedupe_records_kept.
  - done.
  - rewrite Hkeys. apply Dedup.kept_keys_NoDup.
  - intros k. rewrite Hkeys. intros Hk. split.
    + by apply Dedup.kept_keys_fresh in Hk.
    + apply Hseen. right. by apply kept_keys_sub in Hk.
  - intros Hnil. rewrite Hnil in Hpay, Hseen. cbn in Hpay.
    apply Forall2_nil_inv_r in Hpay.
    split.
    + unfold payloads, contents in Hpay. by apply fmap_nil_inv in Hpay.
    + apply set_eq. intros k. rewrite Hseen.
      unfold Dedup.keys, Dedup.hashes. cbn. rewrite elem_of_nil. tauto.
Qed.

End Extract.

(** A PDF with two poems that carry the same hash, read by a new
    crawler. *)
Definition two_poems : Base.heap :=
  {[ 0 := {[ "title" := VStr (pystr "Davet"); "hash" := VStr (pystr "ab12") ]};
     1 := {[ "title" := VStr (pystr "DAVET"); "hash" := VStr (pystr "ab12") ]} ]}.

Lemma extract_seen_hashes_witness :
  let download := λ (_ : str) (_ : Base.heap), Some ([0; 1], two_poems) in
  let self := Base.Crawler (pystr "pdf_poems") false in
  (∀ pdf_url poems h1, download pdf_url ∅ = Some (poems, h1) →
     Forall (λ poem, is_Some (h1 !! poem)) poems)
  ∧ ∃ extracted seen' h',
      extract corpus_db download self (Some (pystr " https://example.org/a.pdf"))
        (pystr "pdf") ∅ ∅ = Ok (extracted, seen', h')
      ∧ length extracted = 1
      ∧ NoDup (Dedup.keys (contents h' extracted)).
Proof.
  intros download self.
  assert (∀ pdf_url poems h1, download pdf_url ∅ = Some (poems, h1) →
            Forall (λ poem, is_Some (h1 !! poem)) poems) as Halloc.
  { intros pdf_url poems h1 [= <- <-].
    repeat constructor; eexists; reflexivity. }
  split; [exact Halloc|].
  destruct (extract corpus_db download self
              (Some (pystr " https://example.org/a.pdf")) (pystr "pdf") ∅ ∅)
    as [[[extracted seen'] h']|e] eqn:Hrun.
  - exists extracted, seen', h'. split; [reflexivity|].
    destruct (extract_seen_hashes corpus_db download self _ _ _ _ _ _ _
                Halloc Hrun) as (Hkept & _ & _ & _ & Hnodup & _).
    split; [|exact Hnodup].
    apply Forall2_length in Hkept. unfold contents in Hkept.
    rewrite length_fmap in Hkept. rewrite Hkept. reflexivity.
  - assert (match extract corpus_db download self
                  (Some (pystr " https://example.org/a.pdf")) (pystr "pdf") ∅ ∅
            with Ok _ => True | Raise _ => False end) as Hok
      by (vm_compute; exact I).
    rewrite Hrun in Hok. destruct Hok.
Defined.

End PdfPoems.

(* ===================================================================== *)
(** * [src/etl/steps/normalize.py] *)
(* ===================================================================== *)

Module Normalize.

(** ** [datetime]

    A [date] holds a year, a month and a day; the constructor of the
    library accepts the days of the proleptic Gregorian calendar of the
    years 1 to 9999. *)
Record date := Date { year : N; month : N; day : N }.

Definition is_leap (y : N) : bool :=
  (((y mod 4 =? 0) && negb (y mod 100 =? 0)) || (y mod 400 =? 0))%N.

Definition days_in_month (y m : N) : N :=
  if (m =? 2)%N then (if is_leap y then 29 else 28)%N
  else if ((m =? 4) || (m =? 6) || (m =? 9) || (m =? 11))%N then 30%N
  else 31%N.

Definition valid_date (d : date) : bool :=
  between 1 9999 (year d) && between 1 12 (month d)
  && between 1 (days_in_month (year d) (month d)) (day d).

(** ["%0*d"] on a number below [10 ^ width] *)
Fixpoint zero_pad (width : nat) (n : N) : str :=
  match width with
  | 0 => []
  | S w => zero_pad w (n / 10) ++ [(48 + n mod 10)%N]
  end.

(** [d.isoformat()] *)
Definition isoformat (d : date) : str :=
  zero_pad 4 (year d) ++ pystr "-" ++ zero_pad 2 (month d)
  ++ pystr "-" ++ zero_pad 2 (day d).

(** ** [datetime.strptime]

    A format is a sequence of directives and literal characters.  The
    library turns it into a regular expression in which a directive is a
    group of alternatives, each a sequence of character classes, matches
    the expression at the start of the string and asks that nothing of the
    string be left. *)
Inductive item :=
| IYear
| IMonth
| IDay
| ILit (c : char).

Fixpoint parse_format (fmt : str) : option (list item) :=
  match fmt with
  | [] => Some []
  | c :: fmt' =>
    if (c =? 37)%N then
      match fmt' with
      | [] => None
      | d :: fmt'' =>
        items ← parse_format fmt'';
        if (d =? 89)%N then Some (IYear :: items)
        else if (d =? 109)%N then Some (IMonth :: items)
        else if (d =? 100)%N then Some (IDay :: items)
        else None
      end
    else items ← parse_format fmt'; Some (ILit c :: items)
  end.

Section Strptime.
Context (U : unicode_db).

Definition cls : Type := char → bool.

(** The groups of [_strptime.TimeRE]:
    [%Y] is [\d\d\d\d], [%m] is [1[0-2]|0[1-9]|[1-9]] and
    [%d] is [3[0-1]|[1-2]\d|0[1-9]|[1-9]| [1-9]]. *)
Definition alternatives (it : item) : list (list cls) :=
  let d := ch_isdecimal U in
  match it with
  | IYear => [[d; d; d; d]]
  | IMonth => [[N.eqb 49; between 48 50]; [N.eqb 48; between 49 57];
               [between 49 57]]
  | IDay => [[N.eqb 51; between 48 49]; [between 49 50; d];
             [N.eqb 48; between 49 57]; [between 49 57];
             [N.eqb 32; between 49 57]]
  | ILit c => [[N.eqb c]]
  end.

(** One alternative at the head of [s]: the text it matches and the rest. *)
Fixpoint match_classes (cs : list cls) (s : str) : option (str * str) :=
  match cs, s with
  | [], _ => Some ([], s)
  | p :: cs', c :: s' =>
    if p c then
      '(tok, rest) ← match_classes cs' s'; Some (c :: tok, rest)
    else None
  | _ :: _, [] => None
  end.

(** All the ways the items match at the head of [s], in the order in
    which a backtracking matcher finds them: the groups and the rest. *)
Fixpoint match_items (items : list item) (s : str)
  : list (list (item * str) * str) :=
  match items with
  | [] => [([], s)]
  | it :: items' =>
    flat_map
      (λ '(tok, rest),
         map (λ '(groups, rest'), ((it, tok) :: groups, rest'))
             (match_items items' rest))
      (omap (λ cs, match_classes cs s) (alternatives it))
  end.

(** [int(tok)] on the text of a group: decimal digits after optional
    spaces *)
Definition int_of (tok : str) : N :=
  fold_left
    (λ acc c, if (c =? 32)%N then acc else (10 * acc + ch_decimal_value U c)%N)
    tok 0%N.

Definition group_value (groups : list (item * str)) (it : item) (dflt : N)
  : N :=
  match List.find (λ g, match g.1, it with
                        | IYear, IYear | IMonth, IMonth | IDay, IDay => true
                        | _, _ => false
                        end) groups with
  | Some g => int_of g.2
  | None => dflt
  end.

(** [datetime.strptime(value, fmt).date()], [None] for [ValueError] *)
Definition strptime (value fmt : str) : option date :=
  items ← parse_format fmt;
  match match_items items value with
  | (groups, []) :: _ =>
    let d := Date (group_value groups IYear 1900) (group_value groups IMonth 1)
                  (group_value groups IDay 1) in
    if valid_date d then Some d else None
  | _ => None
  end.

(** ** [_normalize_date] *)

(** [datetime.fromisoformat(value).date()], [None] for [ValueError].  The
    strings it accepts depend on the version of the interpreter. *)
Variable fromisoformat : str → option date.

Definition DATE_FORMATS : list str :=
  [pystr "%Y-%m-%d"; pystr "%d.%m.%Y"; pystr "%d/%m/%Y"; pystr "%Y/%m/%d"].

(** The loop over [DATE_FORMATS]: the first format that parses. *)
Fixpoint first_format (value : str) (formats : list str) : option date :=
  match formats with
  | [] => None
  | fmt :: formats' =>
    match strptime value fmt with
    | Some parsed => Some parsed
    | None => first_format value formats'
    end
  end.

Definition _normalize_date (value : option str) : option str :=
  match value with
  | None | Some [] => None
  | Some value =>
    let value := strip U value in
    match value with
    | [] => None
    | _ =>
      match fromisoformat value with
      | Some parsed => Some (isoformat parsed)
      | None =>
        match first_format value DATE_FORMATS with
        | Some parsed => Some (isoformat parsed)
        | None =>
          if (length value =? 4) && isdigit U value
          then Some (value ++ pystr "-01-01")
          else Some value
        end
      end
    end
  end.

End Strptime.

(** The date-only form [YYYY-MM-DD], which every version of
    [fromisoformat] accepts. *)
Definition fromisoformat_date (value : str) : option date :=
  match value with
  | [y1; y2; y3; y4; s1; m1; m2; s2; d1; d2] =>
    if forallb (between 48 57) [y1; y2; y3; y4; m1; m2; d1; d2]
       && (s1 =? 45)%N && (s2 =? 45)%N
    then
      let v a := (a - 48)%N in
      let d := Date (1000 * v y1 + 100 * v y2 + 10 * v y3 + v y4)
                    (10 * v m1 + v m2) (10 * v d1 + v d2) in
      if valid_date d then Some d else None
    else None
  | _ => None
  end.

Section NormalizeDate.
Context (U : unicode_db).
Variable fromisoformat : str → option date.

(** ** Literal characters of a format *)

Lemma match_classes_app cs : ∀ s tok rest,
  match_classes cs s = Some (tok, rest) → s = tok ++ rest.
Proof.
  induction cs as [|p cs IH]; intros s tok rest; simpl.
  - by intros [= <- <-].
  - destruct s as [|c s]; [done|]. destruct (p c); [|done].
    destruct (match_classes cs s) as [[tok' rest']|] eqn:Hm; [|done].
    simpl. intros [= <- <-]. by rewrite (IH _ _ _ Hm).
Qed.

(** A string matched by a format holds every literal character of it. *)
Lemma match_items_literal items : ∀ s groups rest c,
  (groups, rest) ∈ match_items U items s → ILit c ∈ items → c ∈ s.
Proof.
  induction items as [|it items IH]; intros s groups rest c Hin Hlit.
  - by apply elem_of_nil in Hlit.
  - cbn [match_items] in Hin.
    apply list_elem_of_In, in_flat_map in Hin as ([tok rest1] & Halt & Hin).
    apply list_elem_of_In, list_elem_of_omap in Halt as (cs & Hcs & Hm).
    apply in_map_iff in Hin as ([groups' rest'] & _ & Hin).
    apply list_elem_of_In in Hin.
    apply elem_of_cons in Hlit as [<-|Hlit].
    + cbn [alternatives] in Hcs. apply list_elem_of_singleton in Hcs as ->.
      destruct s as [|c' s]; [done|]. cbn in Hm.
      destruct (N.eqb_spec c c') as [->|]; [|done]. by left.
    + rewrite (match_classes_app _ _ _ _ Hm).
      apply elem_of_app. right. by apply (IH _ _ _ _ Hin).
Qed.

Lemma strptime_literal value fmt items d c :
  parse_format fmt = Some items →
  strptime U value fmt = Some d →
  ILit c ∈ items → c ∈ value.
Proof.
  intros Hfmt Hs Hlit. unfold strptime in Hs. rewrite Hfmt in Hs. simpl in Hs.
  destruct (match_items U items value) as [|[groups rest] ms] eqn:Hm; [done|].
  apply (match_items_literal items value groups rest); [|done].
  rewrite Hm. by left.
Qed.

Lemma date_formats_parsed :
  parse_format <$> DATE_FORMATS
  = [Some [IYear; ILit 45; IMonth; ILit 45; IDay];
     Some [IDay; ILit 46; IMonth; ILit 46; IYear];
     Some [IDay; ILit 47; IMonth; ILit 47; IYear];
     Some [IYear; ILit 47; IMonth; ILit 47; IDay]]%N.
Proof. vm_compute. reflexivity. Qed.

(** A string without the literal character of a format does not parse. *)
Lemma strptime_no_literal value fmt items c :
  parse_format fmt = Some items → ILit c ∈ items → c ∉ value →
  strptime U value fmt = None.
Proof.
  intros Hfmt Hlit Hc.
  destruct (strptime U value fmt) as [d|] eqn:Hs; [|done].
  exfalso. apply Hc. by apply (strptime_literal value fmt items d c).
Qed.

(** A string without "-", "." and "/" matches no format of the list. *)
Lemma first_format_no_separator (value : str) :
  45%N ∉ value → 46%N ∉ value → 47%N ∉ value →
  first_format U value DATE_FORMATS = None.
Proof.
  intros H45 H46 H47.
  assert (parse_format (pystr "%Y-%m-%d")
          = Some [IYear; ILit 45; IMonth; ILit 45; IDay]%N) as Hp1
    by (vm_compute; reflexivity).
  assert (parse_format (pystr "%d.%m.%Y")
          = Some [IDay; ILit 46; IMonth; ILit 46; IYear]%N) as Hp2
    by (vm_compute; reflexivity).
  assert (parse_format (pystr "%d/%m/%Y")
          = Some [IDay; ILit 47; IMonth; ILit 47; IYear]%N) as Hp3
    by (vm_compute; reflexivity).
  assert (parse_format (pystr "%Y/%m/%d")
          = Some [IYear; ILit 47; IMonth; ILit 47; IDay]%N) as Hp4
    by (vm_compute; reflexivity).
  unfold DATE_FORMATS. cbn [first_format].
  rewrite (strptime_no_literal _ _ _ 45%N Hp1), (strptime_no_literal _ _ _ 46%N Hp2),
    (strptime_no_literal _ _ _ 47%N Hp3), (strptime_no_literal _ _ _ 47%N Hp4);
    try done; apply list_elem_of_In; simpl; tauto.
Qed.

Lemma isdigit_no_char (value : str) (c : char) :
  isdigit U value = true → ch_isdigit U c = false → c ∉ value.
Proof.
  intros Hd Hc Hin. unfold isdigit in Hd.
  destruct value as [|a value]; [done|].
  rewrite forallb_forall in Hd. apply list_elem_of_In, Hd in Hin.
  by rewrite Hc in Hin.
Qed.

Lemma first_format_digits (value : str) :
  isdigit U value = true → first_format U value DATE_FORMATS = None.
Proof.
  intros Hd. apply first_format_no_separator;
    by apply isdigit_no_char.
Qed.

Lemma first_format_Some value before fmt after d :
  Forall (λ f, strptime U value f = None) before →
  strptime U value fmt = Some d →
  first_format U value (before ++ fmt :: after) = Some d.
Proof.
  intros Hb Hs. induction Hb as [|f before Hf _ IH]; simpl.
  - by rewrite Hs.
  - by rewrite Hf.
Qed.

Lemma first_format_None value formats :
  Forall (λ f, strptime U value f = None) formats →
  first_format U value formats = None.
Proof.
  intros Hall. induction Hall as [|f formats Hf _ IH]; simpl; [done|].
  by rewrite Hf.
Qed.

Lemma normalize_date_stripped value :
  strip U value ≠ [] →
  _normalize_date U fromisoformat (Some value)
  = match fromisoformat (strip U value) with
    | Some parsed => Some (isoformat parsed)
    | None =>
      match first_format U (strip U value) DATE_FORMATS with
      | Some parsed => Some (isoformat parsed)
      | None =>
        if (length (strip U value) =? 4) && isdigit U (strip U value)
        then Some (strip U value ++ pystr "-01-01")
        else Some (strip U value)
      end
    end.
Proof.
  intros Hs. unfold _normalize_date.
  destruct value as [|c value]; [done|].
  by destruct (strip U (c :: value)).
Qed.

(** C6, amended.  [None], the empty string and a string of whitespace give
    [None].  Otherwise the stripped string is tried as an ISO date, then
    against "%Y-%m-%d", "%d.%m.%Y", "%d/%m/%Y" and "%Y/%m/%d" in this
    order, and the first date that parses is returned in the form
    yyyy-mm-dd; a string of four digits that is no ISO date gives
    "<digits>-01-01"; a string that matches nothing is returned stripped of
    its surrounding whitespace. *)
Theorem normalize_date_spec (value : str) :
  let s := strip U value in
  DATE_FORMATS
  = [pystr "%Y-%m-%d"; pystr "%d.%m.%Y"; pystr "%d/%m/%Y"; pystr "%Y/%m/%d"]
  ∧ _normalize_date U fromisoformat None = None
  ∧ (s = [] → _normalize_date U fromisoformat (Some value) = None)
  ∧ (s ≠ [] →
     (∀ d, fromisoformat s = Some d →
        _normalize_date U fromisoformat (Some value) = Some (isoformat d))
     ∧ (∀ before fmt after d,
          fromisoformat s = None →
          DATE_FORMATS = before ++ fmt :: after →
          Forall (λ f, strptime U s f = None) before →
          strptime U s fmt = Some d →
          _normalize_date U fromisoformat (Some value) = Some (isoformat d))
     ∧ (fromisoformat s = None → length s = 4 → isdigit U s = true →
        _normalize_date U fromisoformat (Some value)
        = Some (s ++ pystr "-01-01"))
     ∧ (fromisoformat s = None →
        Forall (λ f, strptime U s f = None) DATE_FORMATS →
        ¬ (length s = 4 ∧ isdigit U s = true) →
        _normalize_date U fromisoformat (Some value) = Some s)).
Proof.
  intros s. split; [done|]. split; [done|]. split.
  { intros Hs. unfold _normalize_date. destruct value as [|c value]; [done|].
    fold s. by rewrite Hs. }
  intros Hs. rewrite (normalize_date_stripped value Hs). fold s.
  split_and!.
  - by intros d ->.
  - intros before fmt after d -> -> Hb Hf.
    by rewrite (first_format_Some _ _ _ _ _ Hb Hf).
  - intros -> Hlen Hd. rewrite (first_format_digits _ Hd).
    rewrite Hd. by rewrite Hlen.
  - intros -> Hall Hno. rewrite (first_format_None _ _ Hall).
    destruct (Nat.eqb_spec (length s) 4) as [Hlen|Hlen]; [|done].
    destruct (isdigit U s) eqn:Hd; [|done].
    exfalso. by apply Hno.
Qed.

End NormalizeDate.

Example normalize_date_dotted :
  _normalize_date corpus_db fromisoformat_date (Some (pystr "05.03.1938"))
  = Some (pystr "1938-03-05").
Proof. vm_compute. reflexivity. Qed.

Example normalize_date_slashed :
  _normalize_date corpus_db fromisoformat_date (Some (pystr "5/3/1938"))
  = Some (pystr "1938-03-05")
  ∧ _normalize_date corpus_db fromisoformat_date (Some (pystr "1938/3/5"))
    = Some (pystr "1938-03-05").
Proof. split; vm_compute; reflexivity. Qed.

Example normalize_date_no_such_day :
  _normalize_date corpus_db fromisoformat_date (Some (pystr "31.02.1938"))
  = Some (pystr "31.02.1938").
Proof. vm_compute. reflexivity. Qed.

(** A string that matches no format comes back without its surrounding
    whitespace, and a string of whitespace gives [None]: neither is
    returned unchanged. *)
Lemma normalize_date_counterexample :
  fromisoformat_date (pystr "  Ocak 1938 ") = None
  ∧ Forall (λ f, strptime corpus_db (pystr "  Ocak 1938 ") f = None) DATE_FORMATS
  ∧ _normalize_date corpus_db fromisoformat_date (Some (pystr "  Ocak 1938 "))
    = Some (pystr "Ocak 1938")
  ∧ pystr "Ocak 1938" ≠ pystr "  Ocak 1938 "
  ∧ _normalize_date corpus_db fromisoformat_date (Some (pystr "   ")) = None.
Proof.
  split_and!; try (vm_compute; reflexivity).
  - repeat constructor.
  - discriminate.
Qed.

Lemma normalize_date_spec_witness :
  strip corpus_db (pystr " 1902 ") ≠ []
  ∧ fromisoformat_date (strip corpus_db (pystr " 1902 ")) = None
  ∧ length (strip corpus_db (pystr " 1902 ")) = 4
  ∧ isdigit corpus_db (strip corpus_db (pystr " 1902 ")) = true
  ∧ _normalize_date corpus_db fromisoformat_date (Some (pystr " 1902 "))
    = Some (pystr "1902-01-01").
Proof.
  assert (strip corpus_db (pystr " 1902 ") ≠ []) as Hs by discriminate.
  split_and!; [done|reflexivity|reflexivity|reflexivity|].
  exact (proj1 (proj2 (proj2
           (proj2 (proj2 (proj2
              (normalize_date_spec corpus_db fromisoformat_date
                 (pystr " 1902 ")))) Hs)))
           eq_refl eq_refl eq_refl).
Defined.

(** ** [normalize_records] *)

(** The exceptions of the stage: [TypeError] from [unicodedata.normalize]
    on a value that is no string, [AttributeError] from [value.strip] on
    one. *)
Inductive error :=
| Builtin (e : exn)
| AttributeError.

Section Records.
Context (U : unicode_db).
Variable fromisoformat : str → option date.
Variables nfc nfkd : str → str.
Variable is_Mn : char → bool.
(** [int(s)] on a string, [None] for [ValueError] *)
Variable int : str → option Z.
(** [now()], the reading of the clock at a tick *)
Variable now : nat → str.

(** [clean(v)] on the value of a field *)
Definition clean_value (v : value) : error + value :=
  if negb (truthy v) then inr (VStr [])
  else
    match v with
    | VStr s => inr (VStr (Text.clean U nfc nfkd is_Mn s))
    | _ => inl (Builtin TypeError)
    end.

(** [_normalize_date(v)] on the value of a field *)
Definition normalize_date_value (v : value) : error + value :=
  if negb (truthy v) then inr VNone
  else
    match v with
    | VStr s =>
      inr match _normalize_date U fromisoformat (Some s) with
          | Some iso => VStr iso
          | None => VNone
          end
    | _ => inl AttributeError
    end.

Definition normalize_record (record : raw_record) (t : nat)
  : error + raw_record * nat :=
  let item := record in
  match clean_value (default (VStr []) (item !! "title")) with
  | inl e => inl e
  | inr title =>
    let item := <["title" := title]> item in
    match clean_value (default (VStr []) (item !! "summary")) with
    | inl e => inl e
    | inr summary =>
      let item := <["summary" := summary]> item in
      let text_full := default (VStr []) (item !! "text_full") in
      let item :=
        match text_full with
        | VStr s => <["text_full" := VStr (strip U s)]> item
        | _ => item
        end in
      let item :=
        <["lang" := por (get item "lang") (VStr (pystr "tr"))]> item in
      let item :=
        <["type" := por (por (get item "type") (get item "work_type"))
                        (VStr (pystr "unknown"))]> item in
      match normalize_date_value (get item "date") with
      | inl e => inl e
      | inr date =>
        let item := <["date" := date]> item in
        let item :=
          match item !! "year" with
          | Some (VStr s) =>
            <["year" := match int s with
                        | Some n => VInt n
                        | None => VNone
                        end]> item
          | _ => item
          end in
        let item := setdefault "author" (VStr (pystr "Nazim Hikmet")) item in
        let item := setdefault "license" (VStr (pystr "unknown")) item in
        let item := setdefault "created_at" (VStr (now t)) item in
        inr (item, S t)
      end
    end
  end.

Fixpoint normalize_records (records : list raw_record) (t : nat)
  : error + list raw_record * nat :=
  match records with
  | [] => inr ([], t)
  | record :: records =>
    match normalize_record record t with
    | inl e => inl e
    | inr (item, t) =>
      match normalize_records records t with
      | inl e => inl e
      | inr (normalized, t) => inr (item :: normalized, t)
      end
    end
  end.

(** ** The fields of a normalized record *)

(** A value [clean] and [_normalize_date] take: a string, or a value that
    counts as false. *)
Definition is_text (v : value) : bool :=
  negb (truthy v) || match v with VStr _ => true | _ => false end.

Lemma setdefault_lookup (k k' : string) (v : value) (d : raw_record) :
  setdefault k v d !! k'
  = if decide (k = k') then Some (default v (d !! k)) else d !! k'.
Proof.
  unfold setdefault. destruct (decide (k = k')) as [<-|Hne].
  - destruct (d !! k) eqn:Hk; [done|]. by rewrite lookup_insert_eq.
  - destruct (d !! k); [done|]. by rewrite lookup_insert_ne.
Qed.

(** The assignments that depend on what the item holds. *)
Definition strip_text_full (item : raw_record) : raw_record :=
  match default (VStr []) (item !! "text_full") with
  | VStr s => <["text_full" := VStr (strip U s)]> item
  | _ => item
  end.

Definition convert_year (item : raw_record) : raw_record :=
  match item !! "year" with
  | Some (VStr s) =>
    <["year" := match int s with
                | Some n => VInt n
                | None => VNone
                end]> item
  | _ => item
  end.

Lemma strip_text_full_lookup (item : raw_record) (k : string) :
  strip_text_full item !! k
  = if decide ("text_full" = k) then
      Some match default (VStr []) (item !! "text_full") with
           | VStr s => VStr (strip U s)
           | v => v
           end
    else item !! k.
Proof.
  unfold strip_text_full. destruct (decide ("text_full" = k)) as [<-|Hne].
  - destruct (item !! "text_full") as [[]|] eqn:Hv; cbn [default from_option id];
      rewrite ?lookup_insert_eq; done.
  - destruct (default (VStr []) (item !! "text_full"));
      rewrite ?lookup_insert_ne by done; done.
Qed.

Lemma convert_year_lookup (item : raw_record) (k : string) :
  "year" ≠ k → convert_year item !! k = item !! k.
Proof.
  intros Hne. unfold convert_year.
  destruct (item !! "year") as [[]|]; rewrite ?lookup_insert_ne by done; done.
Qed.

Lemma clean_value_inr v w :
  clean_value v = inr w →
  is_text v = true
  ∧ w = VStr match v with
             | VStr s => Text.clean U nfc nfkd is_Mn s
             | _ => []
             end.
Proof.
  unfold clean_value, is_text.
  destruct v as [|[]|n|[|c s]]; cbn [truthy negb orb]; try (by intros [= <-]).
  destruct (n =? 0)%Z; cbn [negb]; [by intros [= <-]|done].
Qed.

Lemma clean_value_inl v e :
  clean_value v = inl e → is_text v = false ∧ e = Builtin TypeError.
Proof.
  unfold clean_value, is_text.
  destruct v as [|[]|n|[|c s]]; cbn [truthy negb orb]; try done;
    try (by intros [= <-]).
  destruct (n =? 0)%Z; cbn [negb]; [done|by intros [= <-]].
Qed.

Lemma normalize_date_value_inl v e :
  normalize_date_value v = inl e → is_text v = false ∧ e = AttributeError.
Proof.
  unfold normalize_date_value, is_text.
  destruct v as [|[]|n|[|c s]]; cbn [truthy negb orb]; try done;
    try (by intros [= <-]).
  destruct (n =? 0)%Z; cbn [negb]; [done|by intros [= <-]].
Qed.

(** The keys [normalize_records] writes. *)
Definition normalized_keys : list string :=
  ["title"; "summary"; "text_full"; "lang"; "type"; "date"; "year";
   "author"; "license"; "created_at"].

Lemma normalize_record_inr record t item t' :
  normalize_record record t = inr (item, t') →
  t' = S t
  ∧ item !! "title"
    = Some (VStr match get record "title" with
                 | VStr s => Text.clean U nfc nfkd is_Mn s
                 | _ => []
                 end)
  ∧ item !! "summary"
    = Some (VStr match get record "summary" with
                 | VStr s => Text.clean U nfc nfkd is_Mn s
                 | _ => []
                 end)
  ∧ item !! "text_full"
    = Some match default (VStr []) (record !! "text_full") with
           | VStr s => VStr (strip U s)
           | v => v
           end
  ∧ item !! "lang" = Some (por (get record "lang") (VStr (pystr "tr")))
  ∧ item !! "type"
    = Some (por (por (get record "type") (get record "work_type"))
                (VStr (pystr "unknown")))
  ∧ is_Some (item !! "date")
  ∧ item !! "author"
    = Some (default (VStr (pystr "Nazim Hikmet")) (record !! "author"))
  ∧ item !! "license"
    = Some (default (VStr (pystr "unknown")) (record !! "license"))
  ∧ item !! "created_at"
    = Some (default (VStr (now t)) (record !! "created_at"))
  ∧ (∀ k, k ∉ normalized_keys → item !! k = record !! k).
Proof.
  unfold normalize_record.
  destruct (clean_value (default (VStr []) (record !! "title")))
    as [e|title] eqn:Htitle; [done|].
  rewrite lookup_insert_ne by done.
  destruct (clean_value (default (VStr []) (record !! "summary")))
    as [e|summary] eqn:Hsummary; [done|].
  apply clean_value_inr in Htitle as [_ ->], Hsummary as [_ ->].
  destruct (normalize_date_value _) as [e|date] eqn:Hdate; [done|].
  intros [= <- <-].
  split; [done|].
  change (match default (VStr []) (?item !! "text_full") with
          | VStr s => <["text_full" := VStr (strip U s)]> ?item
          | _ => ?item
          end) with (strip_text_full item).
  set (item1 := strip_text_full _).
  set (item2 := <["date" := date]> _).
  change (match item2 !! "year" with
          | Some (VStr s) =>
            <["year" := match int s with
                        | Some n => VInt n
                        | None => VNone
                        end]> item2
          | _ => item2
          end) with (convert_year item2).
  subst item2.
  assert (∀ k, k ≠ "title" → k ≠ "summary" → k ≠ "text_full" →
            item1 !! k = record !! k) as Hitem1.
  { intros k H1 H2 H3. unfold item1.
    rewrite strip_text_full_lookup, decide_False by done.
    by rewrite !lookup_insert_ne. }
  assert (get item1 "lang" = get record "lang"
          ∧ get item1 "type" = get record "type") as [Hlang Htype]
    by (unfold get; by rewrite !Hitem1).
  assert (get (<["lang" := por (get item1 "lang") (VStr (pystr "tr"))]> item1)
            "type" = get record "type"
          ∧ get (<["lang" := por (get item1 "lang") (VStr (pystr "tr"))]> item1)
              "work_type" = get record "work_type") as [-> ->].
  { unfold get. by rewrite !lookup_insert_ne, !Hitem1. }
  rewrite Hlang. clear Hlang Htype.
  split_and!;
    try (intros k Hk; unfold normalized_keys in Hk;
         rewrite !not_elem_of_cons in Hk;
         destruct Hk as (?&?&?&?&?&?&?&?&?&?&_));
    rewrite !setdefault_lookup;
    repeat (rewrite decide_False by done); rewrite ?decide_True by done;
    rewrite ?convert_year_lookup by done;
    rewrite ?lookup_insert_ne by done; rewrite ?lookup_insert_eq;
    try done; try (by eexists);
    rewrite ?Hitem1 by done; try done.
  - unfold item1. rewrite strip_text_full_lookup, decide_False by done.
    rewrite lookup_insert_ne by done. rewrite lookup_insert_eq.
    unfold get. by destruct (record !! "title") as [[]|].
  - unfold item1. rewrite strip_text_full_lookup, decide_False by done.
    rewrite lookup_insert_eq.
    unfold get. by destruct (record !! "summary") as [[]|].
  - unfold item1. rewrite strip_text_full_lookup, decide_True by done.
    by rewrite !lookup_insert_ne.
Qed.

Lemma is_text_default (o : option value) :
  is_text (default (VStr []) o) = is_text (default VNone o).
Proof. by destruct o. Qed.

Lemma normalize_date_value_inr v w :
  normalize_date_value v = inr w → is_text v = true.
Proof.
  unfold normalize_date_value, is_text.
  destruct v as [|[]|n|[|c s]]; cbn [truthy negb orb]; try done.
  by destruct (n =? 0)%Z.
Qed.

(** A record the stage takes: [title], [summary] and [date] are strings
    or count as false. *)
Definition normalizable (record : raw_record) : Prop :=
  is_text (get record "title") = true
  ∧ is_text (get record "summary") = true
  ∧ is_text (get record "date") = true.

Lemma normalize_record_cases record t :
  match normalize_record record t with
  | inr _ => normalizable record
  | inl e =>
    e = Builtin TypeError
    ∧ (is_text (get record "title") = false
       ∨ is_text (get record "summary") = false)
    ∨ e = AttributeError ∧ is_text (get record "date") = false
  end.
Proof.
  unfold normalize_record, normalizable.
  destruct (clean_value (default (VStr []) (record !! "title")))
    as [e|title] eqn:Htitle.
  { apply clean_value_inl in Htitle as [Ht ->]. rewrite is_text_default in Ht.
    left. split; [done|by left]. }
  rewrite lookup_insert_ne by done.
  destruct (clean_value (default (VStr []) (record !! "summary")))
    as [e|summary] eqn:Hsummary.
  { apply clean_value_inl in Hsummary as [Hs ->].
    rewrite is_text_default in Hs. left. split; [done|by right]. }
  apply clean_value_inr in Htitle as [Htitle _], Hsummary as [Hsummary _].
  rewrite is_text_default in Htitle, Hsummary.
  change (match default (VStr []) (?item !! "text_full") with
          | VStr s => <["text_full" := VStr (strip U s)]> ?item
          | _ => ?item
          end) with (strip_text_full item).
  match goal with
  | |- context [normalize_date_value (get ?item "date")] =>
    assert (get item "date" = get record "date") as ->
  end.
  { unfold get. rewrite !lookup_insert_ne by done.
    rewrite strip_text_full_lookup, decide_False by done.
    by rewrite !lookup_insert_ne. }
  destruct (normalize_date_value (get record "date")) as [e|date] eqn:Hdate.
  - apply normalize_date_value_inl in Hdate as [? ->]. by right.
  - apply normalize_date_value_inr in Hdate. done.
Qed.

(** What a normalized record holds, for the record it comes from and the
    reading of the clock when it was normalized. *)
Definition normalized (stamp : str) (record item : raw_record) : Prop :=
  (∃ title summary,
     item !! "title" = Some (VStr title)
     ∧ item !! "summary" = Some (VStr summary)
     ∧ strip U title = title
     ∧ strip U summary = summary
     ∧ (∀ s, record !! "title" = Some (VStr s) →
          title = Text.clean U nfc nfkd is_Mn s)
     ∧ (∀ s, record !! "summary" = Some (VStr s) →
          summary = Text.clean U nfc nfkd is_Mn s))
  ∧ (∀ s, item !! "text_full" = Some (VStr s) → strip U s = s)
  ∧ truthy (get item "lang") = true
  ∧ truthy (get item "type") = true
  ∧ (truthy (get record "lang") = true →
     item !! "lang" = Some (get record "lang"))
  ∧ (truthy (get record "lang") = false →
     item !! "lang" = Some (VStr (pystr "tr")))
  ∧ is_Some (item !! "date")
  ∧ (∀ k v, k ∈ ["author"; "license"; "created_at"] →
       record !! k = Some v → item !! k = Some v)
  ∧ (record !! "author" = None →
     item !! "author" = Some (VStr (pystr "Nazim Hikmet")))
  ∧ (record !! "license" = None →
     item !! "license" = Some (VStr (pystr "unknown")))
  ∧ (record !! "created_at" = None →
     item !! "created_at" = Some (VStr stamp))
  ∧ (∀ k, k ∉ normalized_keys → item !! k = record !! k).

Lemma cleaned_stripped (v : value) :
  strip U match v with
          | VStr s => Text.clean U nfc nfkd is_Mn s
          | _ => []
          end
  = match v with
    | VStr s => Text.clean U nfc nfkd is_Mn s
    | _ => []
    end.
Proof.
  destruct v as [| | |s]; try done.
  by destruct (Text.clean_lines U nfc nfkd is_Mn s)
    as (lines & _ & _ & _ & _ & Hs & _).
Qed.

Lemma normalize_record_normalized record t item t' :
  normalize_record record t = inr (item, t') →
  t' = S t ∧ normalized (now t) record item.
Proof.
  intros (-> & Htitle & Hsummary & Htext & Hlang & Htype & Hdate & Hauthor
          & Hlicense & Hcreated & Hother)%normalize_record_inr.
  split; [done|]. unfold normalized. split_and!.
  - eexists _, _. split; [exact Htitle|]. split; [exact Hsummary|].
    split; [apply cleaned_stripped|]. split; [apply cleaned_stripped|].
    unfold get. split; by intros s ->.
  - intros s. rewrite Htext.
    destruct (default (VStr []) (record !! "text_full")) as [| | |s'];
      try done.
    intros [= <-]. apply Text.trimmed_strip, Text.strip_trimmed.
  - unfold get at 1. rewrite Hlang. cbn [default from_option id]. unfold por.
    by destruct (truthy (get record "lang")) eqn:Ht.
  - unfold get at 1. rewrite Htype. cbn [default from_option id]. unfold por.
    destruct (truthy (get record "type")) eqn:Ht1; [by rewrite Ht1|].
    by destruct (truthy (get record "work_type")) eqn:Ht2; rewrite ?Ht2.
  - intros Ht. rewrite Hlang. unfold por. by rewrite Ht.
  - intros Ht. rewrite Hlang. unfold por. by rewrite Ht.
  - done.
  - intros k v Hk Hv.
    repeat (apply elem_of_cons in Hk as [->|Hk]);
      [rewrite Hauthor|rewrite Hlicense|rewrite Hcreated|by apply elem_of_nil in Hk];
      by rewrite Hv.
  - intros Hk. by rewrite Hauthor, Hk.
  - intros Hk. by rewrite Hlicense, Hk.
  - intros Hk. by rewrite Hcreated, Hk.
  - done.
Qed.

(** X16.  [normalize_records] returns one record for each record it is
    given, in order, or raises: [TypeError] for a [title] or [summary],
    [AttributeError] for a [date], that is neither a string nor a value
    that counts as false.  In a normalized record [title] and [summary]
    are stripped strings, the cleaned text of the record's; a [text_full]
    that is a string is stripped; [lang] and [type] count as true, an
    empty [lang] having become "tr"; [date] is present; [author],
    [license] and [created_at] are those of the record when it has the
    key, whatever the value, and "Nazim Hikmet", "unknown" and the time of
    normalization otherwise; every other field but [year] is the
    record's. *)
Theorem normalize_records_spec (records : list raw_record) (t : nat) :
  match normalize_records records t with
  | inr (items, t') =>
    t' = t + length records
    ∧ length items = length records
    ∧ Forall normalizable records
    ∧ ∀ i record item,
        records !! i = Some record → items !! i = Some item →
        normalized (now (t + i)) record item
  | inl e =>
    ∃ record, record ∈ records
      ∧ (e = Builtin TypeError
         ∧ (is_text (get record "title") = false
            ∨ is_text (get record "summary") = false)
         ∨ e = AttributeError ∧ is_text (get record "date") = false)
  end.
Proof.
  revert t. induction records as [|record records IH]; intros t.
  - cbn [normalize_records]. split_and!; [cbn; lia|done|done|].
    by intros i record item.
  - cbn [normalize_records].
    pose proof (normalize_record_cases record t) as Hcases.
    destruct (normalize_record record t) as [e|[item t1]] eqn:Hrun.
    { exists record. split; [by left|done]. }
    apply normalize_record_normalized in Hrun as [-> Hitem].
    specialize (IH (S t)).
    destruct (normalize_records records (S t)) as [e|[items t']].
    { destruct IH as (r & Hr & He). exists r. split; [by right|done]. }
    destruct IH as (-> & Hlen & Hall & Hitems).
    split_and!.
    + cbn [length]. lia.
    + cbn [length]. by rewrite Hlen.
    + by constructor.
    + intros [|i] r it; cbn [lookup list_lookup].
      * intros [= <-] [= <-]. by rewrite Nat.add_0_r.
      * intros Hr Hit. replace (t + S i) with (S t + i) by lia.
        by apply Hitems.
Qed.

(** ** Normalization and deduplication *)

(** The clock is read for [created_at] only. *)
Lemma normalize_record_clock record :
  (∃ e, ∀ t, normalize_record record t = inl e)
  ∨ ∃ item, ∀ t,
      normalize_record record t
      = inr (setdefault "created_at" (VStr (now t)) item, S t).
Proof.
  unfold normalize_record.
  destruct (clean_value (default (VStr []) (record !! "title")))
    as [e|title]; [left; by exists e|].
  destruct (clean_value _) as [e|summary]; [left; by exists e|].
  destruct (normalize_date_value _) as [e|date]; [left; by exists e|].
  right. by eexists.
Qed.

Lemma kept_Forall2 (R : raw_record → raw_record → Prop)
    (items records : list raw_record) :
  (∀ a b, R a b → a !! "hash" = b !! "hash") →
  Forall2 R items records →
  ∀ seen, Forall2 R (Dedup.kept seen items) (Dedup.kept seen records).
Proof.
  intros Hhash. induction 1 as [|a b items records Hab Hrest IH]; intros seen.
  - constructor.
  - cbn [Dedup.kept]. unfold Dedup.has_hash, get.
    rewrite (Hhash a b Hab).
    destruct (truthy (default VNone (b !! "hash"))); cbn [negb].
    + case_bool_decide; [apply IH|]. constructor; [done|apply IH].
    + constructor; [done|apply IH].
Qed.

Lemma normalize_records_Forall2 (records : list raw_record) :
  ∀ t items t',
  normalize_records records t = inr (items, t') →
  Forall2 (λ item record, ∃ t, normalize_record record t = inr (item, S t))
          items records.
Proof.
  induction records as [|record records IH]; intros t items t';
    cbn [normalize_records].
  - intros [= <- <-]. constructor.
  - destruct (normalize_record record t) as [e|[item t1]] eqn:Hrun; [done|].
    destruct (normalize_records records t1) as [e|[items1 t2]] eqn:Hrest;
      [done|].
    intros [= <- <-]. constructor; [|by eapply IH].
    exists t. destruct (normalize_record_clock record) as [[e He]|[pre Hpre]].
    + by rewrite He in Hrun.
    + rewrite Hpre in Hrun. injection Hrun as <- <-. apply Hpre.
Qed.

(** X22.  Deduplicating after normalizing keeps the records at the same
    places as deduplicating before it: normalization does not touch the
    hash.  The two orders give the same records, up to the time stamped
    in a [created_at] that the crawler had not set. *)
Theorem normalize_dedupe_commute (records : list raw_record) (t : nat)
    (items : list raw_record) (t' : nat) :
  normalize_records records t = inr (items, t') →
  Forall2 (λ item record, item !! "hash" = record !! "hash") items records
  ∧ length (Dedup.dedupe_records items)
    = length (Dedup.dedupe_records records)
  ∧ ∃ items2 t2,
      normalize_records (Dedup.dedupe_records records) t = inr (items2, t2)
      ∧ Forall2 (λ item item2, ∀ k, k ≠ "created_at" → item !! k = item2 !! k)
                (Dedup.dedupe_records items) items2.
Proof.
  intros Hrun.
  pose proof (normalize_records_Forall2 _ _ _ _ Hrun) as Hall.
  assert (∀ item record,
            (∃ t, normalize_record record t = inr (item, S t)) →
            item !! "hash" = record !! "hash") as Hhash.
  { intros item record [t0 H0].
    apply normalize_record_inr in H0 as (_ & _ & _ & _ & _ & _ & _ & _ & _ & _ & Ho).
    apply Ho. unfold normalized_keys.
    rewrite !not_elem_of_cons. split_and!; try done. apply not_elem_of_nil. }
  pose proof (kept_Forall2 _ _ _ Hhash Hall ∅) as Hkept.
  rewrite <- !Dedup.dedupe_records_kept in Hkept.
  split_and!.
  - eapply Forall2_impl; [exact Hall|]. apply Hhash.
  - by apply Forall2_length in Hkept.
  - clear Hrun Hall. revert t.
    induction Hkept as [|item record kept_items kept_records Hir Hrest IH];
      intros t.
    + exists [], t. split; [done|constructor].
    + destruct Hir as [t0 H0].
      destruct (normalize_record_clock record) as [[e He]|[pre Hpre]];
        [by rewrite He in H0|].
      destruct (IH (S t)) as (items2 & t2 & Hrun2 & Hsame).
      exists (setdefault "created_at" (VStr (now t)) pre :: items2), t2.
      cbn [normalize_records]. rewrite Hpre, Hrun2. split; [done|].
      constructor; [|done].
      intros k Hk. rewrite Hpre in H0. injection H0 as <-.
      by rewrite !setdefault_lookup, !decide_False by done.
Qed.

End Records.

(** A record of a news crawler, normalized at the first tick of a clock;
    the text is ASCII, on which the normal forms change nothing. *)
Example normalize_records_news :
  match normalize_records corpus_db fromisoformat_date id id (λ _, false)
          (λ _, None) (λ t, pystr "2024-01-01T00:00:0" ++ [(48 + N.of_nat t)%N])
          [{[ "title" := VStr (pystr "  Kiz  Cocugu ");
              "date" := VStr (pystr "05.03.1956");
              "lang" := VStr [];
              "author" := VStr [] ]}] 0 with
  | inr ([item], 1) =>
    item !! "title" = Some (VStr (pystr "Kiz Cocugu"))
    ∧ item !! "summary" = Some (VStr [])
    ∧ item !! "date" = Some (VStr (pystr "1956-03-05"))
    ∧ item !! "lang" = Some (VStr (pystr "tr"))
    ∧ item !! "type" = Some (VStr (pystr "unknown"))
    ∧ item !! "author" = Some (VStr [])
    ∧ item !! "created_at" = Some (VStr (pystr "2024-01-01T00:00:00"))
  | _ => False
  end.
Proof. vm_compute. split_and!; reflexivity. Qed.

(** ** The four formats of a date *)

Section Formats.
Context (U : unicode_db).
Variable fromisoformat : str → option date.

(** The items match at the head of [s], and [groups] and [rest] are what
    a backtracking matcher finds first. *)
Definition first_match (items : list item) (s : str)
    (groups : list (item * str)) (rest : str) : Prop :=
  ∃ more, match_items U items s = (groups, rest) :: more.

Lemma first_match_nil s : first_match [] s [] s.
Proof. by exists []. Qed.

Lemma first_match_cons it items s tok rest alts groups rest' :
  omap (λ cs, match_classes cs s) (alternatives U it) = (tok, rest) :: alts →
  first_match items rest groups rest' →
  first_match (it :: items) s ((it, tok) :: groups) rest'.
Proof.
  intros Halt [more Hm]. unfold first_match. cbn [match_items].
  rewrite Halt. cbn [flat_map]. rewrite Hm. cbn [map app].
  by eexists.
Qed.

Lemma digit_char (n : N) :
  (n < 10)%N →
  ch_isdecimal U (48 + n)%N = true
  ∧ ch_decimal_value U (48 + n)%N = n
  ∧ isspace U (48 + n)%N = false
  ∧ (48 + n =? 32)%N = false.
Proof.
  intros Hn.
  assert (is_ascii (48 + n)%N = true) as Hascii
    by (unfold is_ascii; apply N.ltb_lt; lia).
  unfold ch_isdecimal, ch_decimal_value, isspace, between. rewrite Hascii.
  split_and!.
  - apply andb_true_iff. split; apply N.leb_le; lia.
  - lia.
  - apply orb_false_iff. split; apply andb_false_iff.
    + right. apply N.leb_gt. lia.
    + right. apply N.leb_gt. lia.
  - apply N.eqb_neq. lia.
Qed.

(** The digits of a number below 10000. *)
Lemma zero_pad_4 (y : N) :
  (y < 10000)%N →
  ∃ a b c d,
    zero_pad 4 y = [48 + a; 48 + b; 48 + c; 48 + d]%N
    ∧ (a < 10 ∧ b < 10 ∧ c < 10 ∧ d < 10)%N
    ∧ (y = 1000 * a + 100 * b + 10 * c + d)%N.
Proof.
  intros Hy.
  exists (y / 10 / 10 / 10 mod 10)%N, (y / 10 / 10 mod 10)%N,
    (y / 10 mod 10)%N, (y mod 10)%N.
  split; [reflexivity|].
  pose proof (N.div_mod y 10 ltac:(lia)) as H0.
  pose proof (N.div_mod (y / 10) 10 ltac:(lia)) as H1.
  pose proof (N.div_mod (y / 10 / 10) 10 ltac:(lia)) as H2.
  pose proof (N.div_mod (y / 10 / 10 / 10) 10 ltac:(lia)) as H3.
  pose proof (N.mod_lt y 10 ltac:(lia)).
  pose proof (N.mod_lt (y / 10) 10 ltac:(lia)).
  pose proof (N.mod_lt (y / 10 / 10) 10 ltac:(lia)).
  pose proof (N.mod_lt (y / 10 / 10 / 10) 10 ltac:(lia)).
  split; [lia|].
  generalize dependent (y / 10 / 10 / 10 / 10)%N.
  generalize dependent (y / 10 / 10 / 10 mod 10)%N.
  generalize dependent (y / 10 / 10 / 10)%N.
  generalize dependent (y / 10 / 10 mod 10)%N.
  generalize dependent (y / 10 / 10)%N.
  generalize dependent (y / 10 mod 10)%N.
  generalize dependent (y / 10)%N.
  generalize dependent (y mod 10)%N.
  intros. lia.
Qed.

Lemma year_token (y : N) (rest : str) :
  (y < 10000)%N →
  omap (λ cs, match_classes cs (zero_pad 4 y ++ rest)) (alternatives U IYear)
  = [(zero_pad 4 y, rest)]
  ∧ int_of U (zero_pad 4 y) = y
  ∧ (∀ c, head (zero_pad 4 y) = Some c → isspace U c = false)
  ∧ (∀ c, last (zero_pad 4 y) = Some c → isspace U c = false).
Proof.
  intros Hy.
  destruct (zero_pad_4 y Hy) as (a & b & c & d & -> & (Ha & Hb & Hc & Hd) & ->).
  destruct (digit_char a Ha) as (Da & Va & Sa & Ea).
  destruct (digit_char b Hb) as (Db & Vb & Sb & Eb).
  destruct (digit_char c Hc) as (Dc & Vc & Sc & Ec).
  destruct (digit_char d Hd) as (Dd & Vd & Sd & Ed).
  split_and!.
  - cbn [alternatives omap list_omap app match_classes].
    rewrite Da, Db, Dc, Dd. reflexivity.
  - unfold int_of. cbn [fold_left]. rewrite Ea, Eb, Ec, Ed, Va, Vb, Vc, Vd.
    lia.
  - by intros ? [= <-].
  - by intros ? [= <-].
Qed.

(** The texts of the months and of the days of a month. *)
Definition two_digit (hi : nat) : list N :=
  Eval vm_compute in map N.of_nat (seq 1 hi).

Lemma two_digit_range (hi : nat) (n : N) :
  (1 ≤ n ≤ N.of_nat hi)%N → n ∈ map N.of_nat (seq 1 hi).
Proof.
  intros Hn. apply list_elem_of_fmap. exists (N.to_nat n).
  split; [lia|]. apply elem_of_seq. lia.
Qed.

Lemma month_token (m : N) (rest : str) :
  (1 ≤ m ≤ 12)%N →
  (∃ alts,
     omap (λ cs, match_classes cs (zero_pad 2 m ++ rest)) (alternatives U IMonth)
     = (zero_pad 2 m, rest) :: alts)
  ∧ int_of U (zero_pad 2 m) = m
  ∧ (∀ c, head (zero_pad 2 m) = Some c → isspace U c = false)
  ∧ (∀ c, last (zero_pad 2 m) = Some c → isspace U c = false).
Proof.
  intros Hm. apply (two_digit_range 12) in Hm.
  change (map N.of_nat (seq 1 12)) with (two_digit 12) in Hm.
  unfold two_digit in Hm.
  repeat (apply elem_of_cons in Hm as [->|Hm];
          [split_and!;
           [eexists; vm_compute; reflexivity
           |vm_compute; reflexivity
           |by intros ? [= <-]
           |by intros ? [= <-]]|]).
  by apply elem_of_nil in Hm.
Qed.

Lemma day_token (n : N) (rest : str) :
  (1 ≤ n ≤ 31)%N →
  (∃ alts,
     omap (λ cs, match_classes cs (zero_pad 2 n ++ rest)) (alternatives U IDay)
     = (zero_pad 2 n, rest) :: alts)
  ∧ int_of U (zero_pad 2 n) = n
  ∧ (∀ c, head (zero_pad 2 n) = Some c → isspace U c = false)
  ∧ (∀ c, last (zero_pad 2 n) = Some c → isspace U c = false).
Proof.
  intros Hn. apply (two_digit_range 31) in Hn.
  change (map N.of_nat (seq 1 31)) with (two_digit 31) in Hn.
  unfold two_digit in Hn.
  repeat (apply elem_of_cons in Hn as [->|Hn];
          [split_and!;
           [eexists; vm_compute; reflexivity
           |vm_compute; reflexivity
           |by intros ? [= <-]
           |by intros ? [= <-]]|]).
  by apply elem_of_nil in Hn.
Qed.

Lemma literal_token (c : char) (rest : str) :
  omap (λ cs, match_classes cs (c :: rest)) (alternatives U (ILit c))
  = [([c], rest)].
Proof.
  cbn [alternatives omap list_omap match_classes]. by rewrite N.eqb_refl.
Qed.

(** The texts of a date in the four formats, with two digits for the
    month and the day and four for the year. *)
Definition renderings (d : date) : list str :=
  let y := zero_pad 4 (year d) in
  let m := zero_pad 2 (month d) in
  let dd := zero_pad 2 (day d) in
  [y ++ [45%N] ++ m ++ [45%N] ++ dd;
   dd ++ [46%N] ++ m ++ [46%N] ++ y;
   dd ++ [47%N] ++ m ++ [47%N] ++ y;
   y ++ [47%N] ++ m ++ [47%N] ++ dd].

Lemma valid_date_bounds (d : date) :
  valid_date d = true →
  (year d < 10000)%N ∧ (1 ≤ month d ≤ 12)%N ∧ (1 ≤ day d ≤ 31)%N.
Proof.
  unfold valid_date, between, days_in_month.
  intros [[[Hy1 Hy2]%andb_true_iff [Hm1 Hm2]%andb_true_iff]%andb_true_iff
          [Hd1 Hd2]%andb_true_iff]%andb_true_iff.
  apply N.leb_le in Hy1, Hy2, Hm1, Hm2, Hd1, Hd2.
  split; [lia|]. split; [lia|]. split; [lia|].
  destruct (month d =? 2)%N; [destruct (is_leap (year d)); lia|].
  destruct (_ || _); lia.
Qed.

Lemma strptime_first_match fmt items value groups :
  parse_format fmt = Some items →
  first_match items value groups [] →
  strptime U value fmt
  = let d := Date (group_value U groups IYear 1900)
                  (group_value U groups IMonth 1)
                  (group_value U groups IDay 1) in
    if valid_date d then Some d else None.
Proof.
  intros Hfmt [more Hm]. unfold strptime. rewrite Hfmt.
  cbn [mbind option_bind]. by rewrite Hm.
Qed.

(** A date in the order year, month, day. *)
Lemma strptime_ymd (d : date) (sep : char) :
  valid_date d = true →
  strptime U (zero_pad 4 (year d) ++ [sep] ++ zero_pad 2 (month d)
              ++ [sep] ++ zero_pad 2 (day d))
           ([37; 89]%N ++ [sep] ++ [37; 109]%N ++ [sep] ++ [37; 100]%N)
  = (if (sep =? 37)%N then None else Some d).
Proof.
  intros Hvalid.
  destruct (valid_date_bounds d Hvalid) as (Hy & Hm & Hd).
  destruct (N.eqb_spec sep 37) as [->|Hsep].
  { unfold strptime. reflexivity. }
  destruct (year_token (year d)
              ([sep] ++ zero_pad 2 (month d) ++ [sep] ++ zero_pad 2 (day d)) Hy)
    as (Hyt & Hyv & _).
  destruct (month_token (month d) ([sep] ++ zero_pad 2 (day d)) Hm)
    as ([malts Hmt] & Hmv & _).
  destruct (day_token (day d) [] Hd) as ([dalts Hdt] & Hdv & _).
  rewrite app_nil_r in Hdt.
  rewrite (strptime_first_match _
             [IYear; ILit sep; IMonth; ILit sep; IDay] _
             [(IYear, zero_pad 4 (year d)); (ILit sep, [sep]);
              (IMonth, zero_pad 2 (month d)); (ILit sep, [sep]);
              (IDay, zero_pad 2 (day d))]).
  - cbn [group_value List.find fst snd]. rewrite Hyv, Hmv, Hdv.
    cbn zeta. destruct d as [y m dd]. cbn [year month day] in *.
    by rewrite Hvalid.
  - cbn [app parse_format].
    assert ((37 =? 37)%N = true) as -> by done.
    assert ((89 =? 89)%N = true) as -> by done.
    assert ((109 =? 89)%N = false) as -> by done.
    assert ((109 =? 109)%N = true) as -> by done.
    assert ((100 =? 89)%N = false) as -> by done.
    assert ((100 =? 109)%N = false) as -> by done.
    assert ((100 =? 100)%N = true) as -> by done.
    apply N.eqb_neq in Hsep. rewrite Hsep. reflexivity.
  - eapply first_match_cons; [exact Hyt|].
    eapply first_match_cons; [apply literal_token|].
    eapply first_match_cons; [exact Hmt|].
    eapply first_match_cons; [apply literal_token|].
    eapply first_match_cons; [exact Hdt|].
    apply first_match_nil.
Qed.

(** A date in the order day, month, year. *)
Lemma strptime_dmy (d : date) (sep : char) :
  valid_date d = true →
  strptime U (zero_pad 2 (day d) ++ [sep] ++ zero_pad 2 (month d)
              ++ [sep] ++ zero_pad 4 (year d))
           ([37; 100]%N ++ [sep] ++ [37; 109]%N ++ [sep] ++ [37; 89]%N)
  = (if (sep =? 37)%N then None else Some d).
Proof.
  intros Hvalid.
  destruct (valid_date_bounds d Hvalid) as (Hy & Hm & Hd).
  destruct (N.eqb_spec sep 37) as [->|Hsep].
  { unfold strptime. reflexivity. }
  destruct (year_token (year d) [] Hy) as (Hyt & Hyv & _).
  rewrite app_nil_r in Hyt.
  destruct (month_token (month d) ([sep] ++ zero_pad 4 (year d)) Hm)
    as ([malts Hmt] & Hmv & _).
  destruct (day_token (day d)
              ([sep] ++ zero_pad 2 (month d) ++ [sep] ++ zero_pad 4 (year d)) Hd)
    as ([dalts Hdt] & Hdv & _).
  rewrite (strptime_first_match _
             [IDay; ILit sep; IMonth; ILit sep; IYear] _
             [(IDay, zero_pad 2 (day d)); (ILit sep, [sep]);
              (IMonth, zero_pad 2 (month d)); (ILit sep, [sep]);
              (IYear, zero_pad 4 (year d))]).
  - cbn [group_value List.find fst snd]. rewrite Hyv, Hmv, Hdv.
    cbn zeta. destruct d as [y m dd]. cbn [year month day] in *.
    by rewrite Hvalid.
  - cbn [app parse_format].
    assert ((37 =? 37)%N = true) as -> by done.
    assert ((89 =? 89)%N = true) as -> by done.
    assert ((109 =? 89)%N = false) as -> by done.
    assert ((109 =? 109)%N = true) as -> by done.
    assert ((100 =? 89)%N = false) as -> by done.
    assert ((100 =? 109)%N = false) as -> by done.
    assert ((100 =? 100)%N = true) as -> by done.
    apply N.eqb_neq in Hsep. rewrite Hsep. reflexivity.
  - eapply first_match_cons; [exact Hdt|].
    eapply first_match_cons; [apply literal_token|].
    eapply first_match_cons; [exact Hmt|].
    eapply first_match_cons; [apply literal_token|].
    eapply first_match_cons; [exact Hyt|].
    apply first_match_nil.
Qed.

Lemma match_classes_length cs : ∀ s tok rest,
  match_classes cs s = Some (tok, rest) →
  s = tok ++ rest ∧ length tok = length cs.
Proof.
  induction cs as [|p cs IH]; intros s tok rest; cbn [match_classes].
  - by intros [= <- <-].
  - destruct s as [|c s]; [done|]. destruct (p c); [|done].
    destruct (match_classes cs s) as [[tok' rest']|] eqn:Hm; [|done].
    cbn. intros [= <- <-]. destruct (IH _ _ _ Hm) as [-> <-]. done.
Qed.

(** A day takes one or two characters: it is not followed by the literal
    character of the format when neither the second nor the third
    character of the string is that character. *)
Lemma day_literal_fails (a b c sep : char) (rest : str) (items : list item) :
  sep ≠ b → sep ≠ c →
  match_items U (IDay :: ILit sep :: items) (a :: b :: c :: rest) = [].
Proof.
  intros Hb Hc.
  destruct (match_items U (IDay :: ILit sep :: items) (a :: b :: c :: rest))
    as [|[groups r] ms] eqn:Hm; [done|exfalso].
  assert ((groups, r) ∈ match_items U (IDay :: ILit sep :: items)
                          (a :: b :: c :: rest)) as Hin
    by (rewrite Hm; by left).
  clear Hm. cbn [match_items] in Hin.
  apply list_elem_of_In, in_flat_map in Hin as ([tok rest1] & Halt & Hin).
  apply list_elem_of_In, list_elem_of_omap in Halt as (cs & Hcs & Hmc).
  apply match_classes_length in Hmc as [Heq Hlen].
  apply in_map_iff in Hin as ([groups' r'] & _ & Hin).
  apply in_flat_map in Hin as ([tok2 rest2] & Hlit & _).
  apply list_elem_of_In, list_elem_of_omap in Hlit as (cs2 & Hcs2 & Hmc2).
  cbn [alternatives] in Hcs2. apply list_elem_of_singleton in Hcs2 as ->.
  assert (∃ x, head rest1 = Some x ∧ (x = b ∨ x = c)) as (x & Hx & Hbc).
  { assert (length tok = 1 ∨ length tok = 2) as Hl.
    { cbn [alternatives] in Hcs.
      repeat (apply elem_of_cons in Hcs as [->|Hcs]);
        try (by apply elem_of_nil in Hcs); cbn [length] in Hlen; auto. }
    destruct tok as [|t1 [|t2 [|t3 tok]]]; cbn [length] in Hl;
      [lia| | |lia].
    - cbn [app] in Heq. injection Heq as _ <-. exists b. by split; [|left].
    - cbn [app] in Heq. injection Heq as _ _ <-. exists c. by split; [|right]. }
  destruct rest1 as [|y rest1]; [done|]. injection Hx as ->.
  cbn [match_classes] in Hmc2.
  destruct (N.eqb_spec sep x) as [->|]; [|done].
  by destruct Hbc.
Qed.

Lemma zero_pad_digits (width : nat) : ∀ n,
  Forall (λ c, (48 ≤ c)%N) (zero_pad width n).
Proof.
  induction width as [|width IH]; intros n; cbn [zero_pad]; [constructor|].
  apply Forall_app. split; [apply IH|].
  constructor; [apply N.le_add_r|constructor].
Qed.

Lemma rendering_no_literal (sep lit : char) (a b c : str) :
  Forall (λ c, (48 ≤ c)%N) a → Forall (λ c, (48 ≤ c)%N) b →
  Forall (λ c, (48 ≤ c)%N) c →
  (lit < 48)%N → lit ≠ sep →
  lit ∉ a ++ [sep] ++ b ++ [sep] ++ c.
Proof.
  intros Ha Hb Hc Hlit Hsep Hin.
  rewrite !elem_of_app, !list_elem_of_singleton in Hin.
  rewrite Forall_forall in Ha, Hb, Hc.
  destruct Hin as [Hin|[->|[Hin|[->|Hin]]]]; try done;
    [apply Ha in Hin|apply Hb in Hin|apply Hc in Hin]; lia.
Qed.

Lemma rendering_trimmed (sep : char) (a b c : str) :
  a ≠ [] → c ≠ [] →
  (∀ x, head a = Some x → isspace U x = false) →
  (∀ x, last c = Some x → isspace U x = false) →
  Text.trimmed U (a ++ [sep] ++ b ++ [sep] ++ c)
  ∧ a ++ [sep] ++ b ++ [sep] ++ c ≠ [].
Proof.
  intros Ha Hc Hh Hl. split; [split|by destruct a].
  - destruct a; [done|]. apply Hh.
  - intros x. rewrite !app_assoc, last_app.
    destruct (last c) as [z|] eqn:Hz.
    + intros [= <-]. by apply Hl.
    + by apply last_None in Hz.
Qed.

(** X17.  The four formats agree: a valid date written as yyyy-mm-dd,
    dd.mm.yyyy, dd/mm/yyyy or yyyy/mm/dd, with whitespace around it or
    not, is normalized to yyyy-mm-dd, provided [fromisoformat] reads no
    other date from the text.  In particular the normal form of a date is
    a fixed point of the normalization. *)
Theorem normalize_date_formats (d : date) (value ws1 ws2 : str) :
  valid_date d = true →
  value ∈ renderings d →
  (∀ d', fromisoformat value = Some d' → d' = d) →
  forallb (isspace U) ws1 = true →
  forallb (isspace U) ws2 = true →
  _normalize_date U fromisoformat (Some (ws1 ++ value ++ ws2))
  = Some (isoformat d)
  ∧ head (renderings d) = Some (isoformat d).
Proof.
  intros Hvalid Hin Hiso Hws1 Hws2. split; [|reflexivity].
  destruct (valid_date_bounds d Hvalid) as (Hy & Hm & Hd).
  pose proof (zero_pad_digits 4 (year d)) as Dy.
  pose proof (zero_pad_digits 2 (month d)) as Dm.
  pose proof (zero_pad_digits 2 (day d)) as Dd.
  destruct (year_token (year d) [] Hy) as (_ & _ & Hyh & Hyl).
  destruct (month_token (month d) [] Hm) as (_ & _ & Hmh & Hml).
  destruct (day_token (day d) [] Hd) as (_ & _ & Hdh & Hdl).
  destruct (zero_pad_4 (year d) Hy) as (y1 & y2 & y3 & y4 & Hyear & Hlt & _).
  assert (∃ d1 d2, zero_pad 2 (day d) = [d1; d2]) as (d1 & d2 & Hday)
    by (eexists _, _; reflexivity).
  assert (∃ m1 m2, zero_pad 2 (month d) = [m1; m2]) as (m1 & m2 & Hmonth)
    by (eexists _, _; reflexivity).
  assert (parse_format (pystr "%Y-%m-%d")
          = Some [IYear; ILit 45; IMonth; ILit 45; IDay]%N) as Hp1
    by (vm_compute; reflexivity).
  assert (parse_format (pystr "%d.%m.%Y")
          = Some [IDay; ILit 46; IMonth; ILit 46; IYear]%N) as Hp2
    by (vm_compute; reflexivity).
  assert (parse_format (pystr "%d/%m/%Y")
          = Some [IDay; ILit 47; IMonth; ILit 47; IYear]%N) as Hp3
    by (vm_compute; reflexivity).
  assert (ILit 45%N ∈ [IYear; ILit 45; IMonth; ILit 45; IDay]%N) as Hl1
    by (apply list_elem_of_In; cbn; tauto).
  assert (ILit 46%N ∈ [IDay; ILit 46; IMonth; ILit 46; IYear]%N) as Hl2
    by (apply list_elem_of_In; cbn; tauto).
  assert (Text.trimmed U value ∧ value ≠ []
          ∧ first_format U value DATE_FORMATS = Some d) as (Htrim & Hne & Hfirst).
  { unfold renderings in Hin. cbn zeta in Hin.
    repeat (apply elem_of_cons in Hin as [->|Hin]);
      [..|by apply elem_of_nil in Hin].
    - split_and!.
      + apply rendering_trimmed; [by rewrite Hyear|by rewrite Hday|done..].
      + apply rendering_trimmed; [by rewrite Hyear|by rewrite Hday|done..].
      + apply (first_format_Some U _ []
                 (pystr "%Y-%m-%d") _ d); [constructor|].
        exact (strptime_ymd d 45%N Hvalid).
    - split_and!.
      + apply rendering_trimmed; [by rewrite Hday|by rewrite Hyear|done..].
      + apply rendering_trimmed; [by rewrite Hday|by rewrite Hyear|done..].
      + apply (first_format_Some U _ [pystr "%Y-%m-%d"]
                 (pystr "%d.%m.%Y") _ d).
        * constructor; [|constructor].
          apply (strptime_no_literal U _ _ _ 45%N Hp1 Hl1).
          apply rendering_no_literal; (done || lia).
        * exact (strptime_dmy d 46%N Hvalid).
    - split_and!.
      + apply rendering_trimmed; [by rewrite Hday|by rewrite Hyear|done..].
      + apply rendering_trimmed; [by rewrite Hday|by rewrite Hyear|done..].
      + apply (first_format_Some U _ [pystr "%Y-%m-%d"; pystr "%d.%m.%Y"]
                 (pystr "%d/%m/%Y") _ d).
        * constructor; [|constructor; [|constructor]].
          -- apply (strptime_no_literal U _ _ _ 45%N Hp1 Hl1).
             apply rendering_no_literal; (done || lia).
          -- apply (strptime_no_literal U _ _ _ 46%N Hp2 Hl2).
             apply rendering_no_literal; (done || lia).
        * exact (strptime_dmy d 47%N Hvalid).
    - split_and!.
      + apply rendering_trimmed; [by rewrite Hyear|by rewrite Hday|done..].
      + apply rendering_trimmed; [by rewrite Hyear|by rewrite Hday|done..].
      + apply (first_format_Some U _
                 [pystr "%Y-%m-%d"; pystr "%d.%m.%Y"; pystr "%d/%m/%Y"]
                 (pystr "%Y/%m/%d") _ d).
        * constructor; [|constructor; [|constructor; [|constructor]]].
          -- apply (strptime_no_literal U _ _ _ 45%N Hp1 Hl1).
             apply rendering_no_literal; (done || lia).
          -- apply (strptime_no_literal U _ _ _ 46%N Hp2 Hl2).
             apply rendering_no_literal; (done || lia).
          -- unfold strptime. rewrite Hp3. cbn [mbind option_bind].
             rewrite Hyear. cbn [app].
             rewrite day_literal_fails; [done|lia|lia].
        * exact (strptime_ymd d 47%N Hvalid). }
  assert (strip U (ws1 ++ value ++ ws2) = value) as Hstrip.
  { rewrite (Dispatcher.strip_surrounding U ws1 value ws2 Hws1 Hws2).
    by apply Text.trimmed_strip. }
  rewrite normalize_date_stripped by (by rewrite Hstrip).
  rewrite Hstrip.
  destruct (fromisoformat value) as [d'|] eqn:Hfrom.
  - by rewrite (Hiso d' eq_refl).
  - by rewrite Hfirst.
Qed.

End Formats.

Lemma normalize_date_formats_witness :
  let d := Date 1938 3 5 in
  valid_date d = true
  ∧ pystr "05.03.1938" ∈ renderings d
  ∧ (∀ d', fromisoformat_date (pystr "05.03.1938") = Some d' → d' = d)
  ∧ _normalize_date corpus_db fromisoformat_date
      (Some (pystr "  " ++ pystr "05.03.1938" ++ pystr " "))
    = Some (pystr "1938-03-05").
Proof.
  intros d.
  assert (pystr "05.03.1938" ∈ renderings d) as Hin
    by (apply list_elem_of_In; vm_compute; tauto).
  assert (∀ d', fromisoformat_date (pystr "05.03.1938") = Some d' → d' = d)
    as Hiso by (intros d' H; vm_compute in H; discriminate H).
  split; [reflexivity|]. split; [exact Hin|]. split; [exact Hiso|].
  exact (proj1 (normalize_date_formats corpus_db fromisoformat_date d
                  (pystr "05.03.1938") (pystr "  ") (pystr " ")
                  eq_refl Hin Hiso eq_refl eq_refl)).
Defined.

Lemma normalize_dedupe_commute_witness :
  let records :=
    [ {[ "title" := VStr (pystr "Davet"); "hash" := VStr (pystr "ab") ]};
      {[ "title" := VStr (pystr " Davet "); "hash" := VStr (pystr "ab") ]} ] in
  ∃ items t',
    normalize_records corpus_db fromisoformat_date id id (λ _, false)
      (λ _, None) (λ _, pystr "2024-01-01T00:00:00") records 0
    = inr (items, t')
    ∧ length (Dedup.dedupe_records items)
      = length (Dedup.dedupe_records records).
Proof.
  intros records.
  destruct (normalize_records corpus_db fromisoformat_date id id (λ _, false)
              (λ _, None) (λ _, pystr "2024-01-01T00:00:00") records 0)
    as [e|[items t']] eqn:Hrun.
  - assert (match normalize_records corpus_db fromisoformat_date id id
                    (λ _, false) (λ _, None)
                    (λ _, pystr "2024-01-01T00:00:00") records 0
            with inr _ => True | inl _ => False end) as Hok
      by (vm_compute; exact I).
    rewrite Hrun in Hok. destruct Hok.
  - exists items, t'. split; [reflexivity|].
    exact (proj1 (proj2 (normalize_dedupe_commute corpus_db fromisoformat_date
                           id id (λ _, false) (λ _, None)
                           (λ _, pystr "2024-01-01T00:00:00")
                           records 0 items t' Hrun))).
Defined.

End Normalize.

(* ===================================================================== *)
(** * [src/domain/documents.py] *)
(* ===================================================================== *)

Module Documents.

(** A field of a validated document is a scalar or, for "source", a dict
    of scalars. *)
Inductive field :=
| FVal (v : value)
| FDict (d : gmap string value).

Abbreviation mongo_doc := (gmap string field).

(** [bool(f)] *)
Definition ftruthy (f : field) : bool :=
  match f with
  | FVal v => truthy v
  | FDict d => negb (bool_decide (d = ∅))
  end.

(** [d.get(k)] *)
Definition fget (d : mongo_doc) (k : string) : field :=
  default (FVal VNone) (d !! k).

Inductive doc_class :=
| PoemPageDocument
| PdfPoemDocument
| PoemListDocument
| BookDocument
| NovelDocument
| PlayDocument
| NewsDocument.

(** The class attributes. *)
Definition kind (cls : doc_class) : str :=
  match cls with
  | PoemPageDocument => pystr "poem_page"
  | PdfPoemDocument => pystr "pdf_poems"
  | PoemListDocument => pystr "poem"
  | BookDocument => pystr "book"
  | NovelDocument => pystr "novel"
  | PlayDocument => pystr "play"
  | NewsDocument => pystr "news"
  end.

Definition collection_name (cls : doc_class) : str := pystr "documents".

Definition required_fields (cls : doc_class) : list string := ["title"].

Definition upsert_fields (cls : doc_class) : list string :=
  ["kind"; "source_id"].

(** The classes whose [validate] asks for [text_full] or [summary]. *)
Definition requires_content (cls : doc_class) : bool :=
  match cls with
  | PoemPageDocument | PdfPoemDocument | NewsDocument => true
  | _ => false
  end.

Definition DOCUMENT_REGISTRY : gmap str doc_class :=
  list_to_map
    ((λ cls, (kind cls, cls)) <$>
     [PoemPageDocument; PdfPoemDocument; PoemListDocument; BookDocument;
      NovelDocument; PlayDocument; NewsDocument]).

(** An instance: its class and [self.data]. *)
Record NoSQLBaseDocument := Doc {
  cls : doc_class;
  data : mongo_doc
}.

Section Clock.
(** [datetime.now(timezone.utc).isoformat()] at the n-th reading of the
    clock.  The methods thread the number of readings made so far. *)
Variable iso_time : nat → str.

Definition _now_iso (t : nat) : value * nat := (VStr (iso_time t), S t).

(** The fields of a raw record are scalars, hence [data.get("source")] is
    no dict and [source_meta] starts empty. *)
Definition _apply_defaults (cls : doc_class) (document : raw_record)
    (t : nat) : result (mongo_doc * nat) :=
  let data := setdefault "kind" (VStr (kind cls)) document in
  let source_id :=
    por (por (get data "source_id") (get data "hash")) (get data "source_url") in
  if negb (truthy source_id) then Raise ValidationError
  else
    let data := <["source_id" := source_id]> data in
    let source_meta : raw_record := ∅ in
    let source_meta :=
      if truthy (get data "source_name")
         && negb (truthy (get source_meta "name"))
      then <["name" := get data "source_name"]> source_meta
      else source_meta in
    let source_meta :=
      if truthy (get data "source_url")
         && negb (truthy (get source_meta "url"))
      then <["url" := get data "source_url"]> source_meta
      else source_meta in
    let created_at := get data "created_at" in
    let data : mongo_doc := <["source" := FDict source_meta]> (FVal <$> data) in
    let '(created_at, t) :=
      if negb (truthy created_at) then _now_iso t else (created_at, t) in
    let data := <["created_at" := FVal created_at]> data in
    let '(now, t) := _now_iso t in
    let data := <["updated_at" := FVal now]> data in
    Ok (data, t).

Definition validate (self : NoSQLBaseDocument) : result unit :=
  let missing_required :=
    List.filter (λ field, negb (ftruthy (fget (data self) field)))
                (required_fields (cls self)) in
  match missing_required with
  | _ :: _ => Raise ValidationError
  | [] =>
    if forallb (λ field, ftruthy (fget (data self) field))
               (upsert_fields (cls self))
    then
      if requires_content (cls self)
         && negb (ftruthy (fget (data self) "text_full")
                  || ftruthy (fget (data self) "summary"))
      then Raise ValidationError
      else Ok tt
    else Raise ValidationError
  end.

(** [cls(payload)] *)
Definition from_payload (cls : doc_class) (payload : raw_record) (t : nat)
  : result (NoSQLBaseDocument * nat) :=
  match _apply_defaults cls payload t with
  | Raise e => Raise e
  | Ok (data, t) =>
    let self := Doc cls data in
    match validate self with
    | Raise e => Raise e
    | Ok _ => Ok (self, t)
    end
  end.

(** A key of [DOCUMENT_REGISTRY] is a string; no other scalar equals one. *)
Definition build_document (record : raw_record) (t : nat)
  : result (NoSQLBaseDocument * nat) :=
  let kind := get record "kind" in
  if negb (truthy kind) then Raise ValidationError
  else
    match kind with
    | VStr kind =>
      match DOCUMENT_REGISTRY !! kind with
      | Some document_cls => from_payload document_cls record t
      | None => Raise ValidationError
      end
    | _ => Raise ValidationError
    end.

Definition upsert_filter (self : NoSQLBaseDocument) : mongo_doc :=
  foldr (λ field acc,
           match data self !! field with
           | Some v => <[field := v]> acc
           | None => acc
           end)
        ∅ (upsert_fields (cls self)).

Definition to_mongo (self : NoSQLBaseDocument) (t : nat) : mongo_doc * nat :=
  let payload := data self in
  let '(now, t) := _now_iso t in
  (<["updated_at" := FVal now]> payload, t).

End Clock.

End Documents.

(* ===================================================================== *)
(** * [src/etl/steps/store.py] *)
(* ===================================================================== *)

Module Store.
Import Documents.

(** ** The collection

    [update_one] is the one of [FakeCollection] in [tests/test_store.py],
    the model of the repository for the upsert of MongoDB: a collection
    stores a document under the pair of its kind and its source id. *)
Abbreviation collection := (gmap (hkey * hkey) mongo_doc).

Record update := Update {
  set_ : mongo_doc;
  setOnInsert : option mongo_doc
}.

(** A dict is no key of a dict. *)
Definition field_key (f : field) : option hkey :=
  match f with
  | FVal v => Some (key_of v)
  | FDict _ => None
  end.

Definition update_one (storage : collection) (filter_doc : mongo_doc)
    (update_doc : update) (upsert : bool)
  : result (option nat * collection) :=
  match filter_doc !! "kind", filter_doc !! "source_id" with
  | Some kind, Some source_id =>
    match field_key kind, field_key source_id with
    | Some k, Some s =>
      let key := (k, s) in
      match storage !! key with
      | None =>
        if negb upsert then Raise AssertionError
        else
          let document := set_ update_doc in
          let document :=
            match setOnInsert update_doc with
            | Some on_insert => on_insert ∪ document
            | None => document
            end in
          let storage := <[key := document]> storage in
          Ok (Some (size storage), storage)
      | Some existing =>
        let existing := set_ update_doc ∪ existing in
        Ok (None, <[key := existing]> storage)
      end
    | _, _ => Raise TypeError
    end
  | _, _ => Raise KeyError
  end.

(** ** The stage

    The world of the stage: the readings of the clock made so far, the
    collections of the database [db_name] of the server, by name, and the
    number of requests the server has been sent. *)
Record world := World {
  clock : nat;
  database : gmap str collection;
  sent : nat
}.

(** [a or b] on strings *)
Definition str_or (a b : str) : str :=
  match a with
  | [] => b
  | _ => a
  end.

(** The class the module defines in place of [MongoClient] when pymongo
    cannot be imported: its constructor raises. *)
Definition MongoClient_missing (mongo_url : str) : option exn :=
  Some ModuleNotFoundError.

Section Stage.
Variable iso_time : nat → str.

(** The driver.  [MongoClient mongo_url] is the exception the constructor
    of the client raises for the URL, if it raises one; getting a database
    or a collection from the client sends nothing.  [server_error i] is
    the exception with which the driver answers the request numbered [i],
    if that request fails. *)
Variable MongoClient : str → option exn.
Variable server_error : nat → option exn.

(** [mongo_collection.update_one] of the driver: the request fails with
    the error of the server, or has the effect of [update_one]. *)
Definition driver_update_one (request : nat) (storage : collection)
    (filter_doc : mongo_doc) (update_doc : update) (upsert : bool)
  : result (option nat * collection) :=
  match server_error request with
  | Some e => Raise e
  | None => update_one storage filter_doc update_doc upsert
  end.

(** [[build_document(record) for record in raw_records]] *)
Fixpoint build_documents (raw_records : list raw_record) (t : nat)
  : result (list NoSQLBaseDocument * nat) :=
  match raw_records with
  | [] => Ok ([], t)
  | record :: rest =>
    match build_document iso_time record t with
    | Raise e => Raise e
    | Ok (document, t) =>
      match build_documents rest t with
      | Raise e => Raise e
      | Ok (documents, t) => Ok (document :: documents, t)
      end
    end
  end.

(** One iteration of the loop over [documents]. *)
Definition store_document (collection : str) (document : NoSQLBaseDocument)
    (inserted : nat) (w : world) : result (nat * world) :=
  let collection_name := str_or (collection_name (cls document)) collection in
  let mongo_collection := default ∅ (database w !! collection_name) in
  let '(payload, t) := to_mongo iso_time document (clock w) in
  let created_at := fget payload "created_at" in
  let payload := delete "created_at" payload in
  let update_doc :=
    Update payload
           (if ftruthy created_at
            then Some {[ "created_at" := created_at ]} else None) in
  match driver_update_one (sent w) mongo_collection (upsert_filter document)
          update_doc true with
  | Raise e => Raise e
  | Ok (upserted_id, mongo_collection) =>
    let w := World t (<[collection_name := mongo_collection]> (database w))
                   (S (sent w)) in
    match upserted_id with
    | Some _ => Ok (inserted + 1, w)
    | None => Ok (inserted, w)
    end
  end.

Fixpoint store_loop (collection : str) (documents : list NoSQLBaseDocument)
    (inserted : nat) (w : world) : result (nat * world) :=
  match documents with
  | [] => Ok (inserted, w)
  | document :: rest =>
    match store_document collection document inserted w with
    | Raise e => Raise e
    | Ok (inserted, w) => store_loop collection rest inserted w
    end
  end.

Definition store_records (records : list raw_record) (mongo_url : str)
    (collection : str) (w : world) : result (nat * world) :=
  match records with
  | [] => Ok (0, w)
  | _ =>
    match build_documents records (clock w) with
    | Raise e => Raise e
    | Ok (documents, t) =>
      match MongoClient mongo_url with
      | Some e => Raise e
      | None =>
        store_loop collection documents 0 (World t (database w) (sent w))
      end
    end
  end.

End Stage.

Section StageProofs.
Variable iso_time : nat → str.

(** ** Validated documents *)

(** The key under which a document is stored. *)
Definition doc_key (document : NoSQLBaseDocument) : option (hkey * hkey) :=
  match data document !! "kind", data document !! "source_id" with
  | Some (FVal kind), Some (FVal source_id) =>
    Some (key_of kind, key_of source_id)
  | _, _ => None
  end.

(** What [_apply_defaults] builds before it reads the clock. *)
Definition defaults (cls : doc_class) (document : raw_record) : mongo_doc :=
  let data := setdefault "kind" (VStr (kind cls)) document in
  let source_id :=
    por (por (get data "source_id") (get data "hash")) (get data "source_url") in
  let data := <["source_id" := source_id]> data in
  let source_meta : raw_record := ∅ in
  let source_meta :=
    if truthy (get data "source_name")
       && negb (truthy (get source_meta "name"))
    then <["name" := get data "source_name"]> source_meta
    else source_meta in
  let source_meta :=
    if truthy (get data "source_url")
       && negb (truthy (get source_meta "url"))
    then <["url" := get data "source_url"]> source_meta
    else source_meta in
  <["source" := FDict source_meta]> (FVal <$> data).

Definition source_id_of (cls : doc_class) (document : raw_record) : value :=
  let data := setdefault "kind" (VStr (kind cls)) document in
  por (por (get data "source_id") (get data "hash")) (get data "source_url").

(** The two timestamps, and the readings of the clock they cost. *)
Definition stamps (document : raw_record) (t : nat) : value * value * nat :=
  if truthy (get document "created_at")
  then (get document "created_at", VStr (iso_time t), S t)
  else (VStr (iso_time t), VStr (iso_time (S t)), S (S t)).

Lemma apply_defaults_eq cls document t :
  _apply_defaults iso_time cls document t
  = if truthy (source_id_of cls document)
    then
      let '(created_at, now, t') := stamps document t in
      Ok (<["updated_at" := FVal now]>
            (<["created_at" := FVal created_at]> (defaults cls document)), t')
    else Raise ValidationError.
Proof.
  unfold _apply_defaults, stamps. fold (source_id_of cls document).
  destruct (truthy (source_id_of cls document)); [|done]. cbn [negb].
  fold (defaults cls document).
  assert (get (<["source_id" := source_id_of cls document]>
                 (setdefault "kind" (VStr (kind cls)) document)) "created_at"
          = get document "created_at") as ->.
  { unfold get. rewrite lookup_insert_ne by done.
    by rewrite Base.setdefault_lookup_ne. }
  by destruct (truthy (get document "created_at")).
Qed.

Lemma defaults_lookup cls document f :
  f ≠ "source" →
  defaults cls document !! f
  = FVal <$> (<["source_id" := source_id_of cls document]>
                (setdefault "kind" (VStr (kind cls)) document) !! f).
Proof.
  intros Hf. unfold defaults. fold (source_id_of cls document).
  rewrite lookup_insert_ne by done. by rewrite lookup_fmap.
Qed.

(** [validate] reads five fields of the data. *)
Lemma validate_ext cls (d1 d2 : mongo_doc) :
  (∀ f, f ∈ ["title"; "kind"; "source_id"; "text_full"; "summary"] →
        d1 !! f = d2 !! f) →
  validate (Doc cls d1) = validate (Doc cls d2).
Proof.
  intros Hext.
  assert (∀ f, f ∈ ["title"; "kind"; "source_id"; "text_full"; "summary"] →
               fget d1 f = fget d2 f) as Hget.
  { intros f Hf. unfold fget. by rewrite Hext. }
  unfold validate. cbn [data Documents.cls required_fields upsert_fields
                        List.filter forallb].
  rewrite !(Hget "title"), !(Hget "kind"), !(Hget "source_id"),
    !(Hget "text_full"), !(Hget "summary");
    [done|..]; apply list_elem_of_In; simpl; tauto.
Qed.

(** The data of the document built from a record at clock reading [t]. *)
Definition stamped (cls : doc_class) (document : raw_record) (t : nat)
  : mongo_doc :=
  let '(created_at, now, _) := stamps document t in
  <["updated_at" := FVal now]>
    (<["created_at" := FVal created_at]> (defaults cls document)).

(** The class of the document a record is validated as, if it is valid:
    the clock has no part in validation. *)
Definition validated (record : raw_record) : option doc_class :=
  match get record "kind" with
  | VStr kind =>
    match kind, DOCUMENT_REGISTRY !! kind with
    | _ :: _, Some cls =>
      if truthy (source_id_of cls record) then
        match validate (Doc cls (defaults cls record)) with
        | Ok _ => Some cls
        | Raise _ => None
        end
      else None
    | _, _ => None
    end
  | _ => None
  end.

Lemma validate_stamped cls document t :
  validate (Doc cls (stamped cls document t))
  = validate (Doc cls (defaults cls document)).
Proof.
  apply validate_ext. intros f Hf. unfold stamped.
  destruct (stamps document t) as [[created_at now] t'].
  rewrite !lookup_insert_ne; [done|..];
    intros <-; apply list_elem_of_In in Hf; simpl in Hf;
    intuition discriminate.
Qed.

Lemma validate_raises self e : validate self = Raise e → e = ValidationError.
Proof.
  unfold validate.
  destruct (List.filter _ _); [|by intros [= <-]].
  destruct (forallb _ _); [|by intros [= <-]].
  destruct (_ && _); [by intros [= <-]|done].
Qed.

Lemma from_payload_eq cls document t :
  from_payload iso_time cls document t
  = if truthy (source_id_of cls document) then
      match validate (Doc cls (defaults cls document)) with
      | Ok _ => Ok (Doc cls (stamped cls document t), (stamps document t).2)
      | Raise _ => Raise ValidationError
      end
    else Raise ValidationError.
Proof.
  unfold from_payload. rewrite apply_defaults_eq.
  destruct (truthy (source_id_of cls document)); [|done].
  pose proof (validate_stamped cls document t) as Hv. unfold stamped in *.
  destruct (stamps document t) as [[created_at now] t']. cbn [snd].
  rewrite Hv.
  destruct (validate (Doc cls (defaults cls document))) as [[]|e] eqn:He;
    [done|].
  by rewrite (validate_raises _ _ He).
Qed.

Lemma build_document_eq record t :
  build_document iso_time record t
  = match validated record with
    | Some cls => Ok (Doc cls (stamped cls record t), (stamps record t).2)
    | None => Raise ValidationError
    end.
Proof.
  unfold build_document, validated.
  destruct (get record "kind") as [|b|n|kind] eqn:Hk; cbn [truthy negb].
  - done.
  - by destruct b.
  - by destruct (negb (n =? 0)%Z).
  - destruct kind as [|c kind]; [done|]. cbn [negb].
    destruct (DOCUMENT_REGISTRY !! _) as [cl|]; [|done].
    rewrite from_payload_eq.
    destruct (truthy (source_id_of cl record)); [|done].
    by destruct (validate (Doc cl (defaults cl record))).
Qed.

(** The key of the document built from a valid record. *)
Definition record_key (cls : doc_class) (record : raw_record) : hkey * hkey :=
  (key_of (get record "kind"), key_of (source_id_of cls record)).

Lemma validated_kind record cls :
  validated record = Some cls →
  ∃ kind, record !! "kind" = Some (VStr kind).
Proof.
  unfold validated, get.
  destruct (record !! "kind") as [[| | |kind]|]; try done. eauto.
Qed.

Lemma stamped_lookup cls record t f :
  f ≠ "source" → f ≠ "created_at" → f ≠ "updated_at" →
  stamped cls record t !! f
  = FVal <$> (<["source_id" := source_id_of cls record]>
                (setdefault "kind" (VStr (kind cls)) record) !! f).
Proof.
  intros H1 H2 H3. unfold stamped.
  destruct (stamps record t) as [[created_at now] t'].
  rewrite !lookup_insert_ne by done. by apply defaults_lookup.
Qed.

Lemma doc_key_stamped cls record t :
  validated record = Some cls →
  doc_key (Doc cls (stamped cls record t)) = Some (record_key cls record).
Proof.
  intros [kind Hk]%validated_kind. unfold doc_key, record_key. cbn [data].
  rewrite !stamped_lookup by done.
  rewrite lookup_insert_eq, lookup_insert_ne by done.
  unfold setdefault, get. rewrite Hk. cbn. by rewrite Hk.
Qed.

Lemma stamped_created_at cls record t :
  ∃ c, stamped cls record t !! "created_at" = Some (FVal c)
       ∧ c = (stamps record t).1.1.
Proof.
  unfold stamped. destruct (stamps record t) as [[created_at now] t'].
  exists created_at. rewrite lookup_insert_ne by done.
  by rewrite lookup_insert_eq.
Qed.

(** ** One write *)

Variable MongoClient : str → option exn.
Variable server_error : nat → option exn.

(** The collection the stage writes to. *)
Definition coll (w : world) : collection :=
  default ∅ (database w !! pystr "documents").

(** [document.to_mongo()] at clock reading [t] without its "created_at":
    the "$set" part of the update, which holds the fields of the document
    and the "updated_at" read at [t]. *)
Definition set_part (document : NoSQLBaseDocument) (t : nat) : mongo_doc :=
  delete "created_at" (to_mongo iso_time document t).1.

(** The document a write leaves under the key. *)
Definition written (document : NoSQLBaseDocument) (t : nat) (c : value)
    (old : option mongo_doc) : mongo_doc :=
  match old with
  | None =>
    if truthy c then {[ "created_at" := FVal c ]} ∪ set_part document t
    else set_part document t
  | Some existing => set_part document t ∪ existing
  end.

Lemma upsert_filter_lookup document kind source_id :
  data document !! "kind" = Some kind →
  data document !! "source_id" = Some source_id →
  upsert_filter document !! "kind" = Some kind
  ∧ upsert_filter document !! "source_id" = Some source_id.
Proof.
  intros Hk Hs. unfold upsert_filter. cbn [upsert_fields foldr].
  rewrite Hk, Hs. split.
  - by rewrite lookup_insert_eq.
  - rewrite lookup_insert_ne by done. by rewrite lookup_insert_eq.
Qed.

(** A request the server refuses. *)
Lemma store_document_fault collection document inserted w e :
  server_error (sent w) = Some e →
  store_document iso_time server_error collection document inserted w
  = Raise e.
Proof.
  intros He. unfold store_document, driver_update_one.
  cbn [to_mongo _now_iso]. by rewrite He.
Qed.

Lemma store_document_eq collection document inserted w key c :
  doc_key document = Some key →
  data document !! "created_at" = Some (FVal c) →
  server_error (sent w) = None →
  store_document iso_time server_error collection document inserted w
  = Ok (match coll w !! key with
        | None => inserted + 1
        | Some _ => inserted
        end,
        World (S (clock w))
          (<[pystr "documents" :=
               <[key := written document (clock w) c (coll w !! key)]> (coll w)]>
             (database w))
          (S (sent w))).
Proof.
  intros Hkey Hc Hserver. unfold doc_key in Hkey.
  destruct (data document !! "kind") as [[kind|]|] eqn:Hk; try done.
  destruct (data document !! "source_id") as [[source_id|]|] eqn:Hs; try done.
  injection Hkey as <-.
  destruct (upsert_filter_lookup _ _ _ Hk Hs) as [Hfk Hfs].
  unfold store_document, driver_update_one. rewrite Hserver.
  change (str_or (collection_name (cls document)) collection)
    with (pystr "documents").
  fold (coll w). unfold written, set_part. cbn [to_mongo _now_iso fst].
  unfold update_one. rewrite Hfk, Hfs. cbn [field_key].
  assert (fget (<["updated_at" := FVal (VStr (iso_time (clock w)))]>
                  (data document)) "created_at" = FVal c) as ->.
  { unfold fget. rewrite lookup_insert_ne by done. by rewrite Hc. }
  cbn [ftruthy set_ setOnInsert negb].
  destruct (coll w !! (key_of kind, key_of source_id)) as [existing|];
    [done|].
  by destruct (truthy c).
Qed.

Lemma coll_stored (w : world) (c : collection) t k :
  coll (World t (<[pystr "documents" := c]> (database w)) k) = c.
Proof. unfold coll. cbn [database]. by rewrite lookup_insert_eq. Qed.

Lemma set_part_created_at document t : set_part document t !! "created_at" = None.
Proof. unfold set_part. by rewrite lookup_delete_eq. Qed.

Lemma set_part_lookup document t f :
  f ≠ "created_at" →
  set_part document t !! f
  = (<["updated_at" := FVal (VStr (iso_time t))]> (data document)) !! f.
Proof. intros Hf. unfold set_part. by rewrite lookup_delete_ne. Qed.

(** The "$set" part holds the "updated_at" read from the clock and the
    other fields of the document. *)
Lemma set_part_fields document t :
  set_part document t !! "updated_at" = Some (FVal (VStr (iso_time t)))
  ∧ ∀ f, f ≠ "created_at" → f ≠ "updated_at" →
      set_part document t !! f = data document !! f.
Proof.
  split.
  - rewrite set_part_lookup by done. apply lookup_insert_eq.
  - intros f H1 H2. rewrite set_part_lookup by done.
    by rewrite lookup_insert_ne.
Qed.

(** A write keeps the "created_at" of the document it updates. *)
Lemma written_keeps_created_at document t c existing :
  written document t c (Some existing) !! "created_at"
  = existing !! "created_at".
Proof.
  unfold written. rewrite lookup_union_r; [done|]. apply set_part_created_at.
Qed.

(** A write stores every field of its payload but "created_at". *)
Lemma written_overwrites document t c old f :
  f ≠ "created_at" →
  is_Some (set_part document t !! f) →
  written document t c old !! f = set_part document t !! f.
Proof.
  intros Hf [v Hv]. unfold written. destruct old as [existing|].
  - by rewrite (lookup_union_Some_l _ _ _ _ Hv).
  - destruct (truthy c); [|done].
    rewrite lookup_union_r; [done|]. by rewrite lookup_singleton_ne.
Qed.

(** A write leaves a field that its payload does not carry as it was. *)
Lemma written_frame document t c old f :
  f ≠ "created_at" →
  set_part document t !! f = None →
  written document t c old !! f = old ≫= (.!! f).
Proof.
  intros Hf Hnone. unfold written. destruct old as [existing|]; cbn.
  - by rewrite lookup_union_r.
  - destruct (truthy c); [|done].
    rewrite lookup_union_r by (by rewrite lookup_singleton_ne). done.
Qed.

(** The first write stores the "created_at" of the document, when it has
    one that counts as true. *)
Lemma written_sets_created_at document t c :
  written document t c None !! "created_at"
  = if truthy c then Some (FVal c) else None.
Proof.
  unfold written. destruct (truthy c).
  - apply lookup_union_Some_l. by rewrite lookup_singleton_eq.
  - apply set_part_created_at.
Qed.

(** ** The loop *)

(** What the loop needs of a document: a key and a "created_at". *)
Definition storable (document : NoSQLBaseDocument) : Prop :=
  ∃ key c, doc_key document = Some key
           ∧ data document !! "created_at" = Some (FVal c).

(** [document] is built from [record]. *)
Definition built (record : raw_record) (document : NoSQLBaseDocument) : Prop :=
  ∃ cls t, validated record = Some cls
           ∧ document = Doc cls (stamped cls record t).

Lemma built_storable record document :
  built record document → storable document.
Proof.
  intros (cls & t & Hv & ->).
  destruct (stamped_created_at cls record t) as (c & Hc & _).
  exists (record_key cls record), c. split; [|done].
  by apply doc_key_stamped.
Qed.

Lemma built_key record d1 d2 :
  built record d1 → built record d2 → doc_key d1 = doc_key d2.
Proof.
  intros (cls1 & t1 & Hv1 & ->) (cls2 & t2 & Hv2 & ->).
  rewrite Hv1 in Hv2. injection Hv2 as <-.
  by rewrite !doc_key_stamped.
Qed.

Lemma build_documents_built records : ∀ t documents t',
  build_documents iso_time records t = Ok (documents, t') →
  Forall2 built records documents.
Proof.
  induction records as [|record records IH]; intros t documents t'; simpl.
  - intros [= <- <-]. constructor.
  - rewrite build_document_eq.
    destruct (validated record) as [cls|] eqn:Hv; [|done].
    destruct (build_documents iso_time records (stamps record t).2)
      as [[documents' t'']|] eqn:Hb; [|done].
    intros [= <- <-]. constructor; [|by eapply IH].
    by exists cls, t.
Qed.

Lemma build_documents_again records : ∀ t documents,
  Forall2 built records documents →
  ∃ documents' t',
    build_documents iso_time records t = Ok (documents', t')
    ∧ Forall2 built records documents'.
Proof.
  induction records as [|record records IH]; intros t documents Hb.
  - exists [], t. split; [done|constructor].
  - apply Forall2_cons_inv_l in Hb as (d & ds & (cls & t0 & Hv & _) & Hds & _).
    destruct (IH (stamps record t).2 ds Hds) as (documents' & t' & Hb' & Hf).
    exists (Doc cls (stamped cls record t) :: documents'), t'.
    simpl. rewrite build_document_eq, Hv, Hb'. split; [done|].
    constructor; [|done]. by exists cls, t.
Qed.

Lemma built_all_storable records documents :
  Forall2 built records documents → Forall storable documents.
Proof.
  intros Hb. eapply Forall2_Forall_r; [exact Hb|].
  apply Forall_forall. intros r _ d. apply built_storable.
Qed.

(** No request numbered from [from] on, [count] of them, fails. *)
Definition answered (from count : nat) : Prop :=
  ∀ i, i < count → server_error (from + i) = None.

Lemma answered_S from count :
  answered from (S count)
  ↔ server_error from = None ∧ answered (S from) count.
Proof.
  unfold answered. split.
  - intros Hall. split.
    + rewrite <- (Nat.add_0_r from). apply Hall. lia.
    + intros i Hi. replace (S from + i) with (from + S i) by lia.
      apply Hall. lia.
  - intros [H0 Hall] [|i] Hi.
    + by rewrite Nat.add_0_r.
    + replace (from + S i) with (S from + i) by lia. apply Hall. lia.
Qed.

Lemma answered_le from count count' :
  count' ≤ count → answered from count → answered from count'.
Proof. intros Hle Hall i Hi. apply Hall. lia. Qed.

(** How the loop ends: with the count when every request is answered,
    with the error of the first request that is not. *)
Lemma store_loop_result collection documents : ∀ inserted w,
  Forall storable documents →
  match store_loop iso_time server_error collection documents inserted w with
  | Ok (n, w') =>
    answered (sent w) (length documents)
    ∧ sent w' = sent w + length documents
    ∧ clock w' = clock w + length documents
  | Raise e =>
    ∃ i, i < length documents
         ∧ server_error (sent w + i) = Some e
         ∧ answered (sent w) i
  end.
Proof.
  induction documents as [|document documents IH]; intros inserted w Hall;
    cbn [store_loop length].
  - split; [by intros i ?; lia|]. split; lia.
  - apply Forall_cons in Hall as [(key & c & Hkey & Hc) Hall].
    destruct (server_error (sent w)) as [e|] eqn:Hserver.
    + rewrite (store_document_fault _ _ _ _ _ Hserver).
      exists 0. split; [lia|]. split; [by rewrite Nat.add_0_r|].
      intros i ?. lia.
    + rewrite (store_document_eq _ _ _ _ _ _ Hkey Hc Hserver).
      match goal with
      | |- context [store_loop _ _ _ _ ?n ?w1] =>
        specialize (IH n w1 Hall);
        destruct (store_loop iso_time server_error collection documents n w1)
          as [[n' w']|e]
      end; cbn [sent clock] in IH.
      * destruct IH as (Hans & Hsent & Hclock).
        split; [by apply answered_S|]. split; lia.
      * destruct IH as (i & Hi & He & Hans). exists (S i).
        split; [lia|]. split.
        -- by replace (sent w + S i) with (S (sent w) + i) by lia.
        -- by apply answered_S.
Qed.

Lemma store_loop_total collection documents inserted w :
  Forall storable documents →
  answered (sent w) (length documents) →
  ∃ n w', store_loop iso_time server_error collection documents inserted w
          = Ok (n, w').
Proof.
  intros Hall Hans.
  pose proof (store_loop_result collection documents inserted w Hall) as Hres.
  destruct (store_loop iso_time server_error collection documents inserted w)
    as [[n w']|e]; [by eauto|].
  destruct Hres as (i & Hi & He & _). by rewrite (Hans i Hi) in He.
Qed.

(** One step of a loop that ends well. *)
Lemma store_loop_cons collection document documents inserted w n w' :
  storable document →
  store_loop iso_time server_error collection (document :: documents)
    inserted w = Ok (n, w') →
  ∃ key c,
    doc_key document = Some key
    ∧ data document !! "created_at" = Some (FVal c)
    ∧ store_loop iso_time server_error collection documents
        (match coll w !! key with
         | None => inserted + 1
         | Some _ => inserted
         end)
        (World (S (clock w))
           (<[pystr "documents" :=
                <[key := written document (clock w) c (coll w !! key)]>
                  (coll w)]> (database w))
           (S (sent w)))
      = Ok (n, w').
Proof.
  intros (key & c & Hkey & Hc). cbn [store_loop].
  destruct (server_error (sent w)) as [e|] eqn:Hserver.
  - by rewrite (store_document_fault _ _ _ _ _ Hserver).
  - rewrite (store_document_eq _ _ _ _ _ _ Hkey Hc Hserver).
    intros Hloop. by exists key, c.
Qed.

(** What a loop that ends well leaves in the collection. *)
Lemma store_loop_final collection documents : ∀ inserted w n w',
  Forall storable documents →
  store_loop iso_time server_error collection documents inserted w
  = Ok (n, w') →
  (∀ key old, coll w !! key = Some old →
     ∃ stored, coll w' !! key = Some stored
               ∧ stored !! "created_at" = old !! "created_at")
  ∧ (∀ key f, f ≠ "created_at" →
       (∀ j d, documents !! j = Some d → doc_key d = Some key →
          set_part d (clock w + j) !! f = None) →
       (coll w' !! key) ≫= (.!! f) = (coll w !! key) ≫= (.!! f))
  ∧ (∀ i d key, documents !! i = Some d → doc_key d = Some key →
       ∃ stored, coll w' !! key = Some stored
         ∧ ∀ f v, f ≠ "created_at" →
             set_part d (clock w + i) !! f = Some v →
             (∀ j d', i < j → documents !! j = Some d' →
                doc_key d' = Some key →
                set_part d' (clock w + j) !! f = None) →
             stored !! f = Some v)
  ∧ (∀ i d key c, coll w !! key = None →
       documents !! i = Some d → doc_key d = Some key →
       data d !! "created_at" = Some (FVal c) →
       (∀ j d', j < i → documents !! j = Some d' → doc_key d' ≠ Some key) →
       (coll w' !! key) ≫= (.!! "created_at")
       = if truthy c then Some (FVal c) else None)
  ∧ (∀ key, (∀ d, d ∈ documents → doc_key d ≠ Some key) →
       coll w' !! key = coll w !! key).
Proof.
  induction documents as [|document documents IH];
    intros inserted w n w' Hall Hloop.
  { cbn [store_loop] in Hloop. injection Hloop as <- <-.
    split_and!; [by eauto|done| | |done];
      intros i d key; by rewrite lookup_nil. }
  apply Forall_cons in Hall as [Hd Hall].
  destruct (store_loop_cons _ _ _ _ _ _ _ Hd Hloop)
    as (key0 & c0 & Hkey0 & Hc0 & Hrest).
  apply IH in Hrest as (K1 & F1 & W1 & C1 & U1); [|done].
  rewrite coll_stored in K1, F1, C1, U1. cbn [clock] in F1, W1.
  assert (∀ j, S (clock w) + j = clock w + S j) as Hshift by (intros; lia).
  split_and!.
  - intros key old Hold. destruct (decide (key = key0)) as [->|Hne].
    + destruct (K1 key0 (written document (clock w) c0 (coll w !! key0)))
        as (stored & Hs & Hcr); [apply lookup_insert_eq|].
      exists stored. split; [done|]. rewrite Hcr, Hold.
      apply written_keeps_created_at.
    + apply K1. by rewrite lookup_insert_ne.
  - intros key f Hf Hnone. rewrite F1.
    + destruct (decide (key = key0)) as [->|Hne].
      * rewrite lookup_insert_eq. cbn [mbind option_bind].
        apply written_frame; [done|].
        specialize (Hnone 0 document eq_refl Hkey0).
        by rewrite Nat.add_0_r in Hnone.
      * by rewrite lookup_insert_ne.
    + done.
    + intros j d Hj Hk. rewrite Hshift. by apply (Hnone (S j)).
  - intros [|i] d key Hi Hk.
    + injection Hi as <-. rewrite Hkey0 in Hk. injection Hk as <-.
      destruct (K1 key0 (written document (clock w) c0 (coll w !! key0)))
        as (stored & Hs & _); [apply lookup_insert_eq|].
      exists stored. split; [done|]. intros f v Hf Hv Hlater.
      rewrite Nat.add_0_r in Hv.
      assert ((coll w' !! key0) ≫= (.!! f) = Some v) as Hfield.
      { rewrite F1.
        - rewrite lookup_insert_eq. cbn [mbind option_bind].
          rewrite written_overwrites by (by rewrite ?Hv). done.
        - done.
        - intros j d' Hj Hk'. rewrite Hshift.
          apply (Hlater (S j)); [lia|done..]. }
      by rewrite Hs in Hfield.
    + cbn [lookup list_lookup] in Hi. change (documents !! i = Some d) in Hi.
      destruct (W1 i d key Hi Hk) as (stored & Hs & Hlaw).
      exists stored. split; [done|]. intros f v Hf Hv Hlater.
      apply Hlaw; [done|by rewrite Hshift|].
      intros j d' Hij Hj Hk'. rewrite Hshift.
      apply (Hlater (S j)); [lia|done..].
  - intros [|i] d key c Hnew Hi Hk Hc Hearlier.
    + injection Hi as <-. rewrite Hkey0 in Hk. injection Hk as <-.
      rewrite Hc0 in Hc. injection Hc as <-.
      destruct (K1 key0 (written document (clock w) c0 (coll w !! key0)))
        as (stored & Hs & Hcr); [apply lookup_insert_eq|].
      rewrite Hs. cbn [mbind option_bind]. rewrite Hcr, Hnew.
      apply written_sets_created_at.
    + cbn [lookup list_lookup] in Hi. change (documents !! i = Some d) in Hi.
      assert (key0 ≠ key) as Hne.
      { intros ->. by apply (Hearlier 0 document ltac:(lia) eq_refl). }
      apply (C1 i d key c); [by rewrite lookup_insert_ne|done..|].
      intros j d' Hj Hd'. apply (Hearlier (S j) d'); [lia|done].
  - intros key Hnot. rewrite U1.
    + rewrite lookup_insert_ne; [done|]. intros ->.
      by apply (Hnot document ltac:(by left)).
    + intros d Hin. apply Hnot. by right.
Qed.

(** A loop over documents whose keys are all stored inserts nothing. *)
Lemma store_loop_known collection documents : ∀ inserted w n w',
  Forall storable documents →
  (∀ document key, document ∈ documents → doc_key document = Some key →
     is_Some (coll w !! key)) →
  store_loop iso_time server_error collection documents inserted w
  = Ok (n, w') →
  n = inserted.
Proof.
  induction documents as [|document documents IH];
    intros inserted w n w' Hall Hknown Hloop.
  { cbn [store_loop] in Hloop. by injection Hloop as <- _. }
  apply Forall_cons in Hall as [Hd Hall].
  destruct (store_loop_cons _ _ _ _ _ _ _ Hd Hloop)
    as (key0 & c0 & Hkey0 & Hc0 & Hrest).
  destruct (Hknown document key0 ltac:(by left) Hkey0) as [old Hold].
  rewrite Hold in Hrest.
  apply IH in Hrest; [done|done|].
  intros d key Hin Hk. rewrite coll_stored.
  destruct (decide (key = key0)) as [->|Hne].
  - rewrite lookup_insert_eq. eauto.
  - rewrite lookup_insert_ne by done. apply (Hknown d); [by right|done].
Qed.

Lemma stamps_created_at_truthy record t :
  (∀ i, iso_time i ≠ []) → truthy (stamps record t).1.1 = true.
Proof.
  intros Hclock. unfold stamps.
  destruct (truthy (get record "created_at")) eqn:Hc; cbn [fst]; [done|].
  specialize (Hclock t). cbn. by destruct (iso_time t).
Qed.

Lemma built_created_at record document :
  built record document →
  ∃ c, data document !! "created_at" = Some (FVal c)
       ∧ ((∀ i, iso_time i ≠ []) → truthy c = true).
Proof.
  intros (cls & t & Hv & ->). cbn [data].
  destruct (stamped_created_at cls record t) as (c & Hc & ->).
  exists (stamps record t).1.1. split; [done|].
  intros Hclock. by apply stamps_created_at_truthy.
Qed.

(** The run of the stage on a batch that is not empty. *)
Lemma store_records_eq records mongo_url collection w :
  records ≠ [] →
  store_records iso_time MongoClient server_error records mongo_url
    collection w
  = match build_documents iso_time records (clock w) with
    | Raise e => Raise e
    | Ok (documents, t) =>
      match MongoClient mongo_url with
      | Some e => Raise e
      | None =>
        store_loop iso_time server_error collection documents 0
          (World t (database w) (sent w))
      end
    end.
Proof. by destruct records. Qed.

Lemma build_documents_length records : ∀ t documents t',
  build_documents iso_time records t = Ok (documents, t') →
  length documents = length records.
Proof.
  intros t documents t' Hb. apply build_documents_built in Hb.
  symmetry. by eapply Forall2_length.
Qed.

(** C1.  The stage writes every document of the batch, in order, under
    its key (kind, source_id).  A key that is stored keeps its
    "created_at" through every write; a key that is new gets the
    "created_at" of the first document of the batch with that key.  A
    write stores every field its document carries other than
    "created_at", the "updated_at" read from the clock at the write among
    them, so that after the run a field has the value of the last
    document of its key that carries it; a field that no written document
    of the key carries stays as it was stored.  Keys without a document in
    the batch are untouched.  A second run of the same batch, when the
    server answers its requests, ends well; it reports no insertion and
    keeps every "created_at". *)
Theorem store_records_upsert (records : list raw_record)
    (mongo_url collection : str) (w : world) (n : nat) (w' : world) :
  store_records iso_time MongoClient server_error records mongo_url
    collection w = Ok (n, w') →
  ∃ documents t,
    build_documents iso_time records (clock w) = Ok (documents, t)
    ∧ length documents = length records
    ∧ (∀ i document, documents !! i = Some document →
         ∃ key c stored,
           doc_key document = Some key
           ∧ data document !! "created_at" = Some (FVal c)
           ∧ ((∀ i, iso_time i ≠ []) → truthy c = true)
           ∧ coll w' !! key = Some stored
           ∧ (∀ f v, f ≠ "created_at" →
                set_part document (t + i) !! f = Some v →
                (∀ j later, i < j → documents !! j = Some later →
                   doc_key later = Some key →
                   set_part later (t + j) !! f = None) →
                stored !! f = Some v)
           ∧ match coll w !! key with
             | Some old => stored !! "created_at" = old !! "created_at"
             | None =>
               (∀ j earlier, j < i → documents !! j = Some earlier →
                  doc_key earlier ≠ Some key) →
               stored !! "created_at"
               = if truthy c then Some (FVal c) else None
             end)
    ∧ (∀ document t0,
         set_part document t0 !! "updated_at"
         = Some (FVal (VStr (iso_time t0)))
         ∧ ∀ f, f ≠ "created_at" → f ≠ "updated_at" →
             set_part document t0 !! f = data document !! f)
    ∧ (∀ key old, coll w !! key = Some old →
         ∃ stored, coll w' !! key = Some stored
                   ∧ stored !! "created_at" = old !! "created_at")
    ∧ (∀ key f, f ≠ "created_at" →
         (∀ j document, documents !! j = Some document →
            doc_key document = Some key →
            set_part document (t + j) !! f = None) →
         (coll w' !! key) ≫= (.!! f) = (coll w !! key) ≫= (.!! f))
    ∧ (∀ key, (∀ document, document ∈ documents →
                 doc_key document ≠ Some key) →
         coll w' !! key = coll w !! key)
    ∧ (∀ n2 w'',
         store_records iso_time MongoClient server_error records mongo_url
           collection w' = Ok (n2, w'') →
         n2 = 0
         ∧ ∀ key doc, coll w' !! key = Some doc →
             ∃ doc', coll w'' !! key = Some doc'
                     ∧ doc' !! "created_at" = doc !! "created_at")
    ∧ ((∀ i, i < length records → server_error (sent w' + i) = None) →
       ∃ w'',
         store_records iso_time MongoClient server_error records mongo_url
           collection w' = Ok (0, w'')).
Proof.
  intros Hrun.
  destruct (decide (records = [])) as [->|Hne].
  { cbn [store_records] in Hrun. injection Hrun as <- <-.
    exists [], (clock w). split_and!; try done.
    - intros document t0. apply set_part_fields.
    - by eauto.
    - cbn [store_records]. intros n2 w'' [= <- <-]. by eauto.
    - by eauto. }
  rewrite store_records_eq in Hrun by done.
  destruct (build_documents iso_time records (clock w))
    as [[documents t]|] eqn:Hb; [|done].
  destruct (MongoClient mongo_url) as [e|] eqn:Hclient; [done|].
  pose proof (build_documents_built _ _ _ _ Hb) as Hbuilt.
  pose proof (built_all_storable _ _ Hbuilt) as Hst.
  destruct (store_loop_final _ _ _ _ _ _ Hst Hrun) as (K & F & W & C & U).
  change (coll (World t (database w) (sent w))) with (coll w) in K, F, W, C, U.
  cbn [clock] in F, W.
  assert (∀ d key, d ∈ documents → doc_key d = Some key →
            is_Some (coll w' !! key)) as Hknown.
  { intros d key [i Hi]%list_elem_of_lookup Hk.
    destruct (W i d key Hi Hk) as (stored & Hs & _). eauto. }
  assert (∀ n2 w'',
            store_records iso_time MongoClient server_error records mongo_url
              collection w' = Ok (n2, w'') →
            n2 = 0
            ∧ ∀ key doc, coll w' !! key = Some doc →
                ∃ doc', coll w'' !! key = Some doc'
                        ∧ doc' !! "created_at" = doc !! "created_at")
    as Hsecond.
  { intros n2 w'' Hrun2. rewrite store_records_eq in Hrun2 by done.
    destruct (build_documents iso_time records (clock w'))
      as [[documents2 t2]|] eqn:Hb2; [|done].
    rewrite Hclient in Hrun2.
    pose proof (build_documents_built _ _ _ _ Hb2) as Hbuilt2.
    pose proof (built_all_storable _ _ Hbuilt2) as Hst2.
    split.
    - eapply store_loop_known; [exact Hst2| |exact Hrun2].
      intros d2 key [i Hi]%list_elem_of_lookup Hk.
      change (coll (World t2 (database w') (sent w'))) with (coll w').
      destruct (Forall2_lookup_r _ _ _ _ _ Hbuilt2 Hi) as (r & Hr & Hbr).
      destruct (Forall2_lookup_l _ _ _ _ _ Hbuilt Hr) as (d1 & Hd1 & Hbr1).
      apply (Hknown d1); [by eapply list_elem_of_lookup_2|].
      by rewrite (built_key _ _ _ Hbr1 Hbr).
    - by destruct (store_loop_final _ _ _ _ _ _ Hst2 Hrun2) as (K2 & _). }
  exists documents, t. split; [done|].
  split; [by eapply build_documents_length|].
  split_and!.
  - intros i document Hi.
    destruct (Forall2_lookup_r _ _ _ _ _ Hbuilt Hi) as (r & Hr & Hbr).
    destruct (built_created_at _ _ Hbr) as (c & Hc & Htruthy).
    destruct (built_storable _ _ Hbr) as (key & c' & Hk & _).
    destruct (W i document key Hi Hk) as (stored & Hs & Hlaw).
    exists key, c, stored. split_and!; try done.
    destruct (coll w !! key) as [old|] eqn:Hold.
    + destruct (K key old Hold) as (stored' & Hs' & Hcr).
      rewrite Hs in Hs'. by injection Hs' as <-.
    + intros Hearlier.
      pose proof (C i document key c Hold Hi Hk Hc Hearlier) as Hcr.
      by rewrite Hs in Hcr.
  - intros document t0. apply set_part_fields.
  - exact K.
  - exact F.
  - exact U.
  - exact Hsecond.
  - intros Hanswered. rewrite store_records_eq by done.
    destruct (build_documents_again _ (clock w') _ Hbuilt)
      as (documents2 & t2 & Hb2 & Hbuilt2).
    rewrite Hb2, Hclient.
    pose proof (built_all_storable _ _ Hbuilt2) as Hst2.
    destruct (store_loop_total collection documents2 0
                (World t2 (database w') (sent w')) Hst2) as (n2 & w'' & Hrun2).
    { intros i Hi. cbn [sent]. apply Hanswered.
      by rewrite (Forall2_length _ _ _ Hbuilt2). }
    destruct (Hsecond n2 w'') as [-> _].
    { rewrite store_records_eq by done. by rewrite Hb2, Hclient. }
    by eauto.
Qed.

End StageProofs.

(** ** The scenario of [tests/test_store.py] *)

Definition sample_clock (n : nat) : str :=
  pystr "2024-05-01T10:00:" ++ Normalize.zero_pad 2 (N.of_nat n)
  ++ pystr "+00:00".

Definition poem_record : raw_record :=
  {[ "kind" := VStr (pystr "poem_page");
     "title" := VStr (pystr "Kiz Cocugu");
     "text_full" := VStr (pystr "Stillenecektir dunya");
     "hash" := VStr (pystr "poem-1") ]}.

Definition updated_record : raw_record :=
  {[ "kind" := VStr (pystr "poem_page");
     "title" := VStr (pystr "Kiz Cocugu");
     "summary" := VStr (pystr "Ozet versiyon");
     "hash" := VStr (pystr "poem-1") ]}.

Definition poem_key : hkey * hkey :=
  (KStr (pystr "poem_page"), KStr (pystr "poem-1")).

Definition empty_world : world := World 0 ∅ 0.

(** [FakeMongoClient] of the test: it is built for every URL, and its
    collections answer every request. *)
Definition FakeMongoClient (mongo_url : str) : option exn := None.

Definition fake_server (request : nat) : option exn := None.

Definition world_after (records : list raw_record) (w : world) : world :=
  match store_records sample_clock FakeMongoClient fake_server records
          (pystr "mongodb://fake") (pystr "documents") w with
  | Ok (_, w') => w'
  | Raise _ => w
  end.

Definition world_first : world :=
  Eval vm_compute in world_after [poem_record] empty_world.

Definition world_second : world :=
  Eval vm_compute in world_after [updated_record] world_first.

Example store_then_update :
  store_records sample_clock FakeMongoClient fake_server [poem_record]
    (pystr "mongodb://fake") (pystr "documents") empty_world
  = Ok (1, world_first)
  ∧ store_records sample_clock FakeMongoClient fake_server [updated_record]
      (pystr "mongodb://fake") (pystr "documents") world_first
    = Ok (0, world_second)
  ∧ (coll world_first !! poem_key) ≫= (.!! "created_at")
    = Some (FVal (VStr (sample_clock 0)))
  ∧ (coll world_second !! poem_key) ≫= (.!! "created_at")
    = Some (FVal (VStr (sample_clock 0)))
  ∧ (coll world_first !! poem_key) ≫= (.!! "updated_at")
    = Some (FVal (VStr (sample_clock 2)))
  ∧ (coll world_second !! poem_key) ≫= (.!! "updated_at")
    = Some (FVal (VStr (sample_clock 5)))
  ∧ (coll world_second !! poem_key) ≫= (.!! "summary")
    = Some (FVal (VStr (pystr "Ozet versiyon")))
  ∧ (coll world_second !! poem_key) ≫= (.!! "kind")
    = Some (FVal (VStr (pystr "poem_page"))).
Proof. split_and!; vm_compute; reflexivity. Qed.

(** Without pymongo the stage still takes an empty batch and still rejects
    a record that is no document; a batch of documents ends in the error
    of the constructor of the client.  With a server that refuses the
    second request the batch of two ends in that error. *)
Example store_without_driver :
  store_records sample_clock MongoClient_missing fake_server []
    (pystr "mongodb://fake") (pystr "documents") empty_world
  = Ok (0, empty_world)
  ∧ store_records sample_clock MongoClient_missing fake_server [poem_record]
      (pystr "mongodb://fake") (pystr "documents") empty_world
    = Raise ModuleNotFoundError
  ∧ store_records sample_clock MongoClient_missing fake_server
      [poem_record; ∅] (pystr "mongodb://fake") (pystr "documents")
      empty_world
    = Raise ValidationError
  ∧ store_records sample_clock FakeMongoClient
      (λ request, if request =? 1 then Some PyMongoError else None)
      [poem_record; updated_record] (pystr "mongodb://fake")
      (pystr "documents") empty_world
    = Raise PyMongoError.
Proof. split_and!; vm_compute; reflexivity. Qed.

(** The document built from the second record of the test. *)
Definition updated_document : NoSQLBaseDocument :=
  Eval vm_compute in
    match build_document sample_clock updated_record (clock world_first) with
    | Ok (document, _) => document
    | Raise _ => Doc PoemPageDocument ∅
    end.

(** The second record of the test carries no "text_full".  Its write
    leaves the "text_full" stored by the first record where it was: the
    field is not overwritten. *)
Lemma store_records_overwrite_counterexample :
  store_records sample_clock FakeMongoClient fake_server [updated_record]
    (pystr "mongodb://fake") (pystr "documents") world_first
  = Ok (0, world_second)
  ∧ build_documents sample_clock [updated_record] (clock world_first)
    = Ok ([updated_document], 5)
  ∧ doc_key updated_document = Some poem_key
  ∧ (to_mongo sample_clock updated_document 5).1 !! "text_full" = None
  ∧ (coll world_first !! poem_key) ≫= (.!! "text_full")
    = Some (FVal (VStr (pystr "Stillenecektir dunya")))
  ∧ (coll world_second !! poem_key) ≫= (.!! "text_full")
    = Some (FVal (VStr (pystr "Stillenecektir dunya")))
  ∧ (coll world_second !! poem_key) ≫= (.!! "text_full")
    ≠ (to_mongo sample_clock updated_document 5).1 !! "text_full".
Proof. split_and!; try (vm_compute; reflexivity). vm_compute. discriminate. Qed.

Lemma store_records_upsert_witness :
  store_records sample_clock FakeMongoClient fake_server
    [poem_record; updated_record] (pystr "mongodb://fake")
    (pystr "documents") empty_world = Ok (1, world_second)
  ∧ (∃ documents t,
       build_documents sample_clock [poem_record; updated_record]
         (clock empty_world) = Ok (documents, t)
       ∧ length documents = 2)
  ∧ ∃ w'',
      store_records sample_clock FakeMongoClient fake_server
        [poem_record; updated_record] (pystr "mongodb://fake")
        (pystr "documents") world_second = Ok (0, w'').
Proof.
  assert (store_records sample_clock FakeMongoClient fake_server
            [poem_record; updated_record] (pystr "mongodb://fake")
            (pystr "documents") empty_world = Ok (1, world_second)) as Hrun
    by (vm_compute; reflexivity).
  split; [exact Hrun|].
  destruct (store_records_upsert sample_clock FakeMongoClient fake_server
              _ _ _ _ _ _ Hrun)
    as (documents & t & Hb & Hlen & _ & _ & _ & _ & _ & _ & Hagain).
  split.
  - exists documents, t. split; [exact Hb|exact Hlen].
  - apply Hagain. intros i _. reflexivity.
Defined.

(** ** Validation *)

Section StageLaws.
Variable iso_time : nat → str.

(** The registry holds each class under its kind, and nothing else. *)
Lemma document_registry_lookup (k : str) (cl : doc_class) :
  DOCUMENT_REGISTRY !! k = Some cl ↔ k = kind cl.
Proof.
  split.
  - intros Hk. apply elem_of_list_to_map_2 in Hk.
    rewrite !fmap_cons, fmap_nil in Hk.
    repeat (apply elem_of_cons in Hk as [[= -> ->]|Hk]; [reflexivity|]).
    by apply elem_of_nil in Hk.
  - intros ->. destruct cl; vm_compute; reflexivity.
Qed.

Lemma kind_nonempty (cl : doc_class) : kind cl ≠ [].
Proof. by destruct cl. Qed.

(** The value [source_id] is given: the first truthy of "source_id",
    "hash" and "source_url". *)
Definition first_source_id (record : raw_record) : value :=
  por (por (get record "source_id") (get record "hash"))
      (get record "source_url").

Lemma source_id_of_eq cl record :
  source_id_of cl record = first_source_id record.
Proof.
  unfold source_id_of, first_source_id, get.
  by rewrite !Base.setdefault_lookup_ne.
Qed.

Lemma fget_lifted (o : option value) :
  default (FVal VNone) (FVal <$> o) = FVal (default VNone o).
Proof. by destruct o. Qed.

Lemma fget_defaults cl record f :
  f ≠ "source" → f ≠ "source_id" → f ≠ "kind" →
  fget (defaults cl record) f = FVal (get record f).
Proof.
  intros H1 H2 H3. unfold fget, get. rewrite defaults_lookup by done.
  rewrite lookup_insert_ne by done.
  rewrite Base.setdefault_lookup_ne by done. apply fget_lifted.
Qed.

Lemma fget_defaults_source_id cl record :
  fget (defaults cl record) "source_id" = FVal (first_source_id record).
Proof.
  unfold fget. rewrite defaults_lookup by done.
  rewrite lookup_insert_eq. cbn. by rewrite source_id_of_eq.
Qed.

Lemma fget_defaults_kind cl record v :
  record !! "kind" = Some v →
  fget (defaults cl record) "kind" = FVal v.
Proof.
  intros Hk. unfold fget. rewrite defaults_lookup by done.
  rewrite lookup_insert_ne by done. unfold setdefault. by rewrite Hk, Hk.
Qed.

(** The content a class asks for. *)
Definition has_content (cl : doc_class) (record : raw_record) : bool :=
  negb (requires_content cl)
  || truthy (get record "text_full") || truthy (get record "summary").

Lemma validate_defaults cl record :
  record !! "kind" = Some (VStr (kind cl)) →
  truthy (first_source_id record) = true →
  validate (Doc cl (defaults cl record))
  = if truthy (get record "title") && has_content cl record
    then Ok tt else Raise ValidationError.
Proof.
  intros Hk Hs. unfold validate, has_content.
  cbn [data cls required_fields upsert_fields List.filter forallb].
  rewrite (fget_defaults_kind _ _ _ Hk), fget_defaults_source_id.
  rewrite !fget_defaults by done. cbn [ftruthy]. rewrite Hs.
  assert (truthy (VStr (kind cl)) = true) as -> by by destruct cl.
  destruct (truthy (get record "title")); cbn; [|done].
  destruct (requires_content cl); cbn; [|done].
  by destruct (truthy (get record "text_full") || truthy (get record "summary")).
Qed.

Lemma get_VStr (record : raw_record) f (v : str) :
  get record f = VStr v ↔ record !! f = Some (VStr v).
Proof.
  unfold get. destruct (record !! f) as [x|]; cbn [default from_option id].
  - split; [by intros ->|by intros [= ->]].
  - split; discriminate.
Qed.

Lemma validated_Some record cl :
  validated record = Some cl ↔
  record !! "kind" = Some (VStr (kind cl))
  ∧ truthy (first_source_id record) = true
  ∧ truthy (get record "title") = true
  ∧ has_content cl record = true.
Proof.
  unfold validated. split.
  - destruct (get record "kind") as [| | |k] eqn:Hk; try done.
    apply get_VStr in Hk.
    destruct k as [|c k]; [done|].
    destruct (DOCUMENT_REGISTRY !! _) as [cl'|] eqn:Hreg; [|done].
    apply document_registry_lookup in Hreg.
    rewrite source_id_of_eq.
    destruct (truthy (first_source_id record)) eqn:Hs; [|done].
    rewrite Hreg in Hk.
    rewrite (validate_defaults cl' record Hk Hs).
    destruct (truthy (get record "title")) eqn:Ht; [|done].
    destruct (has_content cl' record) eqn:Hc; [|done].
    cbn [andb]. by intros [= <-].
  - intros (Hk & Hs & Ht & Hc). rewrite (proj2 (get_VStr _ _ _) Hk).
    pose proof (kind_nonempty cl) as Hne.
    assert (DOCUMENT_REGISTRY !! kind cl = Some cl) as Hreg
      by by apply document_registry_lookup.
    destruct (kind cl) as [|c k] eqn:Hkind; [done|].
    rewrite Hreg.
    rewrite source_id_of_eq, Hs, (validate_defaults cl record); [|by rewrite Hkind|done].
    by rewrite Ht, Hc.
Qed.

(** X3.  A record is accepted as a document exactly when its kind is the
    kind of one of the seven document classes, one of "source_id", "hash"
    and "source_url" is truthy, its title is truthy and, for the kinds
    poem_page, pdf_poems and news, "text_full" or "summary" is truthy;
    every other record is rejected with [ValidationError], whatever the
    clock reads. *)
Theorem build_document_accepts (record : raw_record) (t : nat) :
  ((∃ document t', build_document iso_time record t = Ok (document, t'))
   ↔ ∃ cl,
       record !! "kind" = Some (VStr (kind cl))
       ∧ (truthy (get record "source_id") = true
          ∨ truthy (get record "hash") = true
          ∨ truthy (get record "source_url") = true)
       ∧ truthy (get record "title") = true
       ∧ (requires_content cl = true →
          truthy (get record "text_full") = true
          ∨ truthy (get record "summary") = true))
  ∧ (∀ e, build_document iso_time record t = Raise e → e = ValidationError).
Proof.
  rewrite build_document_eq.
  split; [|intros e; destruct (validated record); [done|by intros [= <-]]].
  assert (∀ cl, has_content cl record = true ↔
            (requires_content cl = true →
             truthy (get record "text_full") = true
             ∨ truthy (get record "summary") = true)) as Hcontent.
  { intros cl. unfold has_content.
    destruct (requires_content cl), (truthy (get record "text_full")),
      (truthy (get record "summary")); cbn; intuition discriminate. }
  assert (truthy (first_source_id record) = true ↔
            (truthy (get record "source_id") = true
             ∨ truthy (get record "hash") = true
             ∨ truthy (get record "source_url") = true)) as Hsid.
  { unfold first_source_id, por.
    destruct (truthy (get record "source_id")) eqn:H1;
      [rewrite H1; tauto|].
    destruct (truthy (get record "hash")) eqn:H2;
      [rewrite H2; tauto|].
    intuition discriminate. }
  split.
  - destruct (validated record) as [cl|] eqn:Hv; [|by intros (? & ? & ?)].
    intros _. exists cl. apply validated_Some in Hv as (Hk & Hs & Ht & Hc).
    split; [done|]. split; [by apply Hsid|]. split; [done|by apply Hcontent].
  - intros (cl & Hk & Hs & Ht & Hc).
    rewrite (proj2 (validated_Some record cl)); [by eauto|].
    split; [done|]. split; [by apply Hsid|]. split; [done|by apply Hcontent].
Qed.

(** The "source" object of a document. *)
Definition source_of (record : raw_record) : raw_record :=
  let with_name : raw_record :=
    if truthy (get record "source_name")
    then {[ "name" := get record "source_name" ]} else ∅ in
  if truthy (get record "source_url")
  then <["url" := get record "source_url"]> with_name else with_name.

Lemma defaults_source cl record :
  defaults cl record !! "source" = Some (FDict (source_of record)).
Proof.
  unfold defaults. rewrite lookup_insert_eq. do 2 f_equal.
  unfold source_of.
  assert (∀ f, f ≠ "source_id" → f ≠ "kind" →
            get (<["source_id" := por (por (get (setdefault "kind" (VStr (kind cl)) record) "source_id")
                                            (get (setdefault "kind" (VStr (kind cl)) record) "hash"))
                                       (get (setdefault "kind" (VStr (kind cl)) record) "source_url")]>
                   (setdefault "kind" (VStr (kind cl)) record)) f
            = get record f) as Hget.
  { intros f H1 H2. unfold get. rewrite lookup_insert_ne by done.
    by rewrite Base.setdefault_lookup_ne. }
  rewrite !Hget by done.
  destruct (truthy (get record "source_name")),
    (truthy (get record "source_url")); reflexivity.
Qed.

(** X4.  The document built from an accepted record keeps the kind of the
    record, takes as "source_id" the first truthy of "source_id", "hash"
    and "source_url", gathers the truthy "source_name" and "source_url"
    under "source" as "name" and "url", keeps a truthy "created_at" and
    otherwise reads it from the clock, reads "updated_at" from the clock,
    and keeps every other field of the record; its upsert filter has the
    two keys "kind" and "source_id". *)
Theorem build_document_contents (record : raw_record) (t : nat)
    (document : NoSQLBaseDocument) (t' : nat) :
  build_document iso_time record t = Ok (document, t') →
  data document !! "kind" = FVal <$> record !! "kind"
  ∧ data document !! "source_id" = Some (FVal (first_source_id record))
  ∧ (∃ source,
       data document !! "source" = Some (FDict source)
       ∧ source !! "name"
         = (if truthy (get record "source_name")
            then Some (get record "source_name") else None)
       ∧ source !! "url"
         = (if truthy (get record "source_url")
            then Some (get record "source_url") else None)
       ∧ ∀ k, k ≠ "name" → k ≠ "url" → source !! k = None)
  ∧ (if truthy (get record "created_at")
     then data document !! "created_at" = Some (FVal (get record "created_at"))
          ∧ data document !! "updated_at" = Some (FVal (VStr (iso_time t)))
          ∧ t' = S t
     else data document !! "created_at" = Some (FVal (VStr (iso_time t)))
          ∧ data document !! "updated_at" = Some (FVal (VStr (iso_time (S t))))
          ∧ t' = S (S t))
  ∧ (∀ f, f ≠ "source_id" → f ≠ "source" → f ≠ "created_at" →
          f ≠ "updated_at" → data document !! f = FVal <$> record !! f)
  ∧ dom (upsert_filter document) = {[ "kind"; "source_id" ]}.
Proof.
  rewrite build_document_eq.
  destruct (validated record) as [cl|] eqn:Hv; [|done].
  intros [= <- <-]. cbn [data].
  destruct (validated_kind _ _ Hv) as [k Hk].
  assert (∀ f, f ≠ "source_id" → f ≠ "source" → f ≠ "created_at" →
               f ≠ "updated_at" →
               stamped iso_time cl record t !! f = FVal <$> record !! f)
    as Hother.
  { intros f H1 H2 H3 H4. rewrite stamped_lookup by done.
    rewrite lookup_insert_ne by done. f_equal.
    destruct (decide (f = "kind")) as [->|Hf].
    - unfold setdefault. by rewrite Hk.
    - by rewrite Base.setdefault_lookup_ne. }
  assert (stamped iso_time cl record t !! "source_id"
          = Some (FVal (first_source_id record))) as Hsid.
  { rewrite stamped_lookup by done. rewrite lookup_insert_eq.
    by rewrite source_id_of_eq. }
  split; [by apply Hother|]. split; [exact Hsid|]. split.
  { exists (source_of record). split.
    - unfold stamped. destruct (stamps iso_time record t) as [[c now] t''].
      rewrite !lookup_insert_ne by done. apply defaults_source.
    - unfold source_of.
      destruct (truthy (get record "source_name")),
        (truthy (get record "source_url")); split_and!; try done;
        intros f H1 H2; by rewrite ?lookup_insert_ne, ?lookup_singleton_ne. }
  split.
  { unfold stamped, stamps.
    destruct (truthy (get record "created_at")); cbn [snd];
      (split; [rewrite lookup_insert_ne by done; by rewrite lookup_insert_eq|]);
      (split; [by rewrite lookup_insert_eq|done]). }
  split; [exact Hother|].
  unfold upsert_filter. cbn [upsert_fields foldr data cls].
  rewrite Hsid, (Hother "kind"), Hk by done. cbn [fmap option_fmap option_map].
  rewrite !dom_insert_L, dom_empty_L. set_solver.
Qed.

(** ** Failure and success of the stage *)

Variable MongoClient : str → option exn.
Variable server_error : nat → option exn.

Lemma build_documents_result records : ∀ t,
  match build_documents iso_time records t with
  | Ok (documents, _) => Forall2 (built iso_time) records documents
  | Raise e => e = ValidationError ∧ Exists (λ r, validated r = None) records
  end.
Proof.
  induction records as [|record records IH]; intros t; cbn [build_documents].
  - constructor.
  - rewrite build_document_eq.
    destruct (validated record) as [cl|] eqn:Hv.
    + specialize (IH (stamps iso_time record t).2).
      destruct (build_documents iso_time records (stamps iso_time record t).2)
        as [[documents t']|e].
      * constructor; [|done]. by exists cl, t.
      * destruct IH as [-> Hex]. split; [done|]. by right.
    + split; [done|]. by left.
Qed.

(** The run of the stage, by the three places where it can end. *)
Lemma store_records_cases (records : list raw_record)
    (mongo_url collection : str) (w : world) :
  records ≠ [] →
  match store_records iso_time MongoClient server_error records mongo_url
          collection w with
  | Ok (n, w') =>
    Forall (λ r, is_Some (validated r)) records
    ∧ MongoClient mongo_url = None
    ∧ answered server_error (sent w) (length records)
  | Raise e =>
    (e = ValidationError ∧ Exists (λ r, validated r = None) records)
    ∨ (Forall (λ r, is_Some (validated r)) records
       ∧ (MongoClient mongo_url = Some e
          ∨ (MongoClient mongo_url = None
             ∧ ∃ i, i < length records
                    ∧ server_error (sent w + i) = Some e
                    ∧ answered server_error (sent w) i)))
  end.
Proof.
  intros Hne. rewrite store_records_eq by done.
  pose proof (build_documents_result records (clock w)) as Hb.
  destruct (build_documents iso_time records (clock w))
    as [[documents t]|e0]; [|by left].
  assert (Forall (λ r, is_Some (validated r)) records) as Hvalid.
  { eapply Forall2_Forall_l; [exact Hb|].
    apply Forall_forall. intros d _ r (cl & t0 & Hv & _). by rewrite Hv. }
  pose proof (Forall2_length _ _ _ Hb) as Hlen.
  destruct (MongoClient mongo_url) as [e|]; [right; by eauto|].
  pose proof (store_loop_result iso_time server_error collection documents 0
                (World t (database w) (sent w))
                (built_all_storable _ _ _ Hb)) as Hres.
  cbn [sent] in Hres. rewrite <- Hlen in Hres.
  destruct (store_loop iso_time server_error collection documents 0
              (World t (database w) (sent w))) as [[n w']|e].
  - by destruct Hres as (Hans & _).
  - right. split; [done|]. by right.
Qed.

(** X5.  The stage ends with a count exactly when every record of the
    batch is accepted as a document and, for a batch that is not empty,
    the client is constructed and the server answers each of the requests,
    one for each record.  A batch with a rejected record is rejected as a
    whole with [ValidationError], before the client is constructed and
    before any write; otherwise the stage ends in the exception of the
    constructor of the client, or in that of the first request that
    fails. *)
Theorem store_records_succeeds (records : list raw_record)
    (mongo_url collection : str) (w : world) :
  ((∃ n w', store_records iso_time MongoClient server_error records
              mongo_url collection w = Ok (n, w'))
   ↔ Forall (λ r, ∃ document t',
                build_document iso_time r 0 = Ok (document, t')) records
     ∧ (records ≠ [] →
        MongoClient mongo_url = None
        ∧ ∀ i, i < length records → server_error (sent w + i) = None))
  ∧ (∀ e, store_records iso_time MongoClient server_error records mongo_url
            collection w = Raise e →
       (e = ValidationError
        ∧ Exists (λ r, ∀ t, build_document iso_time r t
                            = Raise ValidationError) records)
       ∨ (Forall (λ r, ∃ document t',
                    build_document iso_time r 0 = Ok (document, t')) records
          ∧ (MongoClient mongo_url = Some e
             ∨ (MongoClient mongo_url = None
                ∧ ∃ i, i < length records
                       ∧ server_error (sent w + i) = Some e
                       ∧ ∀ j, j < i → server_error (sent w + j) = None))))
  ∧ (Exists (λ r, ∀ t, build_document iso_time r t
                       = Raise ValidationError) records →
     store_records iso_time MongoClient server_error records mongo_url
       collection w = Raise ValidationError).
Proof.
  assert (∀ r, (∃ document t', build_document iso_time r 0 = Ok (document, t'))
               ↔ is_Some (validated r)) as Hacc.
  { intros r. rewrite build_document_eq.
    destruct (validated r) as [cl|].
    - split; by eauto.
    - split; [by intros (? & ? & ?)|by intros [? ?]]. }
  assert (∀ r, (∀ t, build_document iso_time r t = Raise ValidationError)
               ↔ validated r = None) as Hrej.
  { intros r. split.
    - intros Hr. specialize (Hr 0). rewrite build_document_eq in Hr.
      by destruct (validated r).
    - intros Hv t. by rewrite build_document_eq, Hv. }
  assert (Forall (λ r, ∃ document t',
                    build_document iso_time r 0 = Ok (document, t')) records
          ↔ Forall (λ r, is_Some (validated r)) records) as Hall.
  { apply Forall_iff. intros r. apply Hacc. }
  assert (Exists (λ r, ∀ t, build_document iso_time r t
                            = Raise ValidationError) records
          ↔ Exists (λ r, validated r = None) records) as Hex.
  { split; intros H; (eapply Exists_impl; [exact H|]); intros r; apply Hrej. }
  assert (Forall (λ r, is_Some (validated r)) records →
          Exists (λ r, validated r = None) records → False) as Hboth.
  { intros Hf (r & Hin & Hv)%Exists_exists.
    rewrite Forall_forall in Hf. specialize (Hf r Hin).
    rewrite Hv in Hf. by destruct Hf. }
  destruct (decide (records = [])) as [->|Hne].
  { cbn [store_records]. split_and!.
    - split; [intros _; split; [constructor|done]|by eauto].
    - done.
    - by intros ?%Exists_nil. }
  pose proof (store_records_cases records mongo_url collection w Hne)
    as Hcases.
  destruct (store_records iso_time MongoClient server_error records mongo_url
              collection w) as [[n w']|e0].
  - destruct Hcases as (Hvalid & Hclient & Hans). split_and!.
    + split; [|by eauto]. intros _. split; [by apply Hall|].
      intros _. by split.
    + done.
    + intros Hrejected%Hex. by destruct (Hboth Hvalid Hrejected).
  - split_and!.
    + split; [by intros (? & ? & ?)|].
      intros [Hvalid%Hall Hdriver]. destruct (Hdriver Hne) as [Hclient Hans].
      destruct Hcases as [[_ Hrejected]|[_ [Hc|(_ & i & Hi & He & _)]]].
      * by destruct (Hboth Hvalid Hrejected).
      * by rewrite Hclient in Hc.
      * by rewrite (Hans i Hi) in He.
    + intros e [= <-].
      destruct Hcases
        as [[-> Hrejected]|[Hvalid [Hc|(Hc & i & Hi & He & Hans)]]].
      * left. split; [done|]. by apply Hex.
      * right. split; [by apply Hall|]. by left.
      * right. split; [by apply Hall|]. right. split; [done|]. by exists i.
    + intros Hrejected%Hex.
      destruct Hcases as [[-> _]|[Hvalid _]]; [done|].
      by destruct (Hboth Hvalid Hrejected).
Qed.

(** ** The keys of the collection *)

(** The key under which the document of a record is stored. *)
Definition upsert_key (record : raw_record) : hkey * hkey :=
  (key_of (get record "kind"), key_of (first_source_id record)).

Definition batch_keys (records : list raw_record) : gset (hkey * hkey) :=
  list_to_set (upsert_key <$> records).

Definition document_keys (documents : list NoSQLBaseDocument)
  : gset (hkey * hkey) :=
  list_to_set (omap doc_key documents).

Lemma built_doc_key record document :
  built iso_time record document → doc_key document = Some (upsert_key record).
Proof.
  intros (cl & t & Hv & ->). rewrite doc_key_stamped by done.
  unfold record_key, upsert_key. by rewrite source_id_of_eq.
Qed.

Lemma built_document_keys records documents :
  Forall2 (built iso_time) records documents →
  document_keys documents = batch_keys records.
Proof.
  unfold document_keys, batch_keys.
  induction 1 as [|r d records documents Hb _ IH]; [done|].
  cbn [omap list_omap]. rewrite (built_doc_key _ _ Hb).
  rewrite fmap_cons. cbn [list_to_set]. by rewrite IH.
Qed.

Lemma size_new_key (key : hkey * hkey) (K D : gset (hkey * hkey)) :
  size (({[key]} ∪ K) ∖ D)
  = (if decide (key ∈ D) then 0 else 1) + size (K ∖ ({[key]} ∪ D)).
Proof.
  destruct (decide (key ∈ D)) as [Hin|Hnotin].
  - cbn [Nat.add]. f_equal. apply set_eq. intros x.
    rewrite !elem_of_difference, !elem_of_union, !elem_of_singleton.
    destruct (decide (x = key)) as [->|]; naive_solver.
  - replace (({[key]} ∪ K) ∖ D) with ({[key]} ∪ K ∖ ({[key]} ∪ D)).
    + rewrite size_union, size_singleton; [done|].
      intros x. rewrite elem_of_singleton, elem_of_difference, elem_of_union,
        elem_of_singleton. naive_solver.
    + apply set_eq. intros x. rewrite !elem_of_union, !elem_of_difference,
        !elem_of_union, !elem_of_singleton.
      destruct (decide (x = key)) as [->|]; naive_solver.
Qed.

Lemma store_loop_keys collection documents : ∀ inserted w n w',
  Forall storable documents →
  store_loop iso_time server_error collection documents inserted w
  = Ok (n, w') →
  dom (coll w') = dom (coll w) ∪ document_keys documents
  ∧ n = inserted + size (document_keys documents ∖ dom (coll w))
  ∧ (∀ name, name ≠ pystr "documents" →
       database w' !! name = database w !! name).
Proof.
  unfold document_keys.
  induction documents as [|document documents IH];
    intros inserted w n w' Hall Hloop.
  - cbn [store_loop] in Hloop. injection Hloop as <- <-.
    cbn [omap list_omap list_to_set].
    split; [set_solver|]. split; [|done].
    replace (∅ ∖ dom (coll w)) with (∅ : gset (hkey * hkey)) by set_solver.
    rewrite size_empty. lia.
  - apply Forall_cons in Hall as [Hd Hall].
    destruct (store_loop_cons _ _ _ _ _ _ _ _ _ Hd Hloop)
      as (key & c & Hkey & Hc & Hrest).
    apply IH in Hrest as (Hdom & Hn & Hframe); [|done].
    rewrite coll_stored in Hdom, Hn. cbn [database] in Hframe.
    cbn [omap list_omap]. rewrite Hkey. cbn [list_to_set].
    rewrite dom_insert_L in Hdom, Hn.
    split; [rewrite Hdom; set_solver|]. split.
    + rewrite Hn, size_new_key.
      destruct (coll w !! key) as [old|] eqn:Hold.
      * rewrite decide_True by (apply elem_of_dom; eauto). lia.
      * rewrite decide_False by (by apply not_elem_of_dom). lia.
    + intros name Hname. rewrite Hframe by done.
      by rewrite lookup_insert_ne.
Qed.

Lemma store_records_dom (records : list raw_record)
    (mongo_url collection : str) (w : world) (n : nat) (w' : world) :
  store_records iso_time MongoClient server_error records mongo_url
    collection w = Ok (n, w') →
  dom (coll w') = dom (coll w) ∪ batch_keys records
  ∧ n = size (batch_keys records ∖ dom (coll w))
  ∧ (∀ name, name ≠ pystr "documents" →
       database w' !! name = database w !! name).
Proof.
  destruct (decide (records = [])) as [->|Hne].
  { cbn [store_records]. intros [= <- <-].
    unfold batch_keys. cbn [fmap list_fmap list_to_set].
    split; [set_solver|]. split; [|done].
    replace (∅ ∖ dom (coll w)) with (∅ : gset (hkey * hkey)) by set_solver.
    by rewrite size_empty. }
  rewrite store_records_eq by done.
  pose proof (build_documents_result records (clock w)) as Hb.
  destruct (build_documents iso_time records (clock w))
    as [[documents t]|e0]; [|done].
  destruct (MongoClient mongo_url); [done|].
  intros Hloop.
  apply store_loop_keys in Hloop as (Hdom & Hn & Hframe);
    [|by eapply built_all_storable].
  rewrite (built_document_keys _ _ Hb) in Hdom, Hn.
  done.
Qed.

(** X6.  A successful run never removes a document: the keys of the
    collection afterwards are the keys it had together with the keys of
    the batch, the reported count is the number of keys of the batch that
    were new, and the other collections of the database are untouched. *)
Theorem store_records_keys (records : list raw_record)
    (mongo_url collection : str) (w : world) (n : nat) (w' : world) :
  store_records iso_time MongoClient server_error records mongo_url
    collection w = Ok (n, w') →
  dom (coll w') = dom (coll w) ∪ batch_keys records
  ∧ n = size (batch_keys records ∖ dom (coll w))
  ∧ (∀ name, name ≠ pystr "documents" →
       database w' !! name = database w !! name).
Proof. apply store_records_dom. Qed.

(** ** Deduplication before the store *)

(** X23.  When the store takes a batch, it takes the deduplicated batch
    as well, and deduplication can only lower the count it reports and
    the set of documents it leaves: a record dropped for its hash may have
    been a document of its own.  Nothing is lost when records with the
    same hash have the same kind and source identifier. *)
Theorem store_after_dedupe (records : list raw_record)
    (mongo_url collection : str) (w : world) (n : nat) (w' : world) :
  store_records iso_time MongoClient server_error records mongo_url
    collection w = Ok (n, w') →
  ∃ n2 w2,
    store_records iso_time MongoClient server_error
      (Dedup.dedupe_records records) mongo_url collection w
    = Ok (n2, w2)
    ∧ n2 ≤ n
    ∧ dom (coll w2) ⊆ dom (coll w')
    ∧ ((∀ r1 r2, r1 ∈ records → r2 ∈ records →
          Dedup.has_hash r1 = true → Dedup.has_hash r2 = true →
          key_of (get r1 "hash") = key_of (get r2 "hash") →
          upsert_key r1 = upsert_key r2) →
       n2 = n ∧ dom (coll w2) = dom (coll w')).
Proof.
  intros Hrun.
  destruct (store_records_dom _ _ _ _ _ _ Hrun) as (Hdom & Hn & _).
  pose proof (Dedup.kept_sublist records ∅) as Hsub.
  rewrite <- Dedup.dedupe_records_kept in Hsub.
  assert (∃ n2 w2,
            store_records iso_time MongoClient server_error
              (Dedup.dedupe_records records) mongo_url collection w
            = Ok (n2, w2)) as (n2 & w2 & Hrun2).
  { destruct (decide (Dedup.dedupe_records records = [])) as [Hnil|Hne2].
    { rewrite Hnil. cbn [store_records]. by eauto. }
    assert (records ≠ []) as Hne.
    { intros ->. by apply Hne2. }
    pose proof (store_records_cases records mongo_url collection w Hne)
      as Hfull.
    rewrite Hrun in Hfull. destruct Hfull as (Hvalid & Hclient & Hans).
    pose proof (store_records_cases (Dedup.dedupe_records records) mongo_url
                  collection w Hne2) as Hded.
    destruct (store_records iso_time MongoClient server_error
                (Dedup.dedupe_records records) mongo_url collection w)
      as [[n2 w2]|e]; [by eauto|].
    exfalso.
    pose proof (sublist_length _ _ Hsub) as Hlen.
    destruct Hded as [[_ Hrejected]|[_ [Hc|(_ & i & Hi & He & _)]]].
    - apply Exists_exists in Hrejected as (r & Hin & Hv).
      rewrite Forall_forall in Hvalid.
      destruct (Hvalid r (elem_of_sublist _ _ _ Hin Hsub)) as [cl Hcl].
      by rewrite Hv in Hcl.
    - by rewrite Hclient in Hc.
    - rewrite (Hans i) in He by lia. done. }
  destruct (store_records_dom _ _ _ _ _ _ Hrun2) as (Hdom2 & Hn2 & _).
  assert (batch_keys (Dedup.dedupe_records records) ⊆ batch_keys records)
    as Hkeys.
  { intros key. unfold batch_keys. rewrite !elem_of_list_to_set.
    intros (r & -> & Hin)%list_elem_of_fmap.
    apply list_elem_of_fmap. exists r. split; [done|].
    by eapply elem_of_sublist. }
  exists n2, w2. split; [done|]. split_and!.
  - rewrite Hn, Hn2. apply subseteq_size. set_solver.
  - rewrite Hdom, Hdom2. set_solver.
  - intros Hsame.
    assert (batch_keys (Dedup.dedupe_records records) = batch_keys records)
      as Heq.
    { apply set_eq. intros key. split; [apply Hkeys|].
      unfold batch_keys. rewrite !elem_of_list_to_set.
      intros (r & -> & Hin)%list_elem_of_fmap.
      destruct (Dedup.has_hash r) eqn:Hh.
      - assert (key_of (get r "hash")
                ∈ Dedup.keys (Dedup.dedupe_records records)) as Hk.
        { rewrite Dedup.dedupe_records_kept.
          apply Dedup.kept_keys_complete; [|apply not_elem_of_empty].
          unfold Dedup.keys, Dedup.hashes.
          apply list_elem_of_fmap. exists (get r "hash"). split; [done|].
          apply list_elem_of_fmap. exists r. split; [done|].
          by apply list_elem_of_filter. }
        unfold Dedup.keys, Dedup.hashes in Hk.
        apply list_elem_of_fmap in Hk as (v & Hv & Hk).
        apply list_elem_of_fmap in Hk as (r' & -> & Hk).
        apply list_elem_of_filter in Hk as [Hh' Hin'].
        apply list_elem_of_fmap. exists r'. split; [|done].
        apply Hsame; [done|by eapply elem_of_sublist|done..].
      - apply list_elem_of_fmap. exists r. split; [done|].
        assert (r ∈ filter (λ r, Dedup.has_hash r = false)
                      (Dedup.dedupe_records records)) as Hf.
        { rewrite Dedup.dedupe_records_kept, Dedup.kept_hashless.
          by apply list_elem_of_filter. }
        by apply list_elem_of_filter in Hf as [_ ?]. }
    rewrite Hn, Hn2, Hdom, Hdom2, Heq. done.
Qed.

End StageLaws.

Definition poem_document : NoSQLBaseDocument :=
  Eval vm_compute in
    match build_document sample_clock poem_record 0 with
    | Ok (document, _) => document
    | Raise _ => Doc PoemPageDocument ∅
    end.

Lemma build_document_contents_witness :
  build_document sample_clock poem_record 0 = Ok (poem_document, 2)
  ∧ data poem_document !! "source_id" = Some (FVal (VStr (pystr "poem-1")))
  ∧ dom (upsert_filter poem_document) = {[ "kind"; "source_id" ]}.
Proof.
  assert (build_document sample_clock poem_record 0 = Ok (poem_document, 2))
    as Hb by (vm_compute; reflexivity).
  pose proof (build_document_contents sample_clock _ _ _ _ Hb)
    as (_ & Hsid & _ & _ & _ & Hdom).
  split; [exact Hb|]. split; [exact Hsid|exact Hdom].
Defined.

Lemma store_records_keys_witness :
  store_records sample_clock FakeMongoClient fake_server
    [poem_record; updated_record] (pystr "mongodb://fake") (pystr "documents")
    empty_world = Ok (1, world_second)
  ∧ dom (coll world_second)
    = dom (coll empty_world) ∪ batch_keys [poem_record; updated_record]
  ∧ 1 = size (batch_keys [poem_record; updated_record]
              ∖ dom (coll empty_world)).
Proof.
  assert (store_records sample_clock FakeMongoClient fake_server
            [poem_record; updated_record] (pystr "mongodb://fake")
            (pystr "documents") empty_world = Ok (1, world_second)) as Hrun
    by (vm_compute; reflexivity).
  pose proof (store_records_keys sample_clock FakeMongoClient fake_server
                _ _ _ _ _ _ Hrun)
    as (Hdom & Hn & _).
  split; [exact Hrun|]. split; [exact Hdom|exact Hn].
Defined.

Lemma store_after_dedupe_witness :
  store_records sample_clock FakeMongoClient fake_server
    [poem_record; updated_record] (pystr "mongodb://fake") (pystr "documents")
    empty_world = Ok (1, world_second)
  ∧ ∃ n2 w2,
      store_records sample_clock FakeMongoClient fake_server
        (Dedup.dedupe_records [poem_record; updated_record])
        (pystr "mongodb://fake") (pystr "documents") empty_world = Ok (n2, w2)
      ∧ n2 ≤ 1.
Proof.
  assert (store_records sample_clock FakeMongoClient fake_server
            [poem_record; updated_record] (pystr "mongodb://fake")
            (pystr "documents") empty_world = Ok (1, world_second)) as Hrun
    by (vm_compute; reflexivity).
  split; [exact Hrun|].
  destruct (store_after_dedupe sample_clock FakeMongoClient fake_server
              _ _ _ _ _ _ Hrun)
    as (n2 & w2 & Hrun2 & Hle & _).
  exists n2, w2. split; [exact Hrun2|exact Hle].
Defined.

End Store.

(* ===================================================================== *)
(** * [src/config/sources.py] *)
(* ===================================================================== *)

Module Sources.

Import Base.

Section Select.
Context (U : unicode_db).

(** [{name.strip() for name in source_names if name and name.strip()}] *)
Definition requested_names (source_names : list str) : gset str :=
  list_to_set
    (strip U <$>
       List.filter (λ name, match name, strip U name with
                            | _ :: _, _ :: _ => true
                            | _, _ => false
                            end) source_names).

(** [source.get("name") in requested]: a list cannot be hashed, a set is
    looked up as the frozenset of its items, and among the values that can
    be hashed only a string is equal to a string. *)
Definition name_in (source : config) (requested : gset str) : result bool :=
  match cget source "name" with
  | CVal (VStr name) => Ok (bool_decide (name ∈ requested))
  | CVal _ | CTuple _ | CSet _ | CFrozenset _ => Ok false
  | CList _ => Raise TypeError
  end.

Fixpoint select_from (sources : list config) (requested : gset str)
  : result (list config) :=
  match sources with
  | [] => Ok []
  | source :: sources =>
    match name_in source requested with
    | Raise e => Raise e
    | Ok keep =>
      match select_from sources requested with
      | Raise e => Raise e
      | Ok selected => Ok (if keep then source :: selected else selected)
      end
    end
  end.

(** The names of the selected sources, which are strings. *)
Definition names_of (selected : list config) : gset str :=
  list_to_set
    (omap (λ source, match cget source "name" with
                     | CVal (VStr name) => Some name
                     | _ => None
                     end) selected).

Definition select_sources (sources : list config)
    (source_names : option (list str)) : result (list config) :=
  match source_names with
  | None | Some [] => Ok sources
  | Some source_names =>
    let requested := requested_names source_names in
    match select_from sources requested with
    | Raise e => Raise e
    | Ok selected =>
      let missing := requested ∖ names_of selected in
      if bool_decide (missing = ∅) then Ok selected else Raise KeyError
    end
  end.

(** [safe_mode_value]; [env_value] is [os.getenv("SAFE_MODE")]. *)
Definition safe_mode_value (env_value : option str)
    (config_value : config_value) : bool * bool :=
  match env_value with
  | Some env_value =>
    (bool_decide (lower U env_value
                  ∈ [pystr "1"; pystr "true"; pystr "yes"; pystr "on"]),
     true)
  | None => (ctruthy config_value, false)
  end.

Definition resolve_safe_mode (source : config) (default_safe_mode : bool)
    (env_override : bool) (pipeline_override : option bool) : bool :=
  if env_override then default_safe_mode
  else
    match pipeline_override with
    | Some pipeline_override => pipeline_override
    | None =>
      match source !! "safe_mode" with
      | Some v => ctruthy v
      | None => default_safe_mode
      end
    end.

(** The safe mode [run_once] of [src/crawler/main.py] gives the crawler
    of a source. *)
Definition run_once_safe_mode (env_value : option str) (top_level : config)
    (target : config) : bool :=
  let '(default_safe_mode, env_override) :=
    safe_mode_value env_value (cget top_level "SAFE_MODE") in
  resolve_safe_mode target default_safe_mode env_override None.

(** ** Selection *)

(** The test of the comprehension on a source whose name can be hashed. *)
Definition selects (requested : gset str) (source : config) : bool :=
  match cget source "name" with
  | CVal (VStr name) => bool_decide (name ∈ requested)
  | _ => false
  end.

Lemma requested_names_stripped (source_names : list str) (name : str) :
  name ∈ requested_names source_names →
  strip U name = name ∧ name ≠ []
  ∧ ∃ given, given ∈ source_names ∧ name = strip U given.
Proof.
  unfold requested_names. rewrite elem_of_list_to_set.
  intros (given & -> & Hin)%list_elem_of_fmap.
  apply list_elem_of_In, filter_In in Hin as [Hin Hkeep].
  split_and!.
  - apply Text.trimmed_strip, Text.strip_trimmed.
  - destruct given; [done|]. by destruct (strip U _).
  - exists given. split; [by apply list_elem_of_In|done].
Qed.

Lemma select_from_result (sources : list config) (requested : gset str) :
  match select_from sources requested with
  | Ok selected =>
    selected = List.filter (selects requested) sources
    ∧ Forall (λ source, ∀ items, cget source "name" ≠ CList items) sources
  | Raise e =>
    e = TypeError
    ∧ ∃ source items, source ∈ sources ∧ cget source "name" = CList items
  end.
Proof.
  induction sources as [|source sources IH]; cbn [select_from].
  - split; [done|constructor].
  - unfold name_in. cbn [List.filter]. unfold selects at 1.
    destruct (cget source "name") as [v|items|items|items|items] eqn:Hname.
    + destruct (select_from sources requested) as [selected|e];
        cbv beta iota in IH.
      * destruct IH as [-> Hall].
        destruct v; (split; [done|]);
          (constructor; [by rewrite Hname|done]).
      * destruct IH as (-> & s & items & Hin & Hs).
        destruct v; (split; [done|]); exists s, items;
          (split; [by right|done]).
    + split; [done|]. exists source, items. split; [by left|done].
    + destruct (select_from sources requested) as [selected|e];
        cbv beta iota in IH.
      * destruct IH as [-> Hall]. split; [done|].
        constructor; [by rewrite Hname|done].
      * destruct IH as (-> & s & items' & Hin & Hs). split; [done|].
        exists s, items'. split; [by right|done].
    + destruct (select_from sources requested) as [selected|e];
        cbv beta iota in IH.
      * destruct IH as [-> Hall]. split; [done|].
        constructor; [by rewrite Hname|done].
      * destruct IH as (-> & s & items' & Hin & Hs). split; [done|].
        exists s, items'. split; [by right|done].
    + destruct (select_from sources requested) as [selected|e];
        cbv beta iota in IH.
      * destruct IH as [-> Hall]. split; [done|].
        constructor; [by rewrite Hname|done].
      * destruct IH as (-> & s & items' & Hin & Hs). split; [done|].
        exists s, items'. split; [by right|done].
Qed.

Lemma names_of_filter (sources : list config) (requested : gset str) name :
  name ∈ names_of (List.filter (selects requested) sources)
  ↔ name ∈ requested
    ∧ ∃ source, source ∈ sources ∧ cget source "name" = CVal (VStr name).
Proof.
  unfold names_of. rewrite elem_of_list_to_set, list_elem_of_omap. split.
  - intros (source & Hin & Hname).
    apply list_elem_of_In, filter_In in Hin as [Hin Hsel].
    unfold selects in Hsel.
    destruct (cget source "name") as [[| | |n]| | | |] eqn:Hn; try done.
    injection Hname as ->. apply bool_decide_eq_true in Hsel.
    split; [done|]. exists source. split; [by apply list_elem_of_In|done].
  - intros (Hreq & source & Hin & Hname). exists source. split.
    + apply list_elem_of_In, filter_In. split; [by apply list_elem_of_In|].
      unfold selects. rewrite Hname. by apply bool_decide_eq_true.
    + by rewrite Hname.
Qed.

(** X20.  Without names every source is selected.  With names, the
    sources selected are those whose name is one of the names asked for,
    stripped, in the order of the configuration; the selection succeeds
    exactly when each such name is the name of a source, and raises
    [KeyError] otherwise.  The name of a selected source is not empty and
    has no whitespace around it, so a source configured with such a name
    cannot be selected; names that are all blank select nothing, not
    everything. *)
Theorem select_sources_spec (sources : list config) (source_names : list str) :
  select_sources sources None = Ok sources
  ∧ select_sources sources (Some []) = Ok sources
  ∧ (source_names ≠ [] →
     match select_sources sources (Some source_names) with
     | Ok selected =>
       selected = List.filter (selects (requested_names source_names)) sources
       ∧ (∀ name, name ∈ requested_names source_names →
            ∃ source, source ∈ selected
                      ∧ cget source "name" = CVal (VStr name))
       ∧ Forall (λ source,
                   ∃ name given,
                     cget source "name" = CVal (VStr name)
                     ∧ given ∈ source_names
                     ∧ name = strip U given
                     ∧ strip U name = name
                     ∧ name ≠ []) selected
     | Raise e =>
       e = TypeError
       ∧ (∃ source items,
            source ∈ sources ∧ cget source "name" = CList items)
       ∨ e = KeyError
         ∧ ∃ name, name ∈ requested_names source_names
             ∧ ∀ source, source ∈ sources →
                 cget source "name" ≠ CVal (VStr name)
     end)
  ∧ (source_names ≠ [] →
     Forall (λ name, strip U name = []) source_names →
     Forall (λ source, ∀ items, cget source "name" ≠ CList items) sources →
     select_sources sources (Some source_names) = Ok []).
Proof.
  split; [done|]. split; [done|].
  assert (source_names ≠ [] →
          select_sources sources (Some source_names)
          = match select_from sources (requested_names source_names) with
            | Raise e => Raise e
            | Ok selected =>
              if bool_decide (requested_names source_names
                              ∖ names_of selected = ∅)
              then Ok selected else Raise KeyError
            end) as Hrun.
  { intros Hne. unfold select_sources. by destruct source_names. }
  split.
  - intros Hne. rewrite (Hrun Hne).
    pose proof (select_from_result sources (requested_names source_names))
      as Hsel.
    destruct (select_from sources (requested_names source_names))
      as [selected|e]; [|by left].
    destruct Hsel as [-> Hall].
    case_bool_decide as Hmissing.
    + split_and!.
      * done.
      * intros name Hname.
        assert (name ∈ names_of (List.filter
                  (selects (requested_names source_names)) sources)) as Hin.
        { destruct (decide (name ∈ names_of (List.filter
                      (selects (requested_names source_names)) sources)))
            as [?|Hn]; [done|exfalso].
          assert (name ∈ requested_names source_names
                         ∖ names_of (List.filter
                             (selects (requested_names source_names)) sources))
            as Hd by (by apply elem_of_difference).
          rewrite Hmissing in Hd. by apply elem_of_empty in Hd. }
        apply names_of_filter in Hin as (_ & source & Hin & Hs).
        exists source. split; [|done].
        apply list_elem_of_In, filter_In. split; [by apply list_elem_of_In|].
        unfold selects. rewrite Hs. by apply bool_decide_eq_true.
      * apply Forall_forall. intros source Hin.
        apply list_elem_of_In, filter_In in Hin as [_ Hsel].
        unfold selects in Hsel.
        destruct (cget source "name") as [[| | |n]| | | |] eqn:Hn; try done.
        apply bool_decide_eq_true in Hsel.
        destruct (requested_names_stripped _ _ Hsel)
          as (Hs & Hne' & given & Hg & ->).
        by exists (strip U given), given.
    + right. split; [done|].
      apply set_choose_L in Hmissing as [name Hname].
      apply elem_of_difference in Hname as [Hreq Hnot].
      exists name. split; [done|]. intros source Hin Hs.
      apply Hnot, names_of_filter. split; [done|]. by exists source.
  - intros Hne Hblank Hall. rewrite (Hrun Hne).
    assert (requested_names source_names = ∅) as ->.
    { apply set_eq. intros name. split; [|by intros ?%elem_of_empty].
      intros (_ & Hn & given & Hg & ->)%requested_names_stripped.
      rewrite Forall_forall in Hblank. by rewrite (Hblank given Hg) in Hn. }
    pose proof (select_from_result sources ∅) as Hsel.
    destruct (select_from sources ∅) as [selected|e].
    + destruct Hsel as [-> _].
      assert (List.filter (selects ∅) sources = []) as ->.
      { clear. induction sources as [|s sources IH]; [done|].
        cbn [List.filter]. unfold selects at 1.
        destruct (cget s "name") as [[| | |n]| | | |]; try done;
          try (by rewrite bool_decide_eq_false_2 by apply not_elem_of_empty). }
      rewrite bool_decide_eq_true_2; [done|].
      apply set_eq. intros x. rewrite elem_of_difference.
      split; [by intros [?%elem_of_empty _]|by intros ?%elem_of_empty].
    + destruct Hsel as (_ & s & items & Hin & Hs).
      rewrite Forall_forall in Hall. by destruct (Hall s Hin items).
Qed.

(** ** Safe mode *)

(** X21.  When the environment variable SAFE_MODE is set, it alone
    decides the safe mode of a run: the setting of the source and that of
    the configuration file are not looked at, and the mode is on exactly
    for the values "1", "true", "yes" and "on" in any case, with no
    whitespace around them.  When it is not set, a source that has a
    [safe_mode] key decides by the truth value of that key: the string
    "false" turns the mode on, an explicit null turns it off whatever the
    file says.  A source without the key follows the file. *)
Theorem run_once_safe_mode_spec (env_value : option str)
    (top_level target : config) :
  (∀ value top_level' target',
     env_value = Some value →
     run_once_safe_mode env_value top_level target
     = run_once_safe_mode env_value top_level' target'
     ∧ run_once_safe_mode env_value top_level target
       = bool_decide (lower U value
                      ∈ [pystr "1"; pystr "true"; pystr "yes"; pystr "on"]))
  ∧ (env_value = None →
     (∀ v top_level',
        target !! "safe_mode" = Some v →
        run_once_safe_mode None top_level target = ctruthy v
        ∧ run_once_safe_mode None top_level' target = ctruthy v)
     ∧ (target !! "safe_mode" = None →
        run_once_safe_mode None top_level target
        = ctruthy (cget top_level "SAFE_MODE")))
  ∧ run_once_safe_mode None top_level
      (<["safe_mode" := CVal (VStr (pystr "false"))]> target) = true
  ∧ run_once_safe_mode None top_level
      (<["safe_mode" := CVal VNone]> target) = false
  ∧ run_once_safe_mode (Some (pystr "false")) top_level
      (<["safe_mode" := CVal (VBool true)]> target) = false
  ∧ run_once_safe_mode (Some (pystr "TRUE")) top_level
      (<["safe_mode" := CVal (VBool false)]> target) = true
  ∧ run_once_safe_mode (Some (pystr "true ")) top_level target = false.
Proof.
  split_and!.
  - intros value top_level' target' ->. done.
  - intros ->. split.
    + intros v top_level' Hv. unfold run_once_safe_mode, safe_mode_value,
        resolve_safe_mode. by rewrite Hv.
    + intros Hv. unfold run_once_safe_mode, safe_mode_value,
        resolve_safe_mode. by rewrite Hv.
  - unfold run_once_safe_mode, safe_mode_value, resolve_safe_mode.
    by rewrite lookup_insert_eq.
  - unfold run_once_safe_mode, safe_mode_value, resolve_safe_mode.
    by rewrite lookup_insert_eq.
  - vm_compute. reflexivity.
  - vm_compute. reflexivity.
  - vm_compute. reflexivity.
Qed.

End Select.

End Sources.

(* ===================================================================== *)
(** * The stages in sequence ([run_once] of [src/crawler/main.py]) *)
(* ===================================================================== *)

Module Pipeline.

Import Documents.

Section Stages.
Context (U : unicode_db).
Variable fromisoformat : str → option Normalize.date.
Variables nfc nfkd : str → str.
Variable is_Mn : char → bool.
Variable int : str → option Z.
Variable now : nat → str.
Variable iso_time : nat → str.

(** X24.  A normalized record is accepted as a document exactly when the
    record it comes from has the kind of a document class, a "source_id",
    "hash" or "source_url" that counts as true, a title that is a string
    and is not empty once cleaned, and, for the kinds that need content,
    a [text_full] that is not blank or a summary that is not empty once
    cleaned.  A title of whitespace is therefore rejected, and with it the
    batch.  The document keeps the [created_at] of the normalized record
    when that is not empty. *)
Theorem normalized_record_accepted (record : raw_record) (t : nat)
    (item : raw_record) (t' : nat) (tb : nat) :
  Normalize.normalize_record U fromisoformat nfc nfkd is_Mn int now record t
  = inr (item, t') →
  ((∃ document tb', build_document iso_time item tb = Ok (document, tb'))
   ↔ ∃ cl,
       record !! "kind" = Some (VStr (kind cl))
       ∧ truthy (Store.first_source_id record) = true
       ∧ (∃ s, record !! "title" = Some (VStr s)
               ∧ Text.clean U nfc nfkd is_Mn s ≠ [])
       ∧ (requires_content cl = true →
          (∃ s, record !! "text_full" = Some (VStr s) ∧ strip U s ≠ [])
          ∨ (∃ v, record !! "text_full" = Some v ∧ truthy v = true
                  ∧ ∀ s, v ≠ VStr s)
          ∨ ∃ s, record !! "summary" = Some (VStr s)
                 ∧ Text.clean U nfc nfkd is_Mn s ≠ []))
  ∧ (∀ e, build_document iso_time item tb = Raise e → e = ValidationError)
  ∧ (∀ document tb',
       build_document iso_time item tb = Ok (document, tb') →
       truthy (get item "created_at") = true →
       data document !! "created_at" = FVal <$> item !! "created_at").
Proof.
  intros Hrun.
  apply Normalize.normalize_record_inr in Hrun
    as (-> & Htitle & Hsummary & Htext & Hlang & Htype & Hdate & Hauthor
        & Hlicense & Hcreated & Hother).
  assert (∀ k, k ∈ ["kind"; "source_id"; "hash"; "source_url"] →
            item !! k = record !! k) as Hkeep.
  { intros k Hk. apply Hother. unfold Normalize.normalized_keys.
    repeat (apply elem_of_cons in Hk as [->|Hk]);
      [..|by apply elem_of_nil in Hk];
      rewrite !not_elem_of_cons; split_and!; try done; apply not_elem_of_nil. }
  assert (Store.first_source_id item = Store.first_source_id record) as Hsid.
  { unfold Store.first_source_id, get.
    rewrite !Hkeep; [done|..]; apply list_elem_of_In; cbn; tauto. }
  assert (item !! "kind" = record !! "kind") as Hkind
    by (apply Hkeep, list_elem_of_In; cbn; tauto).
  assert (truthy (get item "title") = true
          ↔ ∃ s, record !! "title" = Some (VStr s)
                 ∧ Text.clean U nfc nfkd is_Mn s ≠ []) as Ht.
  { unfold get at 1. rewrite Htitle. cbn [default from_option id].
    unfold get. destruct (record !! "title") as [[| | |s]|];
      cbn [default from_option id truthy].
    1-3, 5: split; [done|by intros (s & ? & ?)].
    destruct (Text.clean U nfc nfkd is_Mn s) eqn:Hc.
    - split; [done|]. intros (s' & [= <-] & Hne). by rewrite Hc in Hne.
    - split; [|done]. intros _. exists s. by rewrite Hc. }
  assert (truthy (get item "summary") = true
          ↔ ∃ s, record !! "summary" = Some (VStr s)
                 ∧ Text.clean U nfc nfkd is_Mn s ≠ []) as Hsum.
  { unfold get at 1. rewrite Hsummary. cbn [default from_option id].
    unfold get. destruct (record !! "summary") as [[| | |s]|];
      cbn [default from_option id truthy].
    1-3, 5: split; [done|by intros (s & ? & ?)].
    destruct (Text.clean U nfc nfkd is_Mn s) eqn:Hc.
    - split; [done|]. intros (s' & [= <-] & Hne). by rewrite Hc in Hne.
    - split; [|done]. intros _. exists s. by rewrite Hc. }
  assert (truthy (get item "text_full") = true
          ↔ (∃ s, record !! "text_full" = Some (VStr s) ∧ strip U s ≠ [])
            ∨ (∃ v, record !! "text_full" = Some v ∧ truthy v = true
                    ∧ ∀ s, v ≠ VStr s)) as Htf.
  { unfold get at 1. rewrite Htext. cbn [default from_option id].
    destruct (record !! "text_full") as [v|]; cbn [default from_option id].
    - destruct v as [|b|n|s]; cbn [truthy].
      + split; [done|]. intros [(s & ? & ?)|(v & [= <-] & ? & ?)]; done.
      + split.
        * intros Hb. right. exists (VBool b). by split_and!.
        * intros [(s & ? & ?)|(v & [= <-] & ? & ?)]; done.
      + split.
        * intros Hb. right. exists (VInt n). by split_and!.
        * intros [(s & ? & ?)|(v & [= <-] & ? & ?)]; done.
      + destruct (strip U s) eqn:Hs.
        * split; [done|].
          intros [(s' & [= <-] & Hne)|(v & [= <-] & _ & Hv)];
            [by rewrite Hs in Hne|by destruct (Hv s)].
        * split; [|done]. intros _. left. exists s. by rewrite Hs.
    - cbn. split; [done|].
      intros [(s & ? & ?)|(v & ? & ?)]; done. }
  assert ((∃ document tb', build_document iso_time item tb = Ok (document, tb'))
          ↔ is_Some (Store.validated item)) as Hacc.
  { rewrite Store.build_document_eq.
    destruct (Store.validated item) as [cl|].
    - split; by eauto.
    - split; [by intros (? & ? & ?)|by intros [? ?]]. }
  split_and!.
  - rewrite Hacc. split.
    + intros [cl Hv]. apply Store.validated_Some in Hv as (Hk & Hs & Htt & Hc).
      exists cl. rewrite Hkind in Hk. rewrite Hsid in Hs.
      split_and!; [done|done|by apply Ht|].
      intros Hreq. unfold Store.has_content in Hc. rewrite Hreq in Hc.
      cbn [negb orb] in Hc. apply orb_true_iff in Hc as [Hc|Hc].
      * apply Htf in Hc as [?|?]; [by left|right; by left].
      * right. right. by apply Hsum.
    + intros (cl & Hk & Hs & Htt & Hc). exists cl.
      apply Store.validated_Some. rewrite Hkind, Hsid.
      split_and!; [done|done|by apply Ht|].
      unfold Store.has_content.
      destruct (requires_content cl); [|done]. cbn [negb orb].
      apply orb_true_iff.
      destruct (Hc eq_refl) as [H1|[H2|H3]].
      * left. apply Htf. by left.
      * left. apply Htf. by right.
      * right. by apply Hsum.
  - intros e. rewrite Store.build_document_eq.
    destruct (Store.validated item); [done|by intros [= <-]].
  - intros document tb' Hb Hc. rewrite Store.build_document_eq in Hb.
    destruct (Store.validated item) as [cl|] eqn:Hv; [|done].
    injection Hb as <- <-. cbn [data].
    destruct (Store.stamped_created_at iso_time cl item tb) as (c & -> & ->).
    unfold Store.stamps. rewrite Hc. cbn [fst].
    unfold get in *. by destruct (item !! "created_at").
Qed.

End Stages.

(** A record whose title is whitespace: normalization cleans the title to
    the empty string and no document is built from the result. *)
Definition blank_title_record : raw_record :=
  {[ "kind" := VStr (pystr "news"); "hash" := VStr (pystr "ab");
     "title" := VStr (pystr "  "); "summary" := VStr (pystr "Davet") ]}.

Lemma normalized_record_accepted_witness :
  ∃ item t',
    Normalize.normalize_record corpus_db Normalize.fromisoformat_date id id
      (λ _, false) (λ _, None) (λ _, pystr "2024-01-01T00:00:00")
      blank_title_record 0 = inr (item, t')
    ∧ ¬ ∃ document tb',
          build_document Store.sample_clock item 0 = Ok (document, tb').
Proof.
  destruct (Normalize.normalize_record corpus_db Normalize.fromisoformat_date
              id id (λ _, false) (λ _, None)
              (λ _, pystr "2024-01-01T00:00:00") blank_title_record 0)
    as [e|[item t']] eqn:Hrun.
  - assert (match Normalize.normalize_record corpus_db
                    Normalize.fromisoformat_date id id (λ _, false)
                    (λ _, None) (λ _, pystr "2024-01-01T00:00:00")
                    blank_title_record 0
            with inr _ => True | inl _ => False end) as Hok
      by (vm_compute; exact I).
    rewrite Hrun in Hok. destruct Hok.
  - exists item, t'. split; [reflexivity|].
    intros Hacc.
    apply (proj1 (proj1 (normalized_record_accepted corpus_db
                           Normalize.fromisoformat_date id id (λ _, false)
                           (λ _, None) (λ _, pystr "2024-01-01T00:00:00")
                           Store.sample_clock blank_title_record 0 item t' 0
                           Hrun))) in Hacc.
    destruct Hacc as (cl & _ & _ & (s & Hs & Hne) & _).
    apply Hne. vm_compute in Hs. injection Hs as <-.
    vm_compute. reflexivity.
Defined.

End Pipeline.
